(** * Notebook execution service: kernel resolution, trust gate, batch
      dispatch, reconciliation and cancellation.

    Shallow embedding of
    [src/vs/workbench/contrib/notebook/browser/notebookExecutionServiceImpl.ts]
    (class [NotebookExecutionService]).

    The service is pure orchestration: every line of it is a call into a
    collaborator (log service, workspace trust, kernel service, command
    service, execution state service, the kernel itself).  The methods are
    therefore embedded as programs over an alphabet of collaborator calls
    ([Event]); a handler gives the calls a meaning on a state, and running a
    program under a handler yields the list of calls made with their answers,
    the final state and the way the returned promise settled.

    One request is followed from its call to the settling of its promise.
    What else happens while the request waits (the trust prompt, a source
    action, the kernel picker, the kernel at work, other requests getting
    their turn) is part of what the awaited collaborator does to the state,
    which is left arbitrary.  [dispose] only cancels a token that no method of
    the class sets, and is left out. *)

From stdpp Require Import base option list gmap strings.

Local Open Scope Z_scope.
Local Open Scope string_scope.
Local Open Scope list_scope.

(** ** Data model *)

(** [URI] of a notebook document. *)
Definition Uri := string.

(** Modelled from the spec: the identity of an execution record is the pair
    (notebook URI, cell handle); the URI of a cell ([CellUri] of
    notebookCommon, not part of the sources at hand) is that pair. *)
Module CellUri.
Record t := mk { notebook : Uri; handle : Z }.
End CellUri.

#[global] Instance CellUri_eq_dec : EqDecision CellUri.t.
Proof. solve_decision. Defined.

(** [CellKind] (notebookCommon): a cell is code or markup. *)
Inductive CellKind := Markup | Code.

#[global] Instance CellKind_eq_dec : EqDecision CellKind.
Proof. solve_decision. Defined.

(** Modelled from the spec: the enum [NotebookCellExecutionState] is declared
    in notebookCommon, which is missing; the spec names the states
    Unconfirmed, Confirmed and Completed (terminal). *)
Inductive NotebookCellExecutionState := Unconfirmed | Confirmed | Completed.

#[global] Instance NotebookCellExecutionState_eq_dec :
  EqDecision NotebookCellExecutionState.
Proof. solve_decision. Defined.

(** [NotebookCellTextModel]: the service reads [handle], [uri], [cellKind]
    and [language] only. *)
Module Cell.
Record t := mk {
  handle : Z;
  uri : CellUri.t;
  cellKind : CellKind;
  language : string
}.
End Cell.

(** [INotebookTextModel]: the service reads [uri] only. *)
Module Notebook.
Record t := mk { uri : Uri }.
End Notebook.

(** [INotebookKernel]: [id] and [supportedLanguages] are data; the two
    operations of a kernel are the events [ExecuteNotebookCellsRequest] and
    [CancelNotebookCellExecution] below. *)
Module Kernel.
Record t := mk { id : string; supportedLanguages : list string }.
End Kernel.

(** A kernel source action; [runAction] is an event. *)
Record SourceAction := { action_label : string }.

(** The result of [getMatchingKernel]; the service reads [all] only. *)
Record INotebookKernelMatchResult := { all : list Kernel.t }.

(** [INotebookCellExecution]: an object shared between the service, the
    execution state service and the kernel.  [notebook] and [cellHandle] are
    read-only; [state] is mutable, so the object is a reference [ref] into the
    store and reading [exe.state] is an event. *)
Module Exe.
Record t := mk { ref : nat; notebook : Uri; cellHandle : Z }.
End Exe.

(** The argument of [exe.complete]: an object literal, kept as its list of
    properties; [{}] is the empty list. *)
Definition CompletionData := list (string * string).

(** An [Iterable<A>] argument: an array at hand, or an iterable object of the
    caller (a generator, say) that only the caller can enumerate. *)
Inductive Iterable (A : Type) :=
| FromArray (items : list A)
| FromSource (src : nat).
Arguments FromArray {A} items.
Arguments FromSource {A} src.

(** Modelled from the spec: the name of the interactive kernel-picker command,
    [SELECT_KERNEL_ID] of coreActions, which is missing.  No statement below
    depends on the value. *)
Definition SELECT_KERNEL_ID : string := "_notebook.selectKernel".

(** [nls.localize(key, message)] with no translation bundle loaded. *)
Definition localize (key message : string) : string := message.

(** ** Collaborator calls *)

Inductive Event : Type -> Type :=
(* Array.from over an iterable object of the caller *)
| IterateCells (src : nat) : Event (list Cell.t)
| IterateHandles (src : nat) : Event (list Z)
(* ILogService.debug: the text and the handles JSON.stringify prints *)
| LogDebug (message : string) (handles : list Z) : Event unit
(* IWorkspaceTrustRequestService *)
| RequestWorkspaceTrust (message : string) : Event bool
(* INotebookKernelService *)
| GetSelectedOrSuggestedKernel (notebook : Notebook.t) : Event (option Kernel.t)
| GetMatchingKernel (notebook : Notebook.t) : Event INotebookKernelMatchResult
| GetSourceActions : Event (list SourceAction)
| SelectKernelForNotebook (kernel : Kernel.t) (notebook : Notebook.t) : Event unit
(* ISourceAction.runAction *)
| RunAction (action : SourceAction) : Event unit
(* ICommandService.executeCommand *)
| ExecuteCommand (id : string) : Event unit
(* INotebookExecutionStateService *)
| GetCellExecution (cellUri : CellUri.t) : Event (option Exe.t)
| CreateCellExecution (controllerId : string) (notebook : Uri) (cellHandle : Z)
    : Event Exe.t
(* INotebookCellExecution *)
| ReadState (exe : Exe.t) : Event NotebookCellExecutionState
| Complete (exe : Exe.t) (data : CompletionData) : Event unit
(* INotebookKernel *)
| ExecuteNotebookCellsRequest (kernel : Kernel.t) (notebook : Uri)
    (handles : list Z) : Event unit
| CancelNotebookCellExecution (kernel : Kernel.t) (notebook : Uri)
    (handles : list Z) : Event unit.

(** ** Programs

    [Vis e k] calls [e] and, when the call returns (for a promise: when it
    fulfils, the call being awaited), goes on with [k].  No method of the
    class has a [try]: a call that throws, or an awaited promise that
    rejects, rejects the promise of the method.  [Detach p k] starts the
    async method [p] and drops its promise: [k] goes on whatever becomes of
    it. *)
Inductive Prog : Type -> Type :=
| Ret {R} (r : R) : Prog R
| Vis {X R} (e : Event X) (k : X -> Prog R) : Prog R
| Detach {R} (floating : Prog unit) (k : Prog R) : Prog R.

Fixpoint bind {A B} (p : Prog A) : (A -> Prog B) -> Prog B :=
  match p in Prog T return (T -> Prog B) -> Prog B with
  | Ret r => fun f => f r
  | Vis e k => fun f => Vis e (fun x => bind (k x) f)
  | Detach c k => fun f => Detach c (bind k f)
  end.

Definition trigger {X} (e : Event X) : Prog X := Vis e Ret.

Declare Scope prog_scope.
Delimit Scope prog_scope with prog.
Bind Scope prog_scope with Prog.
Notation "x <- p ;; q" := (bind p (fun x => q))
  (at level 100, p at next level, q at level 200, right associativity)
  : prog_scope.
Notation "p ;; q" := (bind p (fun _ => q))
  (at level 100, q at level 200, right associativity) : prog_scope.
Local Open Scope prog_scope.

(** [Array.from(iterable)]. *)
Definition arrayFrom {A} (enumerate : nat -> Event (list A))
    (it : Iterable A) : Prog (list A) :=
  match it with
  | FromArray items => Ret items
  | FromSource src => trigger (enumerate src)
  end.

(** [xs.map(f)] where [f] calls a collaborator. *)
Fixpoint mapP {A B} (f : A -> Prog B) (xs : list A) : Prog (list B) :=
  match xs with
  | [] => Ret []
  | x :: rest => y <- f x ;; ys <- mapP f rest ;; Ret (y :: ys)
  end.

(** [xs.filter(f)] where [f] calls a collaborator. *)
Fixpoint filterP {A} (f : A -> Prog bool) (xs : list A) : Prog (list A) :=
  match xs with
  | [] => Ret []
  | x :: rest =>
      keep <- f x ;; ys <- filterP f rest ;;
      Ret (if keep : bool then x :: ys else ys)
  end.

(** [xs.forEach(f)]. *)
Fixpoint forEachP {A} (f : A -> Prog unit) (xs : list A) : Prog unit :=
  match xs with
  | [] => Ret tt
  | x :: rest => f x ;; forEachP f rest
  end.

(** ** The service *)

Definition trustMessage : string :=
  localize "notebookRunTrust"
    "Executing a notebook cell will run code from this workspace.".

(** [resolveSourceActions] (private). *)
Definition resolveSourceActions (notebook : Notebook.t) : Prog (option Kernel.t) :=
  info <- trigger (GetMatchingKernel notebook) ;;
  if (length (all info) =? 0)%nat then
    (* no kernel at all *)
    sourceActions <- trigger GetSourceActions ;;
    match sourceActions with
    | [action] =>
        trigger (RunAction action) ;;
        trigger (GetSelectedOrSuggestedKernel notebook)
    | _ => Ret None
    end
  else Ret None.

(** The [for] loop of [executeNotebookCells]: [executeCells] is the array
    being pushed to. *)
Fixpoint collectExecutable (kernel : Kernel.t) (cellsArr : list Cell.t)
    (executeCells : list Cell.t) : Prog (list Cell.t) :=
  match cellsArr with
  | [] => Ret executeCells
  | cell :: rest =>
      cellExe <- trigger (GetCellExecution (Cell.uri cell)) ;;
      if negb (bool_decide (Cell.cellKind cell = Code)) || bool_decide (is_Some cellExe)
      then collectExecutable kernel rest executeCells
      else if negb (bool_decide (Cell.language cell ∈ Kernel.supportedLanguages kernel))
      then collectExecutable kernel rest executeCells
      else collectExecutable kernel rest (executeCells ++ [cell])
  end.

Definition isUnconfirmed (exe : Exe.t) : Prog bool :=
  state <- trigger (ReadState exe) ;;
  Ret (bool_decide (state = Unconfirmed)).

Definition executeNotebookCells (notebook : Notebook.t)
    (cells : Iterable Cell.t) : Prog unit :=
  cellsArr <- arrayFrom IterateCells cells ;;
  trigger (LogDebug "NotebookExecutionService#executeNotebookCells"
             (map Cell.handle cellsArr)) ;;
  let message := trustMessage in
  trust <- trigger (RequestWorkspaceTrust message) ;;
  if negb trust then Ret tt
  else
    kernel <- trigger (GetSelectedOrSuggestedKernel notebook) ;;
    kernel <- match kernel with
              | None => resolveSourceActions notebook
              | Some _ => Ret kernel
              end ;;
    kernel <- match kernel with
              | None =>
                  trigger (ExecuteCommand SELECT_KERNEL_ID) ;;
                  trigger (GetSelectedOrSuggestedKernel notebook)
              | Some _ => Ret kernel
              end ;;
    match kernel with
    | None => Ret tt
    | Some kernel =>
        executeCells <- collectExecutable kernel cellsArr [] ;;
        if (0 <? length executeCells)%nat then
          trigger (SelectKernelForNotebook kernel notebook) ;;
          exes <- mapP (fun c => trigger (CreateCellExecution (Kernel.id kernel)
                                   (Notebook.uri notebook) (Cell.handle c)))
                    executeCells ;;
          trigger (ExecuteNotebookCellsRequest kernel (Notebook.uri notebook)
                     (map Cell.handle executeCells)) ;;
          (* the connecting state can change before the kernel resolves
             executeNotebookCellsRequest *)
          unconfirmed <- filterP isUnconfirmed exes ;;
          if (0 <? length unconfirmed)%nat then
            trigger (LogDebug
              "NotebookExecutionService#executeNotebookCells completing unconfirmed executions"
              (map Exe.cellHandle unconfirmed)) ;;
            forEachP (fun exe => trigger (Complete exe [])) unconfirmed
          else Ret tt
        else Ret tt
    end.

Definition cancelNotebookCellHandles (notebook : Notebook.t)
    (cells : Iterable Z) : Prog unit :=
  cellsArr <- arrayFrom IterateHandles cells ;;
  trigger (LogDebug "NotebookExecutionService#cancelNotebookCellHandles" cellsArr) ;;
  kernel <- trigger (GetSelectedOrSuggestedKernel notebook) ;;
  match kernel with
  | Some kernel =>
      trigger (CancelNotebookCellExecution kernel (Notebook.uri notebook) cellsArr)
  | None => Ret tt
  end.

(** The promise of [cancelNotebookCellHandles] is neither awaited nor
    returned. *)
Definition cancelNotebookCells (notebook : Notebook.t)
    (cells : Iterable Cell.t) : Prog unit :=
  handles <- (cellsArr <- arrayFrom IterateCells cells ;;
              Ret (map Cell.handle cellsArr)) ;;
  Detach (cancelNotebookCellHandles notebook (FromArray handles)) (Ret tt).

(** ** Running a program *)

(** How a call, or the promise of a method, settles. *)
Inductive Result (A : Type) :=
| Ok (a : A)
| Reject (err : string).
Arguments Ok {A} a.
Arguments Reject {A} err.

(** A call the service made, with what it got back. *)
Inductive Obs :=
| Observe {X} (e : Event X) (r : Result X).

Definition Handler (W : Type) := forall X, Event X -> W -> Result X * W.

(** [trace]: the calls made, in order; [dropped]: the rejections of promises
    nobody holds; [result]: how the promise of the method settles; [world]:
    the state the collaborators are left in. *)
Record Outcome (W R : Type) := {
  trace : list Obs;
  dropped : list string;
  result : Result R;
  world : W
}.
Arguments trace {W R} _.
Arguments dropped {W R} _.
Arguments result {W R} _.
Arguments world {W R} _.

(** [after t d o]: the outcome [o] of a continuation, with what came first. *)
Definition after {W R} (t : list Obs) (d : list string) (o : Outcome W R)
    : Outcome W R :=
  {| trace := t ++ trace o; dropped := d ++ dropped o;
     result := result o; world := world o |}.

Definition rejection {A} (r : Result A) : list string :=
  match r with Ok _ => [] | Reject err => [err] end.

(** A method that calls an async method and drops the promise runs it up to
    its first pending [await] and goes on; the rest of the callee runs later.
    The state is threaded through the callee to its end here, so the model
    says what the dropped call does, not when. *)
Fixpoint exec {W R} (h : Handler W) (p : Prog R) (w : W) : Outcome W R :=
  match p with
  | Ret r => {| trace := []; dropped := []; result := Ok r; world := w |}
  | Vis e k =>
      match h _ e w with
      | (Ok x, w') => after [Observe e (Ok x)] [] (exec h (k x) w')
      | (Reject err, w') =>
          {| trace := [Observe e (Reject err)]; dropped := [];
             result := Reject err; world := w' |}
      end
  | Detach c k =>
      let oc := exec h c w in
      after (trace oc) (dropped oc ++ rejection (result oc)) (exec h k (world oc))
  end.

(** ** The collaborators *)

(** A record of the execution state service. *)
Record StoredExecution := {
  se_controllerId : string;
  se_notebook : Uri;
  se_cellHandle : Z;
  se_state : NotebookCellExecutionState;
  se_result : option CompletionData
}.

(** The state the collaborators share.  [selected]: the selected-or-suggested
    kernel of each notebook; [matching]: the kernels [getMatchingKernel]
    finds; [executions]: the execution objects ever created, an object being
    its index; [external]: whatever else the surroundings remember. *)
Record World (X : Type) := {
  selected : gmap Uri Kernel.t;
  matching : gmap Uri (list Kernel.t);
  sourceActions : list SourceAction;
  executions : list StoredExecution;
  external : X
}.
Arguments selected {X} _.
Arguments matching {X} _.
Arguments sourceActions {X} _.
Arguments executions {X} _.
Arguments external {X} _.

(** What the surroundings do when called: the caller's iterables, the trust
    prompt, a source action, the kernel picker command and the kernels.  Each
    may change the state as it likes; the two kernel operations may reject. *)
Record Env (X : Type) := {
  on_iterateCells : nat -> World X -> list Cell.t * World X;
  on_iterateHandles : nat -> World X -> list Z * World X;
  on_requestWorkspaceTrust : string -> World X -> bool * World X;
  on_runAction : SourceAction -> World X -> World X;
  on_executeCommand : string -> World X -> World X;
  on_executeNotebookCellsRequest :
    Kernel.t -> Uri -> list Z -> World X -> Result unit * World X;
  on_cancelNotebookCellExecution :
    Kernel.t -> Uri -> list Z -> World X -> Result unit * World X
}.
Arguments on_iterateCells {X} _.
Arguments on_iterateHandles {X} _.
Arguments on_requestWorkspaceTrust {X} _.
Arguments on_runAction {X} _.
Arguments on_executeCommand {X} _.
Arguments on_executeNotebookCellsRequest {X} _.
Arguments on_cancelNotebookCellExecution {X} _.

Section Collaborators.
Context {X : Type}.
Implicit Types (w : World X) (exe : Exe.t).

Definition exeOf (i : nat) (se : StoredExecution) : Exe.t :=
  Exe.mk i (se_notebook se) (se_cellHandle se).

Definition isLiveFor (cu : CellUri.t) (se : StoredExecution) : bool :=
  bool_decide (se_notebook se = CellUri.notebook cu)
  && bool_decide (se_cellHandle se = CellUri.handle cu)
  && negb (bool_decide (se_state se = Completed)).

(** The first live record of a cell among [l], whose first index is [i]. *)
Fixpoint findLive (cu : CellUri.t) (i : nat) (l : list StoredExecution)
    : option Exe.t :=
  match l with
  | [] => None
  | se :: rest =>
      if isLiveFor cu se then Some (exeOf i se) else findLive cu (S i) rest
  end.

(** Modelled from the spec: [getCellExecution] of the execution state
    service, which is missing: the live (not completed) record of the cell,
    if there is one. *)
Definition getCellExecution w (cu : CellUri.t) : option Exe.t :=
  findLive cu 0%nat (executions w).

Definition setExecutions w (l : list StoredExecution) : World X :=
  {| selected := selected w; matching := matching w;
     sourceActions := sourceActions w; executions := l;
     external := external w |}.

(** Modelled from the spec: [createCellExecution] of the execution state
    service, which is missing: the registry tracks one record per
    (notebook, cell) pair, so the live record of the cell is returned when
    there is one, and a new Unconfirmed record is made otherwise. *)
Definition createCellExecution (controllerId : string) (notebook : Uri)
    (cellHandle : Z) w : Exe.t * World X :=
  match getCellExecution w (CellUri.mk notebook cellHandle) with
  | Some exe => (exe, w)
  | None =>
      (Exe.mk (length (executions w)) notebook cellHandle,
       setExecutions w
         (executions w ++
          [{| se_controllerId := controllerId; se_notebook := notebook;
              se_cellHandle := cellHandle; se_state := Unconfirmed;
              se_result := None |}]))
  end.

(** [exe.state]; an object the store no longer holds was completed and
    released. *)
Definition stateOf w exe : NotebookCellExecutionState :=
  match executions w !! Exe.ref exe with
  | Some se => se_state se
  | None => Completed
  end.

Definition completed (data : CompletionData) (se : StoredExecution)
    : StoredExecution :=
  {| se_controllerId := se_controllerId se; se_notebook := se_notebook se;
     se_cellHandle := se_cellHandle se; se_state := Completed;
     se_result := Some data |}.

(** Modelled from the spec: [complete] of an execution record, which is
    missing: the record becomes Completed and keeps the result. *)
Definition complete exe (data : CompletionData) w : World X :=
  setExecutions w (alter (completed data) (Exe.ref exe) (executions w)).

(** Modelled from the spec: [getSelectedOrSuggestedKernel] of the kernel
    service, which is missing: zero or one kernel per notebook. *)
Definition getSelectedOrSuggestedKernel w (notebook : Notebook.t)
    : option Kernel.t :=
  selected w !! Notebook.uri notebook.

(** Modelled from the spec: [getMatchingKernel] of the kernel service, which
    is missing: the candidate kernels of the notebook. *)
Definition getMatchingKernel w (notebook : Notebook.t)
    : INotebookKernelMatchResult :=
  {| all := default [] (matching w !! Notebook.uri notebook) |}.

(** Modelled from the spec: [selectKernelForNotebook] of the kernel service,
    which is missing: binds the kernel to the notebook as its selected
    kernel. *)
Definition selectKernelForNotebook (kernel : Kernel.t)
    (notebook : Notebook.t) w : World X :=
  {| selected := <[Notebook.uri notebook := kernel]> (selected w);
     matching := matching w; sourceActions := sourceActions w;
     executions := executions w; external := external w |}.

(** The handler the statements below run the service under. *)
Definition host (env : Env X) : Handler (World X) :=
  fun _ e w =>
    match e with
    | IterateCells src =>
        let '(cells, w') := on_iterateCells env src w in (Ok cells, w')
    | IterateHandles src =>
        let '(handles, w') := on_iterateHandles env src w in (Ok handles, w')
    | LogDebug _ _ => (Ok tt, w)
    | RequestWorkspaceTrust message =>
        let '(trust, w') := on_requestWorkspaceTrust env message w in
        (Ok trust, w')
    | GetSelectedOrSuggestedKernel notebook =>
        (Ok (getSelectedOrSuggestedKernel w notebook), w)
    | GetMatchingKernel notebook => (Ok (getMatchingKernel w notebook), w)
    | GetSourceActions => (Ok (sourceActions w), w)
    | SelectKernelForNotebook kernel notebook =>
        (Ok tt, selectKernelForNotebook kernel notebook w)
    | RunAction action => (Ok tt, on_runAction env action w)
    | ExecuteCommand id => (Ok tt, on_executeCommand env id w)
    | GetCellExecution cu => (Ok (getCellExecution w cu), w)
    | CreateCellExecution controllerId notebook cellHandle =>
        let '(exe, w') := createCellExecution controllerId notebook cellHandle w in
        (Ok exe, w')
    | ReadState exe => (Ok (stateOf w exe), w)
    | Complete exe data => (Ok tt, complete exe data w)
    | ExecuteNotebookCellsRequest kernel notebook handles =>
        on_executeNotebookCellsRequest env kernel notebook handles w
    | CancelNotebookCellExecution kernel notebook handles =>
        on_cancelNotebookCellExecution env kernel notebook handles w
    end.
End Collaborators.

Arguments getSelectedOrSuggestedKernel : simpl never.
Arguments getMatchingKernel : simpl never.
Arguments getCellExecution : simpl never.
Arguments createCellExecution : simpl never.
Arguments selectKernelForNotebook : simpl never.
Arguments complete : simpl never.
Arguments stateOf : simpl never.

(** ** The phases of [executeNotebookCells] *)

(** Lines 41-49: the kernel the request runs on, if any. *)
Definition resolveKernel (notebook : Notebook.t) : Prog (option Kernel.t) :=
  kernel <- trigger (GetSelectedOrSuggestedKernel notebook) ;;
  kernel <- match kernel with
            | None => resolveSourceActions notebook
            | Some _ => Ret kernel
            end ;;
  match kernel with
  | None =>
      trigger (ExecuteCommand SELECT_KERNEL_ID) ;;
      trigger (GetSelectedOrSuggestedKernel notebook)
  | Some _ => Ret kernel
  end.

(** Lines 73-77: the records left Unconfirmed are completed. *)
Definition reconcile (exes : list Exe.t) : Prog unit :=
  unconfirmed <- filterP isUnconfirmed exes ;;
  if (0 <? length unconfirmed)%nat then
    trigger (LogDebug
      "NotebookExecutionService#executeNotebookCells completing unconfirmed executions"
      (map Exe.cellHandle unconfirmed)) ;;
    forEachP (fun exe => trigger (Complete exe [])) unconfirmed
  else Ret tt.

(** Lines 67-78: the batch goes to the kernel. *)
Definition dispatch (notebook : Notebook.t) (kernel : Kernel.t)
    (executeCells : list Cell.t) : Prog unit :=
  if (0 <? length executeCells)%nat then
    trigger (SelectKernelForNotebook kernel notebook) ;;
    exes <- mapP (fun c => trigger (CreateCellExecution (Kernel.id kernel)
                             (Notebook.uri notebook) (Cell.handle c)))
              executeCells ;;
    trigger (ExecuteNotebookCellsRequest kernel (Notebook.uri notebook)
               (map Cell.handle executeCells)) ;;
    reconcile exes
  else Ret tt.

(** The method, phase by phase. *)
Definition executeNotebookCells_phased (notebook : Notebook.t)
    (cells : Iterable Cell.t) : Prog unit :=
  cellsArr <- arrayFrom IterateCells cells ;;
  trigger (LogDebug "NotebookExecutionService#executeNotebookCells"
             (map Cell.handle cellsArr)) ;;
  trust <- trigger (RequestWorkspaceTrust trustMessage) ;;
  if negb trust then Ret tt
  else
    kernel <- resolveKernel notebook ;;
    match kernel with
    | None => Ret tt
    | Some kernel =>
        executeCells <- collectExecutable kernel cellsArr [] ;;
        dispatch notebook kernel executeCells
    end.

(** ** What the trace shows *)

(** Calls that look for a kernel. *)
Definition resolvesKernel (ob : Obs) : bool :=
  match ob with
  | Observe e _ =>
      match e with
      | GetSelectedOrSuggestedKernel _ | GetMatchingKernel _ | GetSourceActions
      | RunAction _ | ExecuteCommand _ => true
      | _ => false
      end
  end.

(** Calls that discover kernels: everything [resolvesKernel] counts except
    reading the selected-or-suggested kernel. *)
Definition discoversKernel (ob : Obs) : bool :=
  match ob with
  | Observe e _ =>
      match e with
      | GetMatchingKernel _ | GetSourceActions | RunAction _
      | ExecuteCommand _ => true
      | _ => false
      end
  end.

Definition asksTrust (ob : Obs) : bool :=
  match ob with
  | Observe e _ => match e with RequestWorkspaceTrust _ => true | _ => false end
  end.

Definition createsRecord (ob : Obs) : bool :=
  match ob with
  | Observe e _ => match e with CreateCellExecution _ _ _ => true | _ => false end
  end.

Definition completesRecord (ob : Obs) : bool :=
  match ob with
  | Observe e _ => match e with Complete _ _ => true | _ => false end
  end.

Definition readsRecordState (ob : Obs) : bool :=
  match ob with
  | Observe e _ => match e with ReadState _ => true | _ => false end
  end.

Definition bindsKernel (ob : Obs) : bool :=
  match ob with
  | Observe e _ =>
      match e with SelectKernelForNotebook _ _ => true | _ => false end
  end.

(** Calls of an operation of a kernel. *)
Definition invokesKernel (ob : Obs) : bool :=
  match ob with
  | Observe e _ =>
      match e with
      | ExecuteNotebookCellsRequest _ _ _ | CancelNotebookCellExecution _ _ _ =>
          true
      | _ => false
      end
  end.

Definition materializes (ob : Obs) : bool :=
  match ob with
  | Observe e _ =>
      match e with IterateCells _ | IterateHandles _ => true | _ => false end
  end.

(** The batches handed to [executeNotebookCellsRequest], in order. *)
Fixpoint dispatched (t : list Obs) : list (Kernel.t * Uri * list Z) :=
  match t with
  | [] => []
  | Observe e _ :: rest =>
      match e with
      | ExecuteNotebookCellsRequest kernel notebook handles =>
          (kernel, notebook, handles) :: dispatched rest
      | _ => dispatched rest
      end
  end.

(** The batches handed to [cancelNotebookCellExecution], in order. *)
Fixpoint cancelled (t : list Obs) : list (Kernel.t * Uri * list Z) :=
  match t with
  | [] => []
  | Observe e _ :: rest =>
      match e with
      | CancelNotebookCellExecution kernel notebook handles =>
          (kernel, notebook, handles) :: cancelled rest
      | _ => cancelled rest
      end
  end.

(** The records [createCellExecution] returned, in order. *)
Fixpoint created (t : list Obs) : list Exe.t :=
  match t with
  | [] => []
  | Observe e r :: rest =>
      match e in Event T return Result T -> list Exe.t with
      | CreateCellExecution _ _ _ =>
          fun r => match r with Ok exe => exe :: created rest | Reject _ => created rest end
      | _ => fun _ => created rest
      end r
  end.

(** The records handed to [complete], with the result given, in order. *)
Fixpoint completedCalls (t : list Obs) : list (Exe.t * CompletionData) :=
  match t with
  | [] => []
  | Observe e _ :: rest =>
      match e with
      | Complete exe data => (exe, data) :: completedCalls rest
      | _ => completedCalls rest
      end
  end.

(** ** Pure counterparts of the loops, under [host] *)

Section Semantics.
Context {X : Type}.
Implicit Types (w : World X) (env : Env X) (exe : Exe.t).

(** [Array.from] on the argument: the array and the state it leaves. *)
Definition materializeCells env (cells : Iterable Cell.t) w
    : list Cell.t * World X :=
  match cells with
  | FromArray items => (items, w)
  | FromSource src => on_iterateCells env src w
  end.

Definition materializeHandles env (cells : Iterable Z) w
    : list Z * World X :=
  match cells with
  | FromArray items => (items, w)
  | FromSource src => on_iterateHandles env src w
  end.

(** The three conditions of the loop, at the state [w]. *)
Definition Eligible w (kernel : Kernel.t) (cell : Cell.t) : Prop :=
  Cell.cellKind cell = Code
  ∧ getCellExecution w (Cell.uri cell) = None
  ∧ Cell.language cell ∈ Kernel.supportedLanguages kernel.

#[global] Instance Eligible_dec w kernel cell : Decision (Eligible w kernel cell).
Proof. unfold Eligible. apply _. Defined.

(** [createCellExecution] for each handle in turn. *)
Fixpoint createAll (controllerId : string) (notebook : Uri)
    (handles : list Z) w : list Exe.t * World X :=
  match handles with
  | [] => ([], w)
  | h :: rest =>
      let '(exe, w') := createCellExecution controllerId notebook h w in
      let '(exes, w'') := createAll controllerId notebook rest w' in
      (exe :: exes, w'')
  end.

(** [complete] with an empty result for each record in turn. *)
Definition completeAll (exes : list Exe.t) w : World X :=
  foldl (fun w exe => complete exe [] w) w exes.

(** A record as [createCellExecution] makes it. *)
Definition isFresh (controllerId : string) (notebook : Uri)
    (se : StoredExecution) : Prop :=
  se_controllerId se = controllerId ∧ se_notebook se = notebook
  ∧ se_state se = Unconfirmed ∧ se_result se = None.

Definition UnconfirmedAt w exe : Prop := stateOf w exe = Unconfirmed.

#[global] Instance UnconfirmedAt_dec w exe : Decision (UnconfirmedAt w exe).
Proof. unfold UnconfirmedAt. apply _. Defined.
End Semantics.

(** ** Outcomes *)

(** An outcome with no dropped promise. *)
Definition settled {W R} (t : list Obs) (r : Result R) (w : W) : Outcome W R :=
  {| trace := t; dropped := []; result := r; world := w |}.

(** [o], then [f] on what [o] returned, if it returned. *)
Definition thenRun {W A B} (o : Outcome W A) (f : A -> W -> Outcome W B)
    : Outcome W B :=
  match result o with
  | Ok x => after (trace o) (dropped o) (f x (world o))
  | Reject err =>
      {| trace := trace o; dropped := dropped o; result := Reject err;
         world := world o |}
  end.

(** The calls of each loop, with the answers [host] gives at the state [w]. *)
Section Traces.
Context {X : Type}.
Implicit Types (w : World X) (env : Env X).

Definition materialization {A} (enumerate : nat -> Event (list A))
    (it : Iterable A) (items : list A) : list Obs :=
  match it with
  | FromArray _ => []
  | FromSource src => [Observe (enumerate src) (Ok items)]
  end.

Definition probes w (cellsArr : list Cell.t) : list Obs :=
  map (fun c => Observe (GetCellExecution (Cell.uri c))
                  (Ok (getCellExecution w (Cell.uri c)))) cellsArr.

Definition creations (controllerId : string) (notebook : Uri)
    (handles : list Z) (exes : list Exe.t) : list Obs :=
  zip_with (fun h exe => Observe (CreateCellExecution controllerId notebook h)
                           (Ok exe)) handles exes.

Definition stateReads w (exes : list Exe.t) : list Obs :=
  map (fun exe => Observe (ReadState exe) (Ok (stateOf w exe))) exes.

Definition completions (exes : list Exe.t) : list Obs :=
  map (fun exe => Observe (Complete exe []) (Ok tt)) exes.

(** The calls of lines 73-77 when they start at [w]. *)
Definition reconciliation w (exes : list Exe.t) : list Obs :=
  stateReads w exes ++
  match filter (UnconfirmedAt w) exes with
  | [] => []
  | unconfirmed =>
      Observe (LogDebug
        "NotebookExecutionService#executeNotebookCells completing unconfirmed executions"
        (map Exe.cellHandle unconfirmed)) (Ok tt)
      :: completions unconfirmed
  end.

(** The calls of lines 33-36. *)
Definition entry (cells : Iterable Cell.t) (cellsArr : list Cell.t)
    (trust : bool) : list Obs :=
  materialization IterateCells cells cellsArr ++
  [Observe (LogDebug "NotebookExecutionService#executeNotebookCells"
              (map Cell.handle cellsArr)) (Ok tt);
   Observe (RequestWorkspaceTrust trustMessage) (Ok trust)].

(** The calls of a trusted request up to line 65: the entry, the calls
    [steps] of the kernel resolution, the loop. *)
Definition upToDispatch (cells : Iterable Cell.t) (cellsArr : list Cell.t)
    (steps : list Obs) w : list Obs :=
  entry cells cellsArr true ++ steps ++ probes w cellsArr.
End Traces.

(** ** A request that gets to the loop *)

Section Requests.
Context {X : Type}.
Implicit Types (w : World X) (env : Env X).

(** The request is trusted and a kernel is found: [cellsArr] is the array
    made at entry, [kernel] the kernel lines 41-49 end with, [w2] the state
    when the loop of lines 55-65 starts. *)
Definition ResolvesTo env (notebook : Notebook.t) (cells : Iterable Cell.t)
    w (cellsArr : list Cell.t) (kernel : Kernel.t) w2 : Prop :=
  ∃ w0 w1,
    materializeCells env cells w = (cellsArr, w0)
    ∧ on_requestWorkspaceTrust env trustMessage w0 = (true, w1)
    ∧ result (exec (host env) (resolveKernel notebook) w1) = Ok (Some kernel)
    ∧ world (exec (host env) (resolveKernel notebook) w1) = w2.

(** The records of a batch and the state they are created in, from the
    state [w2] of the loop: the kernel is bound, then one
    [createCellExecution] per cell. *)
Definition openBatch (notebook : Notebook.t) (kernel : Kernel.t)
    (executeCells : list Cell.t) w2 : list Exe.t * World X :=
  createAll (Kernel.id kernel) (Notebook.uri notebook)
    (map Cell.handle executeCells)
    (selectKernelForNotebook kernel notebook w2).
End Requests.

(** ** A notebook to try the service on

    Cells [A] (code, py), [B] (markup) and [C] (code, js); a kernel for py and
    one for py and js.  The surroundings remember the caller's generators,
    each of which can be enumerated once. *)
Module Scenario.
Definition nb : Notebook.t := Notebook.mk "file:///book.ipynb".

Definition A : Cell.t := Cell.mk 1 (CellUri.mk (Notebook.uri nb) 1) Code "py".
Definition B : Cell.t :=
  Cell.mk 2 (CellUri.mk (Notebook.uri nb) 2) Markup "markdown".
Definition C : Cell.t := Cell.mk 3 (CellUri.mk (Notebook.uri nb) 3) Code "js".

Definition pyKernel : Kernel.t := Kernel.mk "py-kernel" ["py"].
Definition polyglot : Kernel.t := Kernel.mk "polyglot" ["py"; "js"].

Definition install : SourceAction := {| action_label := "Install kernels" |}.

Definition Generators := gmap nat (list Cell.t).

Definition select (kernel : Kernel.t) (w : World Generators)
    : World Generators :=
  selectKernelForNotebook kernel nb w.

(** A kernel confirming the execution of the cell [handle] of [nb]. *)
Definition confirm (handle : Z) (w : World Generators) : World Generators :=
  setExecutions w
    (map (λ se, if bool_decide (se_notebook se = Notebook.uri nb
                                ∧ se_cellHandle se = handle
                                ∧ se_state se = Unconfirmed)
                then {| se_controllerId := se_controllerId se;
                        se_notebook := se_notebook se;
                        se_cellHandle := se_cellHandle se;
                        se_state := Confirmed;
                        se_result := se_result se |}
                else se)
       (executions w)).

Definition drain (src : nat) (w : World Generators)
    : list Cell.t * World Generators :=
  (default [] (external w !! src),
   {| selected := selected w; matching := matching w;
      sourceActions := sourceActions w; executions := executions w;
      external := delete src (external w) |}).

Definition surroundings (trust : bool)
    (action picker : World Generators → World Generators)
    (run cancel : list Z → World Generators → Result unit * World Generators)
    : Env Generators :=
  {| on_iterateCells := drain;
     on_iterateHandles := λ src w,
       let '(cells, w') := drain src w in (map Cell.handle cells, w');
     on_requestWorkspaceTrust := λ _ w, (trust, w);
     on_runAction := λ _, action;
     on_executeCommand := λ _, picker;
     on_executeNotebookCellsRequest := λ _ _, run;
     on_cancelNotebookCellExecution := λ _ _, cancel |}.

Definition fine : list Z → World Generators → Result unit * World Generators :=
  λ _ w, (Ok tt, w).
Definition failing : list Z → World Generators → Result unit * World Generators :=
  λ _ w, (Reject "kernel died", w).
(** Confirms the first handle of the batch only. *)
Definition confirmsFirst
    : list Z → World Generators → Result unit * World Generators :=
  λ handles w, (Ok tt, match handles with h :: _ => confirm h w | [] => w end).
(** Confirms the first handle of the batch, then fails. *)
Definition confirmsFirstThenFails
    : list Z → World Generators → Result unit * World Generators :=
  λ handles w,
    (Reject "kernel died",
     match handles with h :: _ => confirm h w | [] => w end).

(** Nothing selected, no candidate, one source action, a generator [0] of
    the three cells. *)
Definition blank : World Generators :=
  {| selected := ∅; matching := ∅; sourceActions := [install];
     executions := []; external := {[ 0%nat := [A; B; C] ]} |}.

(** The py kernel is selected. *)
Definition ready : World Generators := select pyKernel blank.

(** The polyglot kernel is selected. *)
Definition readyAll : World Generators := select polyglot blank.

Definition declined : Env Generators := surroundings false id id fine fine.
Definition calm : Env Generators := surroundings true id id fine fine.
Definition installing : Env Generators :=
  surroundings true (select pyKernel) id fine fine.
Definition picking : Env Generators :=
  surroundings true id (select polyglot) confirmsFirst fine.
Definition partial : Env Generators :=
  surroundings true id id confirmsFirst fine.
Definition dying : Env Generators :=
  surroundings true id id confirmsFirstThenFails failing.
End Scenario.

(** ** What a method can call, and whether it waits for what it calls *)

(** [Uses P p]: every call [p] can make, whatever the answers, is in [P]. *)
Inductive Uses (P : Obs -> Prop) : forall R, Prog R -> Prop :=
| uses_ret {R} (r : R) : Uses P R (Ret r)
| uses_vis {Y R} (e : Event Y) (k : Y -> Prog R) :
    (forall r, P (Observe e r)) -> (forall y, Uses P R (k y)) ->
    Uses P R (Vis e k)
| uses_detach {R} (c : Prog unit) (k : Prog R) :
    Uses P unit c -> Uses P R k -> Uses P R (Detach c k).
Arguments Uses P {R} p.

(** [Sequential p]: [p] holds on to every promise it gets. *)
Inductive Sequential : forall R, Prog R -> Prop :=
| sequential_ret {R} (r : R) : Sequential R (Ret r)
| sequential_vis {Y R} (e : Event Y) (k : Y -> Prog R) :
    (forall y, Sequential R (k y)) -> Sequential R (Vis e k).
Arguments Sequential {R} p.

(** The call returned. *)
Definition answered (ob : Obs) : bool :=
  match ob with
  | Observe _ (Ok _) => true
  | Observe _ (Reject _) => false
  end.

Definition logs (ob : Obs) : bool :=
  match ob with
  | Observe e _ => match e with LogDebug _ _ => true | _ => false end
  end.

Definition probesRecord (ob : Obs) : bool :=
  match ob with
  | Observe e _ => match e with GetCellExecution _ => true | _ => false end
  end.

(** The kernels that were bound to a notebook, in order. *)
Fixpoint bound (t : list Obs) : list (Kernel.t * Notebook.t) :=
  match t with
  | [] => []
  | Observe e r :: rest =>
      match e with
      | SelectKernelForNotebook kernel notebook =>
          if answered (Observe e r) then (kernel, notebook) :: bound rest
          else bound rest
      | _ => bound rest
      end
  end.

(** The [createCellExecution] calls made: controller, notebook, handle. *)
Fixpoint requestedRecords (t : list Obs) : list (string * Uri * Z) :=
  match t with
  | [] => []
  | Observe e _ :: rest =>
      match e with
      | CreateCellExecution controllerId notebook cellHandle =>
          (controllerId, notebook, cellHandle) :: requestedRecords rest
      | _ => requestedRecords rest
      end
  end.

Definition picks (ob : Obs) : bool :=
  match ob with
  | Observe e _ => match e with ExecuteCommand _ => true | _ => false end
  end.

Definition runsAction (ob : Obs) : bool :=
  match ob with
  | Observe e _ => match e with RunAction _ => true | _ => false end
  end.

(** The answers to [getSelectedOrSuggestedKernel], in order. *)
Fixpoint kernelsRead (t : list Obs) : list (Result (option Kernel.t)) :=
  match t with
  | [] => []
  | Observe e r :: rest =>
      match e in Event T return Result T -> list (Result (option Kernel.t)) with
      | GetSelectedOrSuggestedKernel _ => fun r => r :: kernelsRead rest
      | _ => fun _ => kernelsRead rest
      end r
  end.

(** Lines 41-78: what a trusted request does with the array [cellsArr]. *)
Definition trusted (notebook : Notebook.t) (cellsArr : list Cell.t)
    : Prog unit :=
  kernel <- resolveKernel notebook ;;
  match kernel with
  | None => Ret tt
  | Some kernel =>
      executeCells <- collectExecutable kernel cellsArr [] ;;
      dispatch notebook kernel executeCells
  end.

(** The calls of lines 33-36 and of kernel resolution and the loop: none of
    them changes a record, binds or invokes a kernel. *)
Definition prepares (ob : Obs) : bool :=
  materializes ob || logs ob || asksTrust ob || resolvesKernel ob
  || probesRecord ob.

Definition cancels (ob : Obs) : bool :=
  match ob with
  | Observe e _ =>
      match e with CancelNotebookCellExecution _ _ _ => true | _ => false end
  end.

Definition executes (ob : Obs) : bool :=
  match ob with
  | Observe e _ =>
      match e with ExecuteNotebookCellsRequest _ _ _ => true | _ => false end
  end.

(** ** Running: general facts *)

Lemma after_nil {W R} (o : Outcome W R) : after [] [] o = o.
Proof. by destruct o. Qed.

Lemma after_after {W R} t1 d1 t2 d2 (o : Outcome W R) :
  after t1 d1 (after t2 d2 o) = after (t1 ++ t2) (d1 ++ d2) o.
Proof. unfold after; simpl. by rewrite !app_assoc. Qed.

Lemma after_settled {W R} t1 t2 (r : Result R) (w : W) :
  after t1 [] (settled t2 r w) = settled (t1 ++ t2) r w.
Proof. done. Qed.

Lemma exec_bind {W A B} (h : Handler W) (p : Prog A) (f : A -> Prog B) w :
  exec h (bind p f) w = thenRun (exec h p w) (fun x w' => exec h (f x) w').
Proof.
  revert w. induction p as [R r|Y R e k IH|R c _ k IH]; intros w; simpl.
  - unfold thenRun; simpl. by rewrite after_nil.
  - destruct (h Y e w) as [[x|err] w']; [|done].
    rewrite IH. unfold thenRun; simpl.
    by destruct (result (exec h (k x) w')).
  - rewrite IH. unfold thenRun; simpl.
    destruct (result (exec h k (world (exec h c w)))); [|done].
    by rewrite after_after.
Qed.

Lemma thenRun_settled {W A B} t (x : A) (w : W) (f : A -> W -> Outcome W B) :
  thenRun (settled t (Ok x) w) f = after t [] (f x w).
Proof. done. Qed.

Lemma exec_trigger {W Y} (h : Handler W) (e : Event Y) w :
  exec h (trigger e) w
  = match h Y e w with
    | (Ok x, w') => settled [Observe e (Ok x)] (Ok x) w'
    | (Reject err, w') => settled [Observe e (Reject err)] (Reject err) w'
    end.
Proof. simpl. by destruct (h Y e w) as [[x|err] w']. Qed.

(** The method is its phases, whatever the collaborators do. *)
Lemma executeNotebookCells_phases {W} (h : Handler W) notebook cells w :
  exec h (executeNotebookCells notebook cells) w
  = exec h (executeNotebookCells_phased notebook cells) w.
Proof.
  unfold executeNotebookCells, executeNotebookCells_phased, resolveKernel,
    resolveSourceActions.
  destruct cells as [items|src]; simpl;
    repeat first
      [ reflexivity
      | match goal with
        | |- context [h ?Y ?e ?w'] => destruct (h Y e w') as [[?|?] ?]; simpl
        | |- context [negb ?b] => is_var b; destruct b; simpl
        | |- context [match ?o with Some _ => _ | None => _ end] =>
            is_var o; destruct o; simpl
        | |- context [(length (all ?i) =? 0)%nat] =>
            destruct (length (all i) =? 0)%nat; simpl
        | |- context [match ?l with [] => _ | _ :: _ => _ end] =>
            is_var l; destruct l; simpl
        end ].
Qed.

(** ** The loops under [host] *)

Section Loops.
Context {X : Type} (env : Env X).
Implicit Types (w : World X) (exe : Exe.t).

Lemma exec_collectExecutable kernel cellsArr executeCells w :
  exec (host env) (collectExecutable kernel cellsArr executeCells) w
  = settled (probes w cellsArr)
      (Ok (executeCells ++ filter (Eligible w kernel) cellsArr)) w.
Proof.
  revert executeCells.
  induction cellsArr as [|cell rest IH]; intros executeCells; simpl.
  - by rewrite app_nil_r.
  - rewrite filter_cons.
    destruct (decide (Eligible w kernel cell)) as [HE|HE];
      unfold Eligible in HE;
      destruct (getCellExecution w (Cell.uri cell)) as [exe|] eqn:Hx;
      repeat case_bool_decide; simpl;
      rewrite ?IH, ?after_settled, <- ?app_assoc; simpl;
      try done; exfalso;
      first [ by destruct HE as (? & ? & ?)
            | by apply HE
            | match goal with H : is_Some None |- _ => by destruct H end
            | match goal with H : ¬ is_Some (Some _) |- _ => by apply H end ].
Qed.

Lemma exec_createAll controllerId notebook (cells : list Cell.t) w :
  exec (host env)
    (mapP (fun c => trigger (CreateCellExecution controllerId notebook
                               (Cell.handle c))) cells) w
  = let '(exes, w') :=
      createAll controllerId notebook (map Cell.handle cells) w in
    settled (creations controllerId notebook (map Cell.handle cells) exes)
      (Ok exes) w'.
Proof.
  revert w. induction cells as [|c rest IH]; intros w; simpl; [done|].
  destruct (createCellExecution controllerId notebook (Cell.handle c) w)
    as [exe w1]; simpl.
  rewrite exec_bind, IH.
  destruct (createAll controllerId notebook (map Cell.handle rest) w1)
    as [exes w2].
  unfold thenRun, after, settled; simpl. by rewrite app_nil_r.
Qed.

Lemma exec_filterUnconfirmed exes w :
  exec (host env) (filterP isUnconfirmed exes) w
  = settled (stateReads w exes) (Ok (filter (UnconfirmedAt w) exes)) w.
Proof.
  induction exes as [|exe rest IH]; simpl; [done|].
  rewrite exec_bind, IH, filter_cons.
  unfold thenRun, after, settled; simpl. rewrite app_nil_r.
  destruct (decide (UnconfirmedAt w exe)) as [Hu|Hu]; unfold UnconfirmedAt in Hu;
    by case_bool_decide.
Qed.

Lemma exec_completeAll exes w :
  exec (host env) (forEachP (fun exe => trigger (Complete exe [])) exes) w
  = settled (completions exes) (Ok tt) (completeAll exes w).
Proof.
  revert w. induction exes as [|exe rest IH]; intros w; simpl; [done|].
  by rewrite IH.
Qed.

Lemma exec_reconcile exes w :
  exec (host env) (reconcile exes) w
  = settled (reconciliation w exes) (Ok tt)
      (completeAll (filter (UnconfirmedAt w) exes) w).
Proof.
  unfold reconcile, reconciliation.
  rewrite exec_bind, exec_filterUnconfirmed, thenRun_settled.
  destruct (filter (UnconfirmedAt w) exes) as [|exe rest]; simpl.
  - unfold after, settled; simpl. by rewrite !app_nil_r.
  - rewrite (exec_completeAll rest). by rewrite !after_settled.
Qed.
End Loops.

(** ** The phases under [host] *)

Section Phases.
Context {X : Type} (env : Env X).
Implicit Types (w : World X) (exe : Exe.t).

Lemma exec_dispatch notebook kernel executeCells w exes wc r w3 :
  executeCells ≠ [] →
  createAll (Kernel.id kernel) (Notebook.uri notebook)
    (map Cell.handle executeCells)
    (selectKernelForNotebook kernel notebook w) = (exes, wc) →
  on_executeNotebookCellsRequest env kernel (Notebook.uri notebook)
    (map Cell.handle executeCells) wc = (r, w3) →
  exec (host env) (dispatch notebook kernel executeCells) w
  = after
      (Observe (SelectKernelForNotebook kernel notebook) (Ok tt)
       :: creations (Kernel.id kernel) (Notebook.uri notebook)
            (map Cell.handle executeCells) exes
       ++ [Observe (ExecuteNotebookCellsRequest kernel
                      (Notebook.uri notebook)
                      (map Cell.handle executeCells)) r]) []
      match r with
      | Ok _ =>
          settled (reconciliation w3 exes) (Ok tt)
            (completeAll (filter (UnconfirmedAt w3) exes) w3)
      | Reject err => settled [] (Reject err) w3
      end.
Proof.
  intros Hne Hcreate Hrun. unfold dispatch.
  destruct executeCells as [|c rest]; [done|].
  change (0 <? length (c :: rest))%nat with true. cbv iota.
  rewrite exec_bind, exec_trigger. cbn [host]. rewrite thenRun_settled.
  rewrite exec_bind, exec_createAll, Hcreate, thenRun_settled.
  rewrite exec_bind, exec_trigger. cbn [host]. rewrite Hrun.
  destruct r as [[]|err].
  - rewrite thenRun_settled, exec_reconcile, !after_settled.
    unfold after, settled; simpl. f_equal.
    by rewrite <- !app_assoc.
  - unfold thenRun, after, settled; simpl. f_equal.
    by rewrite !app_nil_r.
Qed.

Lemma exec_dispatch_nil notebook kernel w :
  exec (host env) (dispatch notebook kernel []) w = settled [] (Ok tt) w.
Proof. done. Qed.

(** Kernel resolution makes calls that look for a kernel, and no other; it
    returns. *)
Lemma exec_resolveKernel_settled notebook w :
  ∃ steps kernel w2,
    exec (host env) (resolveKernel notebook) w = settled steps (Ok kernel) w2
    ∧ Forall (λ ob, resolvesKernel ob = true) steps.
Proof.
  unfold resolveKernel, resolveSourceActions.
  cbn [exec bind trigger host].
  destruct (getSelectedOrSuggestedKernel w notebook) as [k|];
    cbn [exec bind trigger host].
  { eexists _, _, _. split; [reflexivity|]. by repeat constructor. }
  destruct (length (all (getMatchingKernel w notebook)) =? 0)%nat;
    cbn [exec bind trigger host].
  - destruct (sourceActions w) as [|a [|a' rest]];
      cbn [exec bind trigger host].
    + eexists _, _, _. split; [reflexivity|]. by repeat constructor.
    + destruct (getSelectedOrSuggestedKernel (on_runAction env a w) notebook);
        cbn [exec bind trigger host];
        eexists _, _, _; (split; [reflexivity|]); by repeat constructor.
    + eexists _, _, _. split; [reflexivity|]. by repeat constructor.
  - eexists _, _, _. split; [reflexivity|]. by repeat constructor.
Qed.

(** The method under [host], phase by phase. *)
Lemma exec_executeNotebookCells notebook cells w cellsArr w0 trust w1 :
  materializeCells env cells w = (cellsArr, w0) →
  on_requestWorkspaceTrust env trustMessage w0 = (trust, w1) →
  exec (host env) (executeNotebookCells notebook cells) w
  = after (entry cells cellsArr trust) []
      (if trust then
         thenRun (exec (host env) (resolveKernel notebook) w1)
           (λ kernel w2,
              match kernel with
              | None => settled [] (Ok tt) w2
              | Some k =>
                  after (probes w2 cellsArr) []
                    (exec (host env)
                       (dispatch notebook k
                          (filter (Eligible w2 k) cellsArr)) w2)
              end)
       else settled [] (Ok tt) w1).
Proof.
  intros Hmat Htrust. rewrite executeNotebookCells_phases.
  unfold executeNotebookCells_phased, entry.
  rewrite exec_bind.
  assert (Harr : exec (host env) (arrayFrom IterateCells cells) w
                 = settled (materialization IterateCells cells cellsArr)
                     (Ok cellsArr) w0).
  { destruct cells as [items|src]; simpl in *.
    - by inversion Hmat.
    - by rewrite Hmat. }
  rewrite Harr, thenRun_settled.
  rewrite exec_bind, exec_trigger. cbn [host]. rewrite thenRun_settled.
  rewrite exec_bind, exec_trigger. cbn [host]. rewrite Htrust, thenRun_settled.
  rewrite !after_after. simpl app. rewrite <- app_assoc. simpl app.
  f_equal. destruct trust; simpl negb; cbv iota; [|done].
  rewrite exec_bind.
  destruct (exec_resolveKernel_settled notebook w1)
    as (steps & kernel & w2 & -> & _).
  rewrite !thenRun_settled. f_equal.
  destruct kernel as [k|]; [|done].
  by rewrite exec_bind, exec_collectExecutable, thenRun_settled.
Qed.
End Phases.

(** ** The trust gate *)

(** C1.  When the trust request answers false, [executeNotebookCells] returns
    at once: the calls it made are the ones of its entry (the array, the log
    line, the trust request), its promise fulfils, the state is the one the
    trust request left, and no call looks for a kernel, creates an execution
    record or invokes a kernel. *)
Theorem executeNotebookCells_trust_declined {X} (env : Env X) notebook cells
    (w : World X) cellsArr w0 w1 :
  materializeCells env cells w = (cellsArr, w0) →
  on_requestWorkspaceTrust env trustMessage w0 = (false, w1) →
  let o := exec (host env) (executeNotebookCells notebook cells) w in
  o = settled (entry cells cellsArr false) (Ok tt) w1
  ∧ Forall (λ ob, resolvesKernel ob = false
                  ∧ createsRecord ob = false
                  ∧ completesRecord ob = false
                  ∧ bindsKernel ob = false
                  ∧ invokesKernel ob = false) (trace o).
Proof.
  intros Hmat Htrust o. subst o.
  rewrite (exec_executeNotebookCells env _ _ _ _ _ _ _ Hmat Htrust).
  rewrite after_settled, app_nil_r. split; [done|].
  unfold entry; simpl. destruct cells; simpl; by repeat constructor.
Qed.

Lemma executeNotebookCells_trust_declined_witness :
  let o := exec (host Scenario.declined)
             (executeNotebookCells Scenario.nb (FromSource 0%nat))
             Scenario.blank in
  o = settled (entry (FromSource 0%nat) [Scenario.A; Scenario.B; Scenario.C] false)
        (Ok tt) (snd (Scenario.drain 0%nat Scenario.blank))
  ∧ Forall (λ ob, resolvesKernel ob = false
                  ∧ createsRecord ob = false
                  ∧ completesRecord ob = false
                  ∧ bindsKernel ob = false
                  ∧ invokesKernel ob = false) (trace o).
Proof.
  apply (executeNotebookCells_trust_declined Scenario.declined Scenario.nb
           (FromSource 0%nat) Scenario.blank
           [Scenario.A; Scenario.B; Scenario.C]
           (snd (Scenario.drain 0%nat Scenario.blank))
           (snd (Scenario.drain 0%nat Scenario.blank)));
    reflexivity.
Defined.

(** ** Kernel resolution *)

(** C2.  Once trusted, [executeNotebookCells] resolves the kernel in this
    order and stops at the first step that yields one: (1) the kernel already
    selected or suggested; (2) otherwise, when the matching-kernel query finds
    no candidate and there is exactly one source action, that action is run
    and the selected-or-suggested kernel is read again (with a candidate, or
    with zero or several source actions, no action is run); (3) otherwise the
    kernel picker command is run and the selected-or-suggested kernel is read
    again.  [steps] are the calls made for this, [kernel] what they end with
    and [w2] the state they leave.  Without a kernel the method returns with
    no further call and its promise fulfils; with one it goes on to the loop
    and the dispatch with that kernel. *)
Theorem executeNotebookCells_kernel_resolution {X} (env : Env X) notebook cells
    (w : World X) cellsArr w0 w1 :
  materializeCells env cells w = (cellsArr, w0) →
  on_requestWorkspaceTrust env trustMessage w0 = (true, w1) →
  ∃ (steps : list Obs) (kernel : option Kernel.t) (w2 : World X),
    exec (host env) (executeNotebookCells notebook cells) w
    = after (entry cells cellsArr true ++ steps) []
        match kernel with
        | None => settled [] (Ok tt) w2
        | Some k =>
            exec (host env)
              (executeCells <- collectExecutable k cellsArr [] ;;
               dispatch notebook k executeCells) w2
        end
    ∧ let reread w' :=
        Observe (GetSelectedOrSuggestedKernel notebook)
          (Ok (getSelectedOrSuggestedKernel w' notebook)) in
      let query :=
        Observe (GetMatchingKernel notebook) (Ok (getMatchingKernel w1 notebook)) in
      let actions := Observe GetSourceActions (Ok (sourceActions w1)) in
      let pick := Observe (ExecuteCommand SELECT_KERNEL_ID) (Ok tt) in
      match getSelectedOrSuggestedKernel w1 notebook with
      | Some k => steps = [reread w1] ∧ kernel = Some k ∧ w2 = w1
      | None =>
          match all (getMatchingKernel w1 notebook), sourceActions w1 with
          | [], [action] =>
              let wa := on_runAction env action w1 in
              match getSelectedOrSuggestedKernel wa notebook with
              | Some k =>
                  steps = [reread w1; query; actions;
                           Observe (RunAction action) (Ok tt); reread wa]
                  ∧ kernel = Some k ∧ w2 = wa
              | None =>
                  let wp := on_executeCommand env SELECT_KERNEL_ID wa in
                  steps = [reread w1; query; actions;
                           Observe (RunAction action) (Ok tt); reread wa;
                           pick; reread wp]
                  ∧ kernel = getSelectedOrSuggestedKernel wp notebook
                  ∧ w2 = wp
              end
          | [], _ =>
              let wp := on_executeCommand env SELECT_KERNEL_ID w1 in
              steps = [reread w1; query; actions; pick; reread wp]
              ∧ kernel = getSelectedOrSuggestedKernel wp notebook
              ∧ w2 = wp
          | _ :: _, _ =>
              let wp := on_executeCommand env SELECT_KERNEL_ID w1 in
              steps = [reread w1; query; pick; reread wp]
              ∧ kernel = getSelectedOrSuggestedKernel wp notebook
              ∧ w2 = wp
          end
      end.
Proof.
  intros Hmat Htrust.
  rewrite (exec_executeNotebookCells env _ _ _ _ _ _ _ Hmat Htrust).
  assert (Hgo : ∀ steps kernel w2,
    exec (host env) (resolveKernel notebook) w1 = settled steps (Ok kernel) w2 →
    after (entry cells cellsArr true) []
      (thenRun (exec (host env) (resolveKernel notebook) w1)
         (λ kernel w2,
            match kernel with
            | None => settled [] (Ok tt) w2
            | Some k =>
                after (probes w2 cellsArr) []
                  (exec (host env)
                     (dispatch notebook k (filter (Eligible w2 k) cellsArr)) w2)
            end))
    = after (entry cells cellsArr true ++ steps) []
        match kernel with
        | None => settled [] (Ok tt) w2
        | Some k =>
            exec (host env)
              (executeCells <- collectExecutable k cellsArr [] ;;
               dispatch notebook k executeCells) w2
        end).
  { intros steps kernel w2 ->. rewrite thenRun_settled, after_after.
    rewrite app_nil_r. f_equal. destruct kernel as [k|]; [|done].
    by rewrite exec_bind, exec_collectExecutable, thenRun_settled. }
  unfold resolveKernel, resolveSourceActions in *.
  cbn [exec bind trigger host] in *.
  destruct (getSelectedOrSuggestedKernel w1 notebook) as [k|];
    cbn [exec bind trigger host] in *.
  { eexists _, _, _. split; [by apply Hgo|done]. }
  destruct (all (getMatchingKernel w1 notebook)) as [|m ms];
    cbn [length Nat.eqb exec bind trigger host] in *.
  - destruct (sourceActions w1) as [|a [|a' rest]];
      cbn [exec bind trigger host] in *.
    + eexists _, _, _. split; [by apply Hgo|done].
    + destruct (getSelectedOrSuggestedKernel (on_runAction env a w1) notebook)
        as [k|] eqn:Hsel; cbn [exec bind trigger host] in *.
      * eexists _, _, _. split; [by apply Hgo|done].
      * eexists _, _, _. split; [by apply Hgo|done].
    + eexists _, _, _. split; [by apply Hgo|done].
  - eexists _, _, _. split; [by apply Hgo|done].
Qed.

Lemma executeNotebookCells_kernel_resolution_witness :
  materializeCells Scenario.installing
    (FromArray [Scenario.A; Scenario.B; Scenario.C]) Scenario.blank
  = ([Scenario.A; Scenario.B; Scenario.C], Scenario.blank)
  ∧ on_requestWorkspaceTrust Scenario.installing trustMessage Scenario.blank
    = (true, Scenario.blank)
  ∧ ∃ steps w2,
      exec (host Scenario.installing)
        (executeNotebookCells Scenario.nb
           (FromArray [Scenario.A; Scenario.B; Scenario.C])) Scenario.blank
      = after (entry (FromArray [Scenario.A; Scenario.B; Scenario.C])
                 [Scenario.A; Scenario.B; Scenario.C] true ++ steps) []
          (exec (host Scenario.installing)
             (executeCells <- collectExecutable Scenario.pyKernel
                                [Scenario.A; Scenario.B; Scenario.C] [] ;;
              dispatch Scenario.nb Scenario.pyKernel executeCells) w2)
      ∧ length steps = 5%nat
      ∧ w2 = Scenario.ready.
Proof.
  split; [reflexivity|]. split; [reflexivity|].
  destruct (executeNotebookCells_kernel_resolution Scenario.installing
              Scenario.nb (FromArray [Scenario.A; Scenario.B; Scenario.C])
              Scenario.blank [Scenario.A; Scenario.B; Scenario.C]
              Scenario.blank Scenario.blank eq_refl eq_refl)
    as (steps & kernel & w2 & Hrun & Hord).
  vm_compute in Hord. destruct Hord as (Hsteps & Hkernel & Hw2).
  exists steps, w2. rewrite Hkernel in Hrun. split; [exact Hrun|].
  split; [by rewrite Hsteps | by rewrite Hw2].
Defined.

(** ** Reading a trace *)

Lemma dispatched_app t1 t2 : dispatched (t1 ++ t2) = dispatched t1 ++ dispatched t2.
Proof.
  induction t1 as [|[Y e r] t1 IH]; [done|]. simpl.
  destruct e; simpl; by rewrite ?IH.
Qed.

Lemma created_app t1 t2 : created (t1 ++ t2) = created t1 ++ created t2.
Proof.
  induction t1 as [|[Y e r] t1 IH]; [done|]. simpl.
  destruct e; simpl; rewrite ?IH; try done. by destruct r.
Qed.

Lemma dispatched_none t :
  Forall (λ ob, invokesKernel ob = false) t → dispatched t = [].
Proof.
  induction 1 as [|[Y e r] t Hob _ IH]; [done|]. simpl.
  by destruct e.
Qed.

Lemma created_none t :
  Forall (λ ob, createsRecord ob = false) t → created t = [].
Proof.
  induction 1 as [|[Y e r] t Hob _ IH]; [done|]. simpl.
  by destruct e.
Qed.

Section TraceParts.
Context {X : Type}.
Implicit Types (w : World X) (P : Obs → Prop).

Lemma Forall_materialization {A} P (enumerate : nat → Event (list A))
    it items :
  (∀ src, P (Observe (enumerate src) (Ok items))) →
  Forall P (materialization enumerate it items).
Proof. intros HP. destruct it; simpl; by repeat constructor. Qed.

Lemma Forall_entry P cells cellsArr trust :
  (∀ src, P (Observe (IterateCells src) (Ok cellsArr))) →
  (∀ text handles, P (Observe (LogDebug text handles) (Ok tt))) →
  P (Observe (RequestWorkspaceTrust trustMessage) (Ok trust)) →
  Forall P (entry cells cellsArr trust).
Proof.
  intros Hit Hlog Htrust. unfold entry. apply Forall_app. split.
  - by apply Forall_materialization.
  - by repeat constructor.
Qed.

Lemma Forall_probes P w cellsArr :
  (∀ cu r, P (Observe (GetCellExecution cu) (Ok r))) →
  Forall P (probes w cellsArr).
Proof. intros HP. unfold probes. apply Forall_map, Forall_true. intros c. apply HP. Qed.

Lemma Forall_creations P controllerId notebook handles exes :
  (∀ h exe, P (Observe (CreateCellExecution controllerId notebook h) (Ok exe))) →
  Forall P (creations controllerId notebook handles exes).
Proof.
  intros HP. unfold creations. revert exes.
  induction handles as [|h rest IH]; intros [|exe exes]; simpl;
    by repeat constructor.
Qed.

Lemma Forall_stateReads P w exes :
  (∀ exe st, P (Observe (ReadState exe) (Ok st))) →
  Forall P (stateReads w exes).
Proof. intros HP. unfold stateReads. apply Forall_map, Forall_true. intros c. apply HP. Qed.

Lemma Forall_completions P exes :
  (∀ exe, P (Observe (Complete exe []) (Ok tt))) →
  Forall P (completions exes).
Proof. intros HP. unfold completions. apply Forall_map, Forall_true. intros c. apply HP. Qed.

Lemma Forall_reconciliation P w exes :
  (∀ exe st, P (Observe (ReadState exe) (Ok st))) →
  (∀ text handles, P (Observe (LogDebug text handles) (Ok tt))) →
  (∀ exe, P (Observe (Complete exe []) (Ok tt))) →
  Forall P (reconciliation w exes).
Proof.
  intros Hread Hlog Hdone. unfold reconciliation. apply Forall_app. split.
  - by apply Forall_stateReads.
  - destruct (filter (UnconfirmedAt w) exes) as [|exe rest]; [done|].
    constructor; [apply Hlog|]. by apply Forall_completions.
Qed.

Lemma created_creations controllerId notebook handles exes :
  length exes = length handles →
  created (creations controllerId notebook handles exes) = exes.
Proof.
  unfold creations. revert exes.
  induction handles as [|h rest IH]; intros [|exe exes] Hlen; simpl in *;
    try done.
  f_equal. apply IH. lia.
Qed.

Lemma createAll_length controllerId notebook handles w :
  length (createAll controllerId notebook handles w).1 = length handles.
Proof.
  revert w. induction handles as [|h rest IH]; intros w; simpl; [done|].
  destruct (createCellExecution controllerId notebook h w) as [exe w1].
  specialize (IH w1).
  destruct (createAll controllerId notebook rest w1) as [exes w2].
  simpl in *. by rewrite IH.
Qed.
End TraceParts.

(** ** A request that gets to the loop *)

Section Resolved.
Context {X : Type} (env : Env X).
Implicit Types (w : World X) (exe : Exe.t).

Lemma resolution_is_quiet steps :
  Forall (λ ob, resolvesKernel ob = true) steps →
  Forall (λ ob, materializes ob = false ∧ asksTrust ob = false
                ∧ bindsKernel ob = false ∧ createsRecord ob = false
                ∧ readsRecordState ob = false ∧ completesRecord ob = false
                ∧ invokesKernel ob = false) steps.
Proof.
  intros Hsteps. eapply Forall_impl; [exact Hsteps|].
  intros [Y e r] Hob. by destruct e.
Qed.

Lemma exec_resolved notebook cells w cellsArr kernel w2 :
  ResolvesTo env notebook cells w cellsArr kernel w2 →
  ∃ steps,
    Forall (λ ob, resolvesKernel ob = true) steps
    ∧ exec (host env) (executeNotebookCells notebook cells) w
      = after (entry cells cellsArr true ++ steps ++ probes w2 cellsArr) []
          (exec (host env)
             (dispatch notebook kernel
                (filter (Eligible w2 kernel) cellsArr)) w2).
Proof.
  intros (w0 & w1 & Hmat & Htrust & Hres & Hw2).
  rewrite (exec_executeNotebookCells env _ _ _ _ _ _ _ Hmat Htrust).
  destruct (exec_resolveKernel_settled env notebook w1)
    as (steps & ko & w2' & Hrun & Hsteps).
  rewrite Hrun in *. simpl in Hres, Hw2. inversion Hres; subst ko w2'.
  exists steps. split; [done|].
  by rewrite thenRun_settled, !after_after, !app_nil_r, <- !app_assoc.
Qed.

Lemma upToDispatch_quiet cells cellsArr steps w2 :
  Forall (λ ob, resolvesKernel ob = true) steps →
  Forall (λ ob, bindsKernel ob = false ∧ createsRecord ob = false
                ∧ readsRecordState ob = false ∧ completesRecord ob = false
                ∧ invokesKernel ob = false)
    (upToDispatch cells cellsArr steps w2).
Proof.
  intros Hsteps. unfold upToDispatch.
  apply Forall_app; split; [|apply Forall_app; split].
  - by apply Forall_entry.
  - eapply Forall_impl; [by apply resolution_is_quiet|]. 
    intros ob (? & ? & ? & ? & ? & ? & ?); by repeat split.
  - by apply Forall_probes.
Qed.

Lemma exec_empty_batch notebook cells w cellsArr kernel w2 :
  ResolvesTo env notebook cells w cellsArr kernel w2 →
  filter (Eligible w2 kernel) cellsArr = [] →
  ∃ steps,
    Forall (λ ob, resolvesKernel ob = true) steps
    ∧ exec (host env) (executeNotebookCells notebook cells) w
      = settled (upToDispatch cells cellsArr steps w2) (Ok tt) w2.
Proof.
  intros Hres Hnil.
  destruct (exec_resolved _ _ _ _ _ _ Hres) as (steps & Hsteps & Hrun).
  exists steps. split; [done|].
  rewrite Hrun, Hnil, exec_dispatch_nil, after_settled.
  by rewrite !app_nil_r.
Qed.

Lemma exec_batch notebook cells w cellsArr kernel w2 exes wc r w3 :
  ResolvesTo env notebook cells w cellsArr kernel w2 →
  filter (Eligible w2 kernel) cellsArr ≠ [] →
  openBatch notebook kernel (filter (Eligible w2 kernel) cellsArr) w2
  = (exes, wc) →
  on_executeNotebookCellsRequest env kernel (Notebook.uri notebook)
    (map Cell.handle (filter (Eligible w2 kernel) cellsArr)) wc = (r, w3) →
  ∃ steps,
    Forall (λ ob, resolvesKernel ob = true) steps
    ∧ exec (host env) (executeNotebookCells notebook cells) w
      = after
          (upToDispatch cells cellsArr steps w2
           ++ Observe (SelectKernelForNotebook kernel notebook) (Ok tt)
              :: creations (Kernel.id kernel) (Notebook.uri notebook)
                   (map Cell.handle (filter (Eligible w2 kernel) cellsArr))
                   exes
           ++ [Observe (ExecuteNotebookCellsRequest kernel
                          (Notebook.uri notebook)
                          (map Cell.handle
                             (filter (Eligible w2 kernel) cellsArr))) r]) []
          match r with
          | Ok _ =>
              settled (reconciliation w3 exes) (Ok tt)
                (completeAll (filter (UnconfirmedAt w3) exes) w3)
          | Reject err => settled [] (Reject err) w3
          end.
Proof.
  intros Hres Hne Hopen Hexec.
  destruct (exec_resolved _ _ _ _ _ _ Hres) as (steps & Hsteps & Hrun).
  exists steps. split; [done|].
  rewrite Hrun, (exec_dispatch env _ _ _ _ _ _ _ _ Hne Hopen Hexec).
  rewrite after_after, app_nil_r. unfold upToDispatch.
  by rewrite <- !app_assoc.
Qed.

(** At most one batch goes to a kernel, and it is the eligible cells. *)
Lemma dispatched_resolved notebook cells w cellsArr kernel w2 :
  ResolvesTo env notebook cells w cellsArr kernel w2 →
  dispatched (trace (exec (host env) (executeNotebookCells notebook cells) w))
  = match filter (Eligible w2 kernel) cellsArr with
    | [] => []
    | executeCells =>
        [(kernel, Notebook.uri notebook, map Cell.handle executeCells)]
    end.
Proof.
  intros Hres.
  destruct (filter (Eligible w2 kernel) cellsArr) as [|c ec] eqn:Hec.
  - destruct (exec_empty_batch _ _ _ _ _ _ Hres Hec) as (steps & Hsteps & ->).
    simpl. apply dispatched_none.
    eapply Forall_impl; [by apply upToDispatch_quiet|].
      intros ob (? & ? & ? & ? & ?); by repeat split.
  - destruct (openBatch notebook kernel (c :: ec) w2) as [exes wc] eqn:Hopen.
    destruct (on_executeNotebookCellsRequest env kernel
                (Notebook.uri notebook) (map Cell.handle (c :: ec)) wc)
      as [r w3] eqn:Hexec.
    rewrite <- Hec in Hopen, Hexec.
    destruct (exec_batch _ _ _ _ _ _ _ _ _ _ Hres ltac:(by rewrite Hec)
                Hopen Hexec) as (steps & Hsteps & ->).
    rewrite Hec. cbn [trace after]. rewrite !dispatched_app.
    rewrite (dispatched_none (upToDispatch _ _ _ _)).
    2:{ eapply Forall_impl; [by apply upToDispatch_quiet|].
        intros ob (? & ? & ? & ? & ?); by repeat split. }
    cbn [dispatched app]. rewrite dispatched_app.
    rewrite (dispatched_none (creations _ _ _ _)).
    2:{ by apply Forall_creations. }
    cbn [dispatched app]. f_equal.
    destruct r as [[]|err]; cbn [trace settled]; [|done].
    apply dispatched_none. by apply Forall_reconciliation.
Qed.
End Resolved.

(** ** The batch *)

Lemma elem_of_map {A B} (f : A → B) (l : list A) (y : B) :
  y ∈ map f l ↔ ∃ x, f x = y ∧ x ∈ l.
Proof.
  rewrite list_elem_of_In, in_map_iff.
  split; intros (x & Hx & Hin); exists x; (split; [done|]);
    by apply list_elem_of_In.
Qed.

Lemma sublist_map_filter {A B} (f : A → B) (P : A → Prop)
    `{!∀ x, Decision (P x)} (l : list A) :
  map f (filter P l) `sublist_of` map f l.
Proof.
  induction l as [|x l IH]; simpl; [constructor|].
  rewrite filter_cons. destruct (decide (P x)); simpl; by constructor.
Qed.

(** C3.  When [executeNotebookCells] hands a batch to a kernel, the kernel is
    the resolved one, the notebook is the one of the request, and the handles
    are exactly those of the requested cells that are code cells, have no live
    execution record in the state the loop runs in, and have a language the
    kernel supports; a requested cell failing one of the three conditions is
    not in the batch (handles identifying the requested cells). *)
Theorem executeNotebookCells_dispatches_eligible_cells {X} (env : Env X)
    notebook cells (w : World X) cellsArr kernel w2 :
  ResolvesTo env notebook cells w cellsArr kernel w2 →
  let o := exec (host env) (executeNotebookCells notebook cells) w in
  ∀ kernel' notebook' handles,
    (kernel', notebook', handles) ∈ dispatched (trace o) →
    kernel' = kernel
    ∧ notebook' = Notebook.uri notebook
    ∧ (∀ h, h ∈ handles ↔
            ∃ cell, cell ∈ cellsArr ∧ Cell.handle cell = h
                    ∧ Cell.cellKind cell = Code
                    ∧ getCellExecution w2 (Cell.uri cell) = None
                    ∧ Cell.language cell ∈ Kernel.supportedLanguages kernel)
    ∧ (∀ cell, cell ∈ cellsArr →
         Cell.cellKind cell ≠ Code
         ∨ is_Some (getCellExecution w2 (Cell.uri cell))
         ∨ Cell.language cell ∉ Kernel.supportedLanguages kernel →
         (∀ cell', cell' ∈ cellsArr →
            Cell.handle cell' = Cell.handle cell → cell' = cell) →
         Cell.handle cell ∉ handles).
Proof.
  intros Hres o kernel' notebook' handles Hin. subst o.
  rewrite (dispatched_resolved env _ _ _ _ _ _ Hres) in Hin.
  assert (Hbatch : (kernel', notebook', handles)
                   = (kernel, Notebook.uri notebook,
                      map Cell.handle (filter (Eligible w2 kernel) cellsArr))).
  { destruct (filter (Eligible w2 kernel) cellsArr) as [|c ec].
    - by apply elem_of_nil in Hin.
    - by apply list_elem_of_singleton in Hin. }
  inversion Hbatch; subst kernel' notebook' handles. clear Hbatch Hin.
  split; [done|]. split; [done|]. split.
  - intros h. rewrite elem_of_map. split.
    + intros (cell & Hh & Hcell). apply list_elem_of_filter in Hcell.
      destruct Hcell as ((Hk & Hx & Hl) & Hcell). by exists cell.
    + intros (cell & Hcell & Hh & Hk & Hx & Hl). exists cell.
      split; [done|]. by apply list_elem_of_filter.
  - intros cell Hcell Hfails Hid. rewrite elem_of_map.
    intros (cell' & Hh & Hcell'). apply list_elem_of_filter in Hcell'.
    destruct Hcell' as ((Hk & Hx & Hl) & Hcell').
    rewrite (Hid cell' Hcell' Hh) in *.
    destruct Hfails as [Hf|[Hf|Hf]]; [done| |done].
    rewrite Hx in Hf. by destruct Hf.
Qed.

Lemma executeNotebookCells_dispatches_eligible_cells_witness :
  ResolvesTo Scenario.calm Scenario.nb
    (FromArray [Scenario.A; Scenario.B; Scenario.C]) Scenario.ready
    [Scenario.A; Scenario.B; Scenario.C] Scenario.pyKernel Scenario.ready
  ∧ (Scenario.pyKernel, Notebook.uri Scenario.nb, [1%Z])
    ∈ dispatched (trace (exec (host Scenario.calm)
        (executeNotebookCells Scenario.nb
           (FromArray [Scenario.A; Scenario.B; Scenario.C])) Scenario.ready))
  ∧ (Cell.handle Scenario.B ∉ [1%Z])
  ∧ (Cell.handle Scenario.C ∉ [1%Z]).
Proof.
  assert (Hres : ResolvesTo Scenario.calm Scenario.nb
            (FromArray [Scenario.A; Scenario.B; Scenario.C]) Scenario.ready
            [Scenario.A; Scenario.B; Scenario.C] Scenario.pyKernel
            Scenario.ready).
  { exists Scenario.ready, Scenario.ready. by repeat split. }
  assert (Hin : (Scenario.pyKernel, Notebook.uri Scenario.nb, [1%Z])
    ∈ dispatched (trace (exec (host Scenario.calm)
        (executeNotebookCells Scenario.nb
           (FromArray [Scenario.A; Scenario.B; Scenario.C])) Scenario.ready))).
  { vm_compute. constructor. }
  split; [exact Hres|]. split; [exact Hin|].
  destruct (executeNotebookCells_dispatches_eligible_cells Scenario.calm
              Scenario.nb (FromArray [Scenario.A; Scenario.B; Scenario.C])
              Scenario.ready [Scenario.A; Scenario.B; Scenario.C]
              Scenario.pyKernel Scenario.ready Hres
              Scenario.pyKernel (Notebook.uri Scenario.nb) [1%Z] Hin)
    as (_ & _ & _ & Hout).
  split.
  - apply (Hout Scenario.B).
    + apply list_elem_of_In. vm_compute. tauto.
    + left. discriminate.
    + intros cell' Hcell' Hh. apply list_elem_of_In in Hcell'.
      destruct Hcell' as [<-|[<-|[<-|[]]]]; first [done | discriminate Hh].
  - apply (Hout Scenario.C).
    + apply list_elem_of_In. vm_compute. tauto.
    + right. right. vm_compute. intros Hin'. apply list_elem_of_In in Hin'.
      destruct Hin' as [Heq|[]]. discriminate Heq.
    + intros cell' Hcell' Hh. apply list_elem_of_In in Hcell'.
      destruct Hcell' as [<-|[<-|[<-|[]]]]; first [done | discriminate Hh].
Defined.

(** C4.  When no requested cell is eligible, the method stops after the loop:
    its promise fulfils, the state is the one the loop ran in (the kernel is
    not bound to the notebook, no execution record is created or completed),
    and no kernel is invoked. *)
Theorem executeNotebookCells_empty_batch {X} (env : Env X) notebook cells
    (w : World X) cellsArr kernel w2 :
  ResolvesTo env notebook cells w cellsArr kernel w2 →
  filter (Eligible w2 kernel) cellsArr = [] →
  let o := exec (host env) (executeNotebookCells notebook cells) w in
  result o = Ok tt
  ∧ dropped o = []
  ∧ world o = w2
  ∧ Forall (λ ob, invokesKernel ob = false
                  ∧ createsRecord ob = false
                  ∧ completesRecord ob = false
                  ∧ bindsKernel ob = false) (trace o).
Proof.
  intros Hres Hnil o. subst o.
  destruct (exec_empty_batch env _ _ _ _ _ _ Hres Hnil) as (steps & Hsteps & ->).
  repeat split. simpl.
  eapply Forall_impl; [by apply upToDispatch_quiet|].
  intros ob (? & ? & ? & ? & ?); by repeat split.
Qed.

Lemma executeNotebookCells_empty_batch_witness :
  ResolvesTo Scenario.calm Scenario.nb
    (FromArray [Scenario.B; Scenario.C]) Scenario.ready
    [Scenario.B; Scenario.C] Scenario.pyKernel Scenario.ready
  ∧ filter (Eligible Scenario.ready Scenario.pyKernel)
      [Scenario.B; Scenario.C] = []
  ∧ world (exec (host Scenario.calm)
             (executeNotebookCells Scenario.nb
                (FromArray [Scenario.B; Scenario.C])) Scenario.ready)
    = Scenario.ready.
Proof.
  assert (Hres : ResolvesTo Scenario.calm Scenario.nb
            (FromArray [Scenario.B; Scenario.C]) Scenario.ready
            [Scenario.B; Scenario.C] Scenario.pyKernel Scenario.ready).
  { exists Scenario.ready, Scenario.ready. by repeat split. }
  assert (Hnil : filter (Eligible Scenario.ready Scenario.pyKernel)
                   [Scenario.B; Scenario.C] = []).
  { by vm_compute. }
  split; [exact Hres|]. split; [exact Hnil|].
  apply (executeNotebookCells_empty_batch Scenario.calm Scenario.nb
           (FromArray [Scenario.B; Scenario.C]) Scenario.ready
           [Scenario.B; Scenario.C] Scenario.pyKernel Scenario.ready
           Hres Hnil).
Defined.

(** ** The store of execution records *)

Lemma completedCalls_app t1 t2 :
  completedCalls (t1 ++ t2) = completedCalls t1 ++ completedCalls t2.
Proof.
  induction t1 as [|[Y e r] t1 IH]; [done|]. simpl.
  destruct e; simpl; by rewrite ?IH.
Qed.

Lemma completedCalls_none t :
  Forall (λ ob, completesRecord ob = false) t → completedCalls t = [].
Proof.
  induction 1 as [|[Y e r] t Hob _ IH]; [done|]. simpl.
  by destruct e.
Qed.

Section Store.
Context {X : Type}.
Implicit Types (w : World X) (exe : Exe.t).

Lemma completedCalls_reconciliation w exes :
  completedCalls (reconciliation w exes)
  = map (λ exe, (exe, [])) (filter (UnconfirmedAt w) exes).
Proof.
  unfold reconciliation. rewrite completedCalls_app.
  rewrite (completedCalls_none (stateReads w exes))
    by by apply Forall_stateReads.
  destruct (filter (UnconfirmedAt w) exes) as [|exe rest]; [done|].
  cbn [app completedCalls completions map]. f_equal.
  induction rest as [|exe' rest IH]; [done|]. simpl. by rewrite <- IH.
Qed.

Lemma completed_idemp data se :
  completed data (completed data se) = completed data se.
Proof. done. Qed.

Lemma executions_complete exe data w i :
  executions (complete exe data w) !! i
  = if decide (Exe.ref exe = i) then completed data <$> executions w !! i
    else executions w !! i.
Proof.
  unfold complete; simpl. rewrite list_lookup_alter.
  by case_decide; subst.
Qed.

(** After [completeAll], the records named are completed with an empty
    result and the others are as they were. *)
Lemma executions_completeAll exes w i :
  executions (completeAll exes w) !! i
  = if decide (i ∈ map Exe.ref exes)
    then completed [] <$> executions w !! i
    else executions w !! i.
Proof.
  revert w. induction exes as [|exe rest IH]; intros w; cbn [map].
  { rewrite decide_False; [done|]. apply not_elem_of_nil. }
  unfold completeAll in *. cbn [foldl]. rewrite IH, executions_complete.
  destruct (decide (Exe.ref exe = i)) as [<-|Hne].
  - rewrite (decide_True (P := Exe.ref exe ∈ Exe.ref exe :: map Exe.ref rest))
      by left.
    case_decide; [|done].
    by destruct (executions w !! Exe.ref exe).
  - case_decide as Hin.
    + by rewrite decide_True by by right.
    + rewrite decide_False; [done|].
      intros Hin'. apply elem_of_cons in Hin'. by destruct Hin' as [->|?].
Qed.

Lemma stateOf_unconfirmed w exe :
  stateOf w exe = Unconfirmed →
  ∃ se, executions w !! Exe.ref exe = Some se ∧ se_state se = Unconfirmed.
Proof.
  unfold stateOf. destruct (executions w !! Exe.ref exe) as [se|]; [|done].
  by exists se.
Qed.

Lemma stateOf_ref w exe exe' :
  Exe.ref exe = Exe.ref exe' → stateOf w exe = stateOf w exe'.
Proof. unfold stateOf. by intros ->. Qed.

(** What the reconciliation leaves of a batch [exes], started at [w3]. *)
Lemma reconciled exes w3 exe :
  exe ∈ exes →
  let w4 := completeAll (filter (UnconfirmedAt w3) exes) w3 in
  stateOf w4 exe ≠ Unconfirmed
  ∧ (stateOf w3 exe = Unconfirmed →
       ∃ se, executions w3 !! Exe.ref exe = Some se
             ∧ executions w4 !! Exe.ref exe = Some (completed [] se))
  ∧ (stateOf w3 exe ≠ Unconfirmed →
       executions w4 !! Exe.ref exe = executions w3 !! Exe.ref exe).
Proof.
  intros Hin w4.
  assert (Hyes : stateOf w3 exe = Unconfirmed →
            ∃ se, executions w3 !! Exe.ref exe = Some se
                  ∧ executions w4 !! Exe.ref exe = Some (completed [] se)).
  { intros Hun. destruct (stateOf_unconfirmed _ _ Hun) as (se & Hse & _).
    exists se. split; [done|]. subst w4.
    rewrite executions_completeAll, decide_True, Hse; [done|].
    apply elem_of_map. exists exe. split; [done|].
    by apply list_elem_of_filter. }
  assert (Hno : stateOf w3 exe ≠ Unconfirmed →
            executions w4 !! Exe.ref exe = executions w3 !! Exe.ref exe).
  { intros Hcon. subst w4.
    rewrite executions_completeAll, decide_False; [done|].
    intros Href. apply elem_of_map in Href.
    destruct Href as (exe' & Href & Hin').
    apply list_elem_of_filter in Hin'. destruct Hin' as (Hun & _).
    apply Hcon. by rewrite <- (stateOf_ref w3 exe' exe Href). }
  split; [|by split].
  destruct (decide (stateOf w3 exe = Unconfirmed)) as [Hun|Hcon].
  - destruct (Hyes Hun) as (se & _ & Hse). unfold stateOf. by rewrite Hse.
  - unfold stateOf in *. by rewrite (Hno Hcon).
Qed.
End Store.

(** ** Creating the records of a batch *)

Section Creation.
Context {X : Type}.
Implicit Types (w : World X) (exe : Exe.t) (cu : CellUri.t).

Lemma findLive_app cu i l l' :
  findLive cu i (l ++ l')
  = match findLive cu i l with
    | Some exe => Some exe
    | None => findLive cu (i + length l) l'
    end.
Proof.
  revert i. induction l as [|se l IH]; intros i; simpl.
  - by rewrite Nat.add_0_r.
  - destruct (isLiveFor cu se); [done|].
    rewrite IH. by rewrite Nat.add_succ_r.
Qed.

Lemma findLive_Some cu i l exe :
  findLive cu i l = Some exe →
  ∃ j se, l !! j = Some se ∧ isLiveFor cu se = true ∧ exe = exeOf (i + j) se.
Proof.
  revert i. induction l as [|se l IH]; intros i Hfind; simpl in *; [done|].
  destruct (isLiveFor cu se) eqn:Hlive.
  - inversion Hfind. exists 0%nat, se. by rewrite Nat.add_0_r.
  - destruct (IH _ Hfind) as (j & se' & Hj & Hlive' & ->).
    exists (S j), se'. by rewrite Nat.add_succ_r.
Qed.

(** A live record stays the record of its cell when the store grows. *)
Lemma getCellExecution_grows w w' cu exe news :
  executions w' = executions w ++ news →
  getCellExecution w cu = Some exe →
  getCellExecution w' cu = Some exe.
Proof.
  unfold getCellExecution. intros -> Hfind. by rewrite findLive_app, Hfind.
Qed.

(** A cell without a live record gets its record among the new ones. *)
Lemma getCellExecution_new w w' cu exe news :
  executions w' = executions w ++ news →
  getCellExecution w cu = None →
  getCellExecution w' cu = Some exe →
  ∃ se, se ∈ news ∧ executions w' !! Exe.ref exe = Some se.
Proof.
  unfold getCellExecution. intros Hgrow Hnone Hfind.
  rewrite Hgrow, findLive_app, Hnone in Hfind.
  destruct (findLive_Some _ _ _ _ Hfind) as (j & se & Hj & _ & ->).
  exists se. split; [by eapply list_elem_of_lookup_2|].
  rewrite Hgrow. simpl. by rewrite lookup_app_r, Nat.add_comm, Nat.add_sub by lia.
Qed.

Lemma createCellExecution_spec controllerId notebook h w exe w' :
  createCellExecution controllerId notebook h w = (exe, w') →
  ∃ news,
    executions w' = executions w ++ news
    ∧ Forall (isFresh controllerId notebook) news
    ∧ getCellExecution w' (CellUri.mk notebook h) = Some exe.
Proof.
  unfold createCellExecution.
  destruct (getCellExecution w (CellUri.mk notebook h)) as [exe'|] eqn:Hget;
    intros Hcreate; inversion Hcreate; subst; clear Hcreate.
  - exists []. by rewrite app_nil_r.
  - eexists [_]. split; [done|]. split; [by repeat constructor|].
    unfold getCellExecution in *. simpl executions.
    rewrite findLive_app, Hget. simpl.
    unfold isLiveFor; simpl. by rewrite !bool_decide_eq_true_2.
Qed.

(** [createAll] only adds records, all of them Unconfirmed records of the
    controller; in the state it leaves, every handle has its record. *)
Lemma createAll_spec controllerId notebook handles w exes wc :
  createAll controllerId notebook handles w = (exes, wc) →
  ∃ news,
    executions wc = executions w ++ news
    ∧ Forall (isFresh controllerId notebook) news
    ∧ Forall2 (λ h exe,
                 getCellExecution wc (CellUri.mk notebook h) = Some exe)
        handles exes.
Proof.
  revert w exes wc.
  induction handles as [|h rest IH]; intros w exes wc Hall; simpl in Hall.
  { inversion Hall; subst. exists []. by rewrite app_nil_r. }
  destruct (createCellExecution controllerId notebook h w) as [exe w1]
    eqn:Hone.
  destruct (createAll controllerId notebook rest w1) as [exes' w2] eqn:Hrest.
  inversion Hall; subst; clear Hall.
  destruct (createCellExecution_spec _ _ _ _ _ _ Hone)
    as (news1 & Hgrow1 & Hfresh1 & Hget1).
  destruct (IH _ _ _ Hrest) as (news2 & Hgrow2 & Hfresh2 & Hget2).
  exists (news1 ++ news2). split; [|split].
  - by rewrite Hgrow2, Hgrow1, app_assoc.
  - by apply Forall_app.
  - constructor; [|done]. by eapply getCellExecution_grows.
Qed.
End Creation.

(** ** Every run *)

(** A run either makes no call on a record or a kernel and fulfils, or is a
    trusted request with a kernel and a batch. *)
Lemma executeNotebookCells_runs {X} (env : Env X) notebook cells (w : World X)
    cellsArr w0 :
  materializeCells env cells w = (cellsArr, w0) →
  let o := exec (host env) (executeNotebookCells notebook cells) w in
  (∃ rest w',
     o = settled (materialization IterateCells cells cellsArr ++ rest) (Ok tt) w'
     ∧ Forall (λ ob, materializes ob = false ∧ bindsKernel ob = false
                     ∧ createsRecord ob = false ∧ readsRecordState ob = false
                     ∧ completesRecord ob = false ∧ invokesKernel ob = false)
         rest)
  ∨ (∃ kernel w2 exes wc r w3,
       ResolvesTo env notebook cells w cellsArr kernel w2
       ∧ filter (Eligible w2 kernel) cellsArr ≠ []
       ∧ openBatch notebook kernel (filter (Eligible w2 kernel) cellsArr) w2
         = (exes, wc)
       ∧ on_executeNotebookCellsRequest env kernel (Notebook.uri notebook)
           (map Cell.handle (filter (Eligible w2 kernel) cellsArr)) wc
         = (r, w3)).
Proof.
  intros Hmat o. subst o.
  destruct (on_requestWorkspaceTrust env trustMessage w0) as [trust w1]
    eqn:Htrust.
  pose proof (exec_executeNotebookCells env notebook _ _ _ _ _ _ Hmat Htrust)
    as Hrun.
  destruct trust.
  - destruct (exec_resolveKernel_settled env notebook w1)
      as (steps & ko & w2 & Hres & Hsteps).
    destruct ko as [kernel|].
    + assert (Hto : ResolvesTo env notebook cells w cellsArr kernel w2).
      { exists w0, w1. by rewrite Hres. }
      destruct (filter (Eligible w2 kernel) cellsArr) as [|c ec] eqn:Hec.
      * left. destruct (exec_empty_batch env _ _ _ _ _ _ Hto Hec)
          as (steps' & Hsteps' & ->).
        eexists _, w2. unfold upToDispatch, entry.
        rewrite <- !app_assoc. split; [reflexivity|].
        apply Forall_app; split; [by repeat constructor|].
        apply Forall_app; split; [|by apply Forall_probes].
        eapply Forall_impl; [by apply resolution_is_quiet|].
        intros ob (? & ? & ? & ? & ? & ? & ?); by repeat split.
      * right.
        destruct (openBatch notebook kernel (c :: ec) w2) as [exes wc]
          eqn:Hopen.
        destruct (on_executeNotebookCellsRequest env kernel
                    (Notebook.uri notebook) (map Cell.handle (c :: ec)) wc)
          as [r w3] eqn:Hexec.
        exists kernel, w2, exes, wc, r, w3. by rewrite Hec.
    + left. rewrite Hrun, Hres, thenRun_settled, !after_settled.
      eexists _, w2. unfold entry. rewrite <- !app_assoc.
      split; [reflexivity|].
      apply Forall_app; split; [by repeat constructor|].
      apply Forall_app; split; [|done].
      eapply Forall_impl; [by apply resolution_is_quiet|].
      intros ob (? & ? & ? & ? & ? & ? & ?); by repeat split.
  - left. rewrite Hrun, after_settled.
    eexists _, w1. unfold entry. rewrite <- !app_assoc.
    split; [reflexivity|]. by repeat constructor.
Qed.

(** C10.  The argument is made an array once, first thing: the run starts
    with the enumeration of the caller's iterable (no call at all for an
    array) and never enumerates again.  The handles that go to the kernel are
    those of the eligible cells of that array, in the order of the array: the
    array filtered, then mapped to handles. *)
Theorem executeNotebookCells_keeps_input_order {X} (env : Env X) notebook cells
    (w : World X) cellsArr w0 :
  materializeCells env cells w = (cellsArr, w0) →
  let o := exec (host env) (executeNotebookCells notebook cells) w in
  (∃ rest,
     trace o = materialization IterateCells cells cellsArr ++ rest
     ∧ Forall (λ ob, materializes ob = false) rest)
  ∧ (∀ kernel w2,
       ResolvesTo env notebook cells w cellsArr kernel w2 →
       dispatched (trace o)
       = match filter (Eligible w2 kernel) cellsArr with
         | [] => []
         | executeCells =>
             [(kernel, Notebook.uri notebook, map Cell.handle executeCells)]
         end)
  ∧ (∀ kernel notebook' handles,
       (kernel, notebook', handles) ∈ dispatched (trace o) →
       handles `sublist_of` map Cell.handle cellsArr).
Proof.
  intros Hmat o. subst o.
  split; [|split].
  - destruct (executeNotebookCells_runs env notebook _ _ _ _ Hmat)
      as [(rest & w' & -> & Hrest)
         |(kernel & w2 & exes & wc & r & w3 & Hto & Hne & Hopen & Hexec)].
    + exists rest. split; [done|].
      eapply Forall_impl; [exact Hrest|]. by intros ob (? & _).
    + destruct (exec_batch env _ _ _ _ _ _ _ _ _ _ Hto Hne Hopen Hexec)
        as (steps & Hsteps & ->).
      cbn [trace after]. unfold upToDispatch, entry.
      rewrite <- !app_assoc. eexists. split; [reflexivity|].
      apply Forall_app; split; [by repeat constructor|].
      apply Forall_app; split.
      { eapply Forall_impl; [by apply resolution_is_quiet|].
        by intros ob (? & _). }
      apply Forall_app; split; [by apply Forall_probes|].
      cbn [app]. constructor; [done|].
      apply Forall_app; split.
      { apply Forall_app; split; [by apply Forall_creations|].
        by repeat constructor. }
      destruct r as [[]|err]; cbn [trace settled]; [|done].
      by apply Forall_reconciliation.
  - intros kernel w2 Hto. by apply dispatched_resolved.
  - intros kernel notebook' handles Hin.
    destruct (executeNotebookCells_runs env notebook _ _ _ _ Hmat)
      as [(rest & w' & Hrun & Hrest)
         |(kernel' & w2 & exes & wc & r & w3 & Hto & Hne & Hopen & Hexec)].
    + rewrite Hrun in Hin. cbn [trace settled] in Hin.
      rewrite dispatched_app in Hin.
      rewrite (dispatched_none (materialization _ _ _)) in Hin
        by by apply Forall_materialization.
      rewrite (dispatched_none rest) in Hin.
      * by apply elem_of_nil in Hin.
      * eapply Forall_impl; [exact Hrest|]. by intros ob (_ & _ & _ & _ & _ & ?).
    + rewrite (dispatched_resolved env _ _ _ _ _ _ Hto) in Hin.
      assert (handles
              = map Cell.handle (filter (Eligible w2 kernel') cellsArr))
        as ->.
      { destruct (filter (Eligible w2 kernel') cellsArr) as [|c ec].
        - by apply elem_of_nil in Hin.
        - apply list_elem_of_singleton in Hin. by inversion Hin. }
      apply sublist_map_filter.
Qed.

Lemma executeNotebookCells_keeps_input_order_witness :
  materializeCells Scenario.calm (FromSource 0%nat) Scenario.readyAll
  = ([Scenario.A; Scenario.B; Scenario.C],
     snd (Scenario.drain 0%nat Scenario.readyAll))
  ∧ ResolvesTo Scenario.calm Scenario.nb (FromSource 0%nat) Scenario.readyAll
      [Scenario.A; Scenario.B; Scenario.C] Scenario.polyglot
      (snd (Scenario.drain 0%nat Scenario.readyAll))
  ∧ dispatched (trace (exec (host Scenario.calm)
        (executeNotebookCells Scenario.nb (FromSource 0%nat))
        Scenario.readyAll))
    = [(Scenario.polyglot, Notebook.uri Scenario.nb, [1%Z; 3%Z])].
Proof.
  assert (Hmat : materializeCells Scenario.calm (FromSource 0%nat)
                   Scenario.readyAll
                 = ([Scenario.A; Scenario.B; Scenario.C],
                    snd (Scenario.drain 0%nat Scenario.readyAll))).
  { reflexivity. }
  assert (Hto : ResolvesTo Scenario.calm Scenario.nb (FromSource 0%nat)
                  Scenario.readyAll [Scenario.A; Scenario.B; Scenario.C]
                  Scenario.polyglot
                  (snd (Scenario.drain 0%nat Scenario.readyAll))).
  { eexists _, _. by repeat split. }
  split; [exact Hmat|]. split; [exact Hto|].
  destruct (executeNotebookCells_keeps_input_order Scenario.calm Scenario.nb
              (FromSource 0%nat) Scenario.readyAll
              [Scenario.A; Scenario.B; Scenario.C]
              (snd (Scenario.drain 0%nat Scenario.readyAll)) Hmat)
    as (_ & Hbatch & _).
  exact (Hbatch _ _ Hto).
Defined.

(** ** Records, dispatch, reconciliation *)

(** C5, as stated, fails when the execute call settles by rejecting: both
    cells are eligible, their two records are created, the kernel confirms
    the first and then rejects; the rejected call is the last call of the
    run, no record state is read, no record is completed, and the record of
    the second cell stays Unconfirmed. *)
Lemma executeNotebookCells_no_reconciliation_when_rejected :
  let cells := FromArray [Scenario.A; Scenario.C] in
  let o := exec (host Scenario.dying)
             (executeNotebookCells Scenario.nb cells) Scenario.readyAll in
  ResolvesTo Scenario.dying Scenario.nb cells Scenario.readyAll
    [Scenario.A; Scenario.C] Scenario.polyglot Scenario.readyAll
  ∧ filter (Eligible Scenario.readyAll Scenario.polyglot)
      [Scenario.A; Scenario.C] = [Scenario.A; Scenario.C]
  ∧ created (trace o)
    = [Exe.mk 0 (Notebook.uri Scenario.nb) 1;
       Exe.mk 1 (Notebook.uri Scenario.nb) 3]
  ∧ last (trace o)
    = Some (Observe (ExecuteNotebookCellsRequest Scenario.polyglot
                       (Notebook.uri Scenario.nb) [1%Z; 3%Z])
              (Reject "kernel died"))
  ∧ Forall (λ ob, readsRecordState ob = false ∧ completesRecord ob = false)
      (trace o)
  ∧ stateOf (world o) (Exe.mk 1 (Notebook.uri Scenario.nb) 3) = Unconfirmed.
Proof.
  cbv zeta. split.
  { exists Scenario.readyAll, Scenario.readyAll. by repeat split. }
  split; [by vm_compute|]. split; [by vm_compute|]. split; [by vm_compute|].
  split; [|by vm_compute].
  vm_compute. by repeat constructor.
Qed.

(** C5, amended.  With a non-empty batch, the run is: calls that create no
    record and invoke no kernel; then one [createCellExecution] per eligible
    cell, in order, each with the id of the resolved kernel; then the execute
    call; and, when that call fulfils, the reconciliation in the state the
    kernel left: the state of every record of the batch is read, and the
    records found Unconfirmed are completed, however many the kernel
    confirmed.  In the state [wc] the execute call is made in, every handle
    of the batch has its live record; when the requested cells are cells of
    the notebook, each record of the batch is an Unconfirmed record of the
    resolved kernel. *)
Theorem executeNotebookCells_records_then_dispatch_then_reconciliation {X}
    (env : Env X) notebook cells (w : World X) cellsArr kernel w2 exes wc r w3 :
  ResolvesTo env notebook cells w cellsArr kernel w2 →
  filter (Eligible w2 kernel) cellsArr ≠ [] →
  openBatch notebook kernel (filter (Eligible w2 kernel) cellsArr) w2
  = (exes, wc) →
  on_executeNotebookCellsRequest env kernel (Notebook.uri notebook)
    (map Cell.handle (filter (Eligible w2 kernel) cellsArr)) wc = (r, w3) →
  let o := exec (host env) (executeNotebookCells notebook cells) w in
  let handles := map Cell.handle (filter (Eligible w2 kernel) cellsArr) in
  ∃ before afterwards,
    trace o
    = before
      ++ creations (Kernel.id kernel) (Notebook.uri notebook) handles exes
      ++ [Observe (ExecuteNotebookCellsRequest kernel (Notebook.uri notebook)
                     handles) r]
      ++ afterwards
    ∧ length exes = length handles
    ∧ Forall (λ ob, createsRecord ob = false ∧ invokesKernel ob = false
                    ∧ readsRecordState ob = false ∧ completesRecord ob = false)
        before
    ∧ (r = Ok tt → afterwards = reconciliation w3 exes)
    ∧ Forall2 (λ h exe,
                 getCellExecution wc (CellUri.mk (Notebook.uri notebook) h)
                 = Some exe) handles exes
    ∧ ((∀ cell, cell ∈ cellsArr →
          Cell.uri cell
          = CellUri.mk (Notebook.uri notebook) (Cell.handle cell)) →
       ∀ exe, exe ∈ exes →
         ∃ se, executions wc !! Exe.ref exe = Some se
               ∧ se_controllerId se = Kernel.id kernel
               ∧ se_state se = Unconfirmed).
Proof.
  intros Hto Hne Hopen Hexec o handles. subst o handles.
  destruct (createAll_spec _ _ _ _ _ _ Hopen) as (news & Hgrow & Hfresh & Hget).
  destruct (exec_batch env _ _ _ _ _ _ _ _ _ _ Hto Hne Hopen Hexec)
    as (steps & Hsteps & ->).
  exists (upToDispatch cells cellsArr steps w2
          ++ [Observe (SelectKernelForNotebook kernel notebook) (Ok tt)]).
  exists (match r with Ok _ => reconciliation w3 exes | Reject _ => [] end).
  split; [|split; [|split; [|split; [|split]]]].
  - cbn [trace after]. rewrite <- !app_assoc. cbn [app].
    rewrite <- !app_assoc. cbn [app]. by destruct r as [[]|err].
  - pose proof (createAll_length (Kernel.id kernel) (Notebook.uri notebook)
                  (map Cell.handle (filter (Eligible w2 kernel) cellsArr))
                  (selectKernelForNotebook kernel notebook w2)) as Hlen.
    unfold openBatch in Hopen. by rewrite Hopen in Hlen.
  - apply Forall_app; split; [|by repeat constructor].
    eapply Forall_impl; [by apply upToDispatch_quiet|].
    intros ob (? & ? & ? & ? & ?); by repeat split.
  - by intros ->.
  - exact Hget.
  - intros Hwf exe Hin.
    apply list_elem_of_lookup in Hin. destruct Hin as (i & Hi).
    destruct (Forall2_lookup_r _ _ _ _ _ Hget Hi) as (h & Hh & Hexe).
    apply list_elem_of_lookup_2, elem_of_map in Hh.
    destruct Hh as (cell & <- & Hcell).
    apply list_elem_of_filter in Hcell.
    destruct Hcell as ((_ & Hnone & _) & Hcell).
    rewrite (Hwf cell Hcell) in Hnone.
    destruct (getCellExecution_new
                (selectKernelForNotebook kernel notebook w2) wc _ exe news
                Hgrow Hnone Hexe) as (se & Hse & Hat).
    exists se. split; [done|].
    rewrite Forall_forall in Hfresh.
    by destruct (Hfresh se Hse) as (? & _ & ? & _).
Qed.

Lemma executeNotebookCells_records_then_dispatch_then_reconciliation_witness :
  let cells := FromArray [Scenario.A; Scenario.C] in
  let batch := openBatch Scenario.nb Scenario.polyglot
                 (filter (Eligible Scenario.readyAll Scenario.polyglot)
                    [Scenario.A; Scenario.C]) Scenario.readyAll in
  let w3 := Scenario.confirm 1 batch.2 in
  ResolvesTo Scenario.partial Scenario.nb cells Scenario.readyAll
    [Scenario.A; Scenario.C] Scenario.polyglot Scenario.readyAll
  ∧ filter (Eligible Scenario.readyAll Scenario.polyglot)
      [Scenario.A; Scenario.C] ≠ []
  ∧ ∃ before afterwards,
      trace (exec (host Scenario.partial)
               (executeNotebookCells Scenario.nb cells) Scenario.readyAll)
      = before
        ++ creations (Kernel.id Scenario.polyglot) (Notebook.uri Scenario.nb)
             [1%Z; 3%Z] batch.1
        ++ [Observe (ExecuteNotebookCellsRequest Scenario.polyglot
                       (Notebook.uri Scenario.nb) [1%Z; 3%Z]) (Ok tt)]
        ++ afterwards
      ∧ afterwards = reconciliation w3 batch.1.
Proof.
  cbv zeta.
  assert (Hto : ResolvesTo Scenario.partial Scenario.nb
            (FromArray [Scenario.A; Scenario.C]) Scenario.readyAll
            [Scenario.A; Scenario.C] Scenario.polyglot Scenario.readyAll).
  { exists Scenario.readyAll, Scenario.readyAll. by repeat split. }
  assert (Hne : filter (Eligible Scenario.readyAll Scenario.polyglot)
                  [Scenario.A; Scenario.C] ≠ []).
  { by vm_compute. }
  split; [exact Hto|]. split; [exact Hne|].
  destruct (executeNotebookCells_records_then_dispatch_then_reconciliation
              Scenario.partial Scenario.nb (FromArray [Scenario.A; Scenario.C])
              Scenario.readyAll [Scenario.A; Scenario.C] Scenario.polyglot
              Scenario.readyAll _ _ (Ok tt) _ Hto Hne
              (surjective_pairing _) eq_refl)
    as (before & afterwards & Htrace & _ & _ & Hafter & _).
  exists before, afterwards. split; [exact Htrace|]. by apply Hafter.
Defined.

(** C6.  When [executeNotebookCells] returns, no record created during the
    call is Unconfirmed.  With a batch, in the state [w3] that the kernel's
    execute call returned in: the records handed to [complete], each with an
    empty result, are the records of the batch found Unconfirmed at [w3]; each
    of them ends up Completed with the empty result; a record the kernel
    confirmed or completed is in the store as the kernel left it. *)
Theorem executeNotebookCells_reconciles_unconfirmed {X} (env : Env X) notebook
    cells (w : World X) :
  let o := exec (host env) (executeNotebookCells notebook cells) w in
  (∀ ok exe, result o = Ok ok → exe ∈ created (trace o) →
             stateOf (world o) exe ≠ Unconfirmed)
  ∧ (∀ cellsArr kernel w2 exes wc w3,
       ResolvesTo env notebook cells w cellsArr kernel w2 →
       filter (Eligible w2 kernel) cellsArr ≠ [] →
       openBatch notebook kernel (filter (Eligible w2 kernel) cellsArr) w2
       = (exes, wc) →
       on_executeNotebookCellsRequest env kernel (Notebook.uri notebook)
         (map Cell.handle (filter (Eligible w2 kernel) cellsArr)) wc
       = (Ok tt, w3) →
       result o = Ok tt
       ∧ created (trace o) = exes
       ∧ completedCalls (trace o)
         = map (λ exe, (exe, [])) (filter (UnconfirmedAt w3) exes)
       ∧ ∀ exe, exe ∈ exes →
           (stateOf w3 exe = Unconfirmed →
              stateOf (world o) exe = Completed
              ∧ ∃ se, executions w3 !! Exe.ref exe = Some se
                      ∧ executions (world o) !! Exe.ref exe
                        = Some (completed [] se))
           ∧ (stateOf w3 exe ≠ Unconfirmed →
                executions (world o) !! Exe.ref exe
                = executions w3 !! Exe.ref exe)).
Proof.
  intros o.
  assert (Hbatch : ∀ cellsArr kernel w2 exes wc w3,
    ResolvesTo env notebook cells w cellsArr kernel w2 →
    filter (Eligible w2 kernel) cellsArr ≠ [] →
    openBatch notebook kernel (filter (Eligible w2 kernel) cellsArr) w2
    = (exes, wc) →
    on_executeNotebookCellsRequest env kernel (Notebook.uri notebook)
      (map Cell.handle (filter (Eligible w2 kernel) cellsArr)) wc
    = (Ok tt, w3) →
    result o = Ok tt
    ∧ created (trace o) = exes
    ∧ completedCalls (trace o)
      = map (λ exe, (exe, [])) (filter (UnconfirmedAt w3) exes)
    ∧ world o = completeAll (filter (UnconfirmedAt w3) exes) w3).
  { intros cellsArr kernel w2 exes wc w3 Hto Hne Hopen Hexec. subst o.
    destruct (exec_batch env _ _ _ _ _ _ _ _ _ _ Hto Hne Hopen Hexec)
      as (steps & Hsteps & ->).
    assert (Hquiet := upToDispatch_quiet cells cellsArr steps w2 Hsteps).
    assert (Hlen : length exes
                   = length (map Cell.handle
                               (filter (Eligible w2 kernel) cellsArr))).
    { pose proof (createAll_length (Kernel.id kernel) (Notebook.uri notebook)
                    (map Cell.handle (filter (Eligible w2 kernel) cellsArr))
                    (selectKernelForNotebook kernel notebook w2)) as Hlen.
      unfold openBatch in Hopen. by rewrite Hopen in Hlen. }
    cbn [trace result world after settled].
    split; [done|]. split; [|split; [|done]].
    - rewrite !created_app, (created_none (upToDispatch _ _ _ _)).
      2:{ eapply Forall_impl; [exact Hquiet|]. by intros ob (_ & ? & _). }
      cbn [created app]. rewrite created_app, created_creations by done.
      cbn [created]. rewrite (created_none (reconciliation _ _)).
      + by rewrite !app_nil_r.
      + by apply Forall_reconciliation.
    - rewrite !completedCalls_app, (completedCalls_none (upToDispatch _ _ _ _)).
      2:{ eapply Forall_impl; [exact Hquiet|]. by intros ob (_ & _ & _ & ? & _). }
      cbn [completedCalls app]. rewrite completedCalls_app.
      rewrite (completedCalls_none (creations _ _ _ _))
        by by apply Forall_creations.
      cbn [completedCalls app]. apply completedCalls_reconciliation. }
  split.
  - intros ok exe Hok Hin.
    destruct (materializeCells env cells w) as [cellsArr w0] eqn:Hmat.
    destruct (executeNotebookCells_runs env notebook _ _ _ _ Hmat)
      as [(rest & w' & Hrun & Hrest)
         |(kernel & w2 & exes & wc & r & w3 & Hto & Hne & Hopen & Hexec)].
    + fold o in Hrun. rewrite Hrun in Hin. cbn [trace settled] in Hin.
      rewrite created_app in Hin.
      rewrite (created_none (materialization _ _ _)) in Hin
        by by apply Forall_materialization.
      rewrite (created_none rest) in Hin.
      * by apply elem_of_nil in Hin.
      * eapply Forall_impl; [exact Hrest|]. by intros ob (_ & _ & ? & _).
    + destruct r as [[]|err].
      * destruct (Hbatch _ _ _ _ _ _ Hto Hne Hopen Hexec)
          as (_ & Hcreated & _ & Hworld).
        rewrite Hcreated in Hin. rewrite Hworld.
        by apply (reconciled exes w3 exe Hin).
      * exfalso. subst o.
        destruct (exec_batch env _ _ _ _ _ _ _ _ _ _ Hto Hne Hopen Hexec)
          as (steps & _ & Hrun).
        by rewrite Hrun in Hok.
  - intros cellsArr kernel w2 exes wc w3 Hto Hne Hopen Hexec.
    destruct (Hbatch _ _ _ _ _ _ Hto Hne Hopen Hexec)
      as (Hres & Hcreated & Hcompleted & Hworld).
    split; [done|]. split; [done|]. split; [done|].
    intros exe Hin. rewrite Hworld.
    destruct (reconciled exes w3 exe Hin) as (_ & Hyes & Hno).
    split; [|done].
    intros Hun. destruct (Hyes Hun) as (se & Hse & Hse').
    split; [|by exists se].
    unfold stateOf. by rewrite Hse'.
Qed.

Lemma executeNotebookCells_reconciles_unconfirmed_witness :
  let cells := FromArray [Scenario.A; Scenario.C] in
  let o := exec (host Scenario.partial)
             (executeNotebookCells Scenario.nb cells) Scenario.readyAll in
  let exeA := Exe.mk 0 (Notebook.uri Scenario.nb) 1 in
  let exeC := Exe.mk 1 (Notebook.uri Scenario.nb) 3 in
  result o = Ok tt
  ∧ exeC ∈ created (trace o)
  ∧ stateOf (world o) exeC ≠ Unconfirmed
  ∧ ResolvesTo Scenario.partial Scenario.nb cells Scenario.readyAll
      [Scenario.A; Scenario.C] Scenario.polyglot Scenario.readyAll
  ∧ filter (Eligible Scenario.readyAll Scenario.polyglot)
      [Scenario.A; Scenario.C] ≠ []
  ∧ completedCalls (trace o) = [(exeC, [])]
  ∧ stateOf (world o) exeA = Confirmed.
Proof.
  cbv zeta.
  assert (Hok : result (exec (host Scenario.partial)
                  (executeNotebookCells Scenario.nb
                     (FromArray [Scenario.A; Scenario.C])) Scenario.readyAll)
                = Ok tt).
  { by vm_compute. }
  assert (Hin : Exe.mk 1 (Notebook.uri Scenario.nb) 3
                ∈ created (trace (exec (host Scenario.partial)
                    (executeNotebookCells Scenario.nb
                       (FromArray [Scenario.A; Scenario.C]))
                    Scenario.readyAll))).
  { vm_compute. by repeat constructor. }
  assert (Hto : ResolvesTo Scenario.partial Scenario.nb
            (FromArray [Scenario.A; Scenario.C]) Scenario.readyAll
            [Scenario.A; Scenario.C] Scenario.polyglot Scenario.readyAll).
  { exists Scenario.readyAll, Scenario.readyAll. by repeat split. }
  assert (Hne : filter (Eligible Scenario.readyAll Scenario.polyglot)
                  [Scenario.A; Scenario.C] ≠ []).
  { by vm_compute. }
  destruct (executeNotebookCells_reconciles_unconfirmed Scenario.partial
              Scenario.nb (FromArray [Scenario.A; Scenario.C])
              Scenario.readyAll) as (Hall & Hbatch).
  split; [exact Hok|]. split; [exact Hin|].
  split; [exact (Hall _ _ Hok Hin)|].
  split; [exact Hto|]. split; [exact Hne|].
  destruct (Hbatch [Scenario.A; Scenario.C] Scenario.polyglot
              Scenario.readyAll _ _ _ Hto Hne (surjective_pairing _) eq_refl)
    as (_ & _ & Hcompleted & _).
  split; [exact Hcompleted|]. by vm_compute.
Defined.

(** C9.  When the kernel's execute call rejects, the promise of
    [executeNotebookCells] rejects with the same error, the state is the one
    the kernel left, the records of the batch have been created, no record
    state is read and no record is completed: a record the kernel left
    Unconfirmed stays Unconfirmed. *)
Theorem executeNotebookCells_rejected_batch {X} (env : Env X) notebook cells
    (w : World X) cellsArr kernel w2 exes wc err w3 :
  ResolvesTo env notebook cells w cellsArr kernel w2 →
  filter (Eligible w2 kernel) cellsArr ≠ [] →
  openBatch notebook kernel (filter (Eligible w2 kernel) cellsArr) w2
  = (exes, wc) →
  on_executeNotebookCellsRequest env kernel (Notebook.uri notebook)
    (map Cell.handle (filter (Eligible w2 kernel) cellsArr)) wc
  = (Reject err, w3) →
  let o := exec (host env) (executeNotebookCells notebook cells) w in
  result o = Reject err
  ∧ dropped o = []
  ∧ world o = w3
  ∧ created (trace o) = exes
  ∧ completedCalls (trace o) = []
  ∧ Forall (λ ob, readsRecordState ob = false ∧ completesRecord ob = false)
      (trace o)
  ∧ (∀ exe, exe ∈ exes → stateOf w3 exe = Unconfirmed →
            stateOf (world o) exe = Unconfirmed).
Proof.
  intros Hto Hne Hopen Hexec o. subst o.
  destruct (exec_batch env _ _ _ _ _ _ _ _ _ _ Hto Hne Hopen Hexec)
    as (steps & Hsteps & ->).
  assert (Hquiet := upToDispatch_quiet cells cellsArr steps w2 Hsteps).
  assert (Hlen : length exes
                 = length (map Cell.handle
                             (filter (Eligible w2 kernel) cellsArr))).
  { pose proof (createAll_length (Kernel.id kernel) (Notebook.uri notebook)
                  (map Cell.handle (filter (Eligible w2 kernel) cellsArr))
                  (selectKernelForNotebook kernel notebook w2)) as Hlen.
    unfold openBatch in Hopen. by rewrite Hopen in Hlen. }
  assert (Hnone : Forall (λ ob, readsRecordState ob = false
                                ∧ completesRecord ob = false)
            ((upToDispatch cells cellsArr steps w2
              ++ Observe (SelectKernelForNotebook kernel notebook) (Ok tt)
                 :: creations (Kernel.id kernel) (Notebook.uri notebook)
                      (map Cell.handle (filter (Eligible w2 kernel) cellsArr))
                      exes
              ++ [Observe (ExecuteNotebookCellsRequest kernel
                             (Notebook.uri notebook)
                             (map Cell.handle
                                (filter (Eligible w2 kernel) cellsArr)))
                    (Reject err)]) ++ [])).
  { rewrite app_nil_r. apply Forall_app; split.
    - eapply Forall_impl; [exact Hquiet|].
      by intros ob (_ & _ & ? & ? & _).
    - constructor; [done|]. apply Forall_app; split.
      + by apply Forall_creations.
      + by repeat constructor. }
  cbn [trace dropped result world after settled].
  split; [done|]. split; [done|]. split; [done|].
  split; [|split; [|split; [exact Hnone|done]]].
  - rewrite app_nil_r, created_app, (created_none (upToDispatch _ _ _ _)).
    2:{ eapply Forall_impl; [exact Hquiet|]. by intros ob (_ & ? & _). }
    cbn [created app]. rewrite created_app, created_creations by done.
    cbn [created]. by rewrite app_nil_r.
  - apply completedCalls_none.
    eapply Forall_impl; [exact Hnone|]. by intros ob (_ & ?).
Qed.

Lemma executeNotebookCells_rejected_batch_witness :
  let cells := FromArray [Scenario.A; Scenario.C] in
  let o := exec (host Scenario.dying)
             (executeNotebookCells Scenario.nb cells) Scenario.readyAll in
  ResolvesTo Scenario.dying Scenario.nb cells Scenario.readyAll
    [Scenario.A; Scenario.C] Scenario.polyglot Scenario.readyAll
  ∧ filter (Eligible Scenario.readyAll Scenario.polyglot)
      [Scenario.A; Scenario.C] ≠ []
  ∧ result o = Reject "kernel died"
  ∧ completedCalls (trace o) = []
  ∧ stateOf (world o) (Exe.mk 1 (Notebook.uri Scenario.nb) 3) = Unconfirmed.
Proof.
  cbv zeta.
  assert (Hto : ResolvesTo Scenario.dying Scenario.nb
            (FromArray [Scenario.A; Scenario.C]) Scenario.readyAll
            [Scenario.A; Scenario.C] Scenario.polyglot Scenario.readyAll).
  { exists Scenario.readyAll, Scenario.readyAll. by repeat split. }
  assert (Hne : filter (Eligible Scenario.readyAll Scenario.polyglot)
                  [Scenario.A; Scenario.C] ≠ []).
  { by vm_compute. }
  split; [exact Hto|]. split; [exact Hne|].
  destruct (executeNotebookCells_rejected_batch Scenario.dying Scenario.nb
              (FromArray [Scenario.A; Scenario.C]) Scenario.readyAll
              [Scenario.A; Scenario.C] Scenario.polyglot Scenario.readyAll
              _ _ "kernel died" _ Hto Hne (surjective_pairing _) eq_refl)
    as (Hres & _ & _ & Hcreated & Hcompleted & _ & Hstay).
  split; [exact Hres|]. split; [exact Hcompleted|].
  apply Hstay; [|by vm_compute].
  rewrite <- Hcreated. vm_compute. by repeat constructor.
Defined.

(** ** Cancellation *)

Ltac run_handler h :=
  repeat first
    [ progress cbn [exec bind trigger arrayFrom after settled trace dropped
                    result world app rejection]
    | match goal with
      | |- context [h ?Y ?e ?w'] => destruct (h Y e w') as [[?|?] ?]
      | |- context [match ?o with Some _ => _ | None => _ end] =>
          is_var o; destruct o
      end ].

(** Whatever the collaborators do, cancelling asks for no trust and
    discovers no kernel, touches no record and binds no kernel. *)
Lemma cancelNotebookCellHandles_calls {W} (h : Handler W) notebook handles w :
  Forall (λ ob, asksTrust ob = false ∧ discoversKernel ob = false
                ∧ createsRecord ob = false ∧ completesRecord ob = false
                ∧ bindsKernel ob = false)
    (trace (exec h (cancelNotebookCellHandles notebook handles) w)).
Proof.
  unfold cancelNotebookCellHandles.
  destruct handles as [items|src]; run_handler h; by repeat constructor.
Qed.

Lemma cancelNotebookCells_calls {W} (h : Handler W) notebook cells w :
  Forall (λ ob, asksTrust ob = false ∧ discoversKernel ob = false
                ∧ createsRecord ob = false ∧ completesRecord ob = false
                ∧ bindsKernel ob = false)
    (trace (exec h (cancelNotebookCells notebook cells) w)).
Proof.
  unfold cancelNotebookCells.
  destruct cells as [items|src]; run_handler h;
    rewrite ?app_nil_r;
    repeat (constructor; [by repeat split|]);
    first [ apply cancelNotebookCellHandles_calls | by constructor ].
Qed.

Section Cancel.
Context {X : Type} (env : Env X).
Implicit Types (w : World X).

Lemma exec_cancelNotebookCellHandles notebook handles w cellsArr w0 :
  materializeHandles env handles w = (cellsArr, w0) →
  exec (host env) (cancelNotebookCellHandles notebook handles) w
  = after
      (materialization IterateHandles handles cellsArr
       ++ [Observe (LogDebug "NotebookExecutionService#cancelNotebookCellHandles"
                      cellsArr) (Ok tt);
           Observe (GetSelectedOrSuggestedKernel notebook)
             (Ok (getSelectedOrSuggestedKernel w0 notebook))]) []
      match getSelectedOrSuggestedKernel w0 notebook with
      | Some kernel =>
          let '(r, w') :=
            on_cancelNotebookCellExecution env kernel (Notebook.uri notebook)
              cellsArr w0 in
          settled [Observe (CancelNotebookCellExecution kernel
                              (Notebook.uri notebook) cellsArr) r] r w'
      | None => settled [] (Ok tt) w0
      end.
Proof.
  intros Hmat. unfold cancelNotebookCellHandles.
  rewrite exec_bind.
  assert (Harr : exec (host env) (arrayFrom IterateHandles handles) w
                 = settled (materialization IterateHandles handles cellsArr)
                     (Ok cellsArr) w0).
  { destruct handles as [items|src]; simpl in *.
    - by inversion Hmat.
    - by rewrite Hmat. }
  rewrite Harr, thenRun_settled.
  rewrite exec_bind, exec_trigger. cbn [host]. rewrite thenRun_settled.
  rewrite exec_bind, exec_trigger. cbn [host]. rewrite thenRun_settled.
  rewrite !after_after, <- !app_assoc. cbn [app]. f_equal.
  destruct (getSelectedOrSuggestedKernel w0 notebook) as [kernel|]; [|done].
  rewrite exec_trigger. cbn [host].
  by destruct (on_cancelNotebookCellExecution env kernel
                 (Notebook.uri notebook) cellsArr w0) as [[[]|err] w'].
Qed.

(** The dropped promise: [cancelNotebookCells] fulfils whatever becomes of
    the call it started. *)
Lemma exec_cancelNotebookCells notebook cells w cellsArr w0 :
  materializeCells env cells w = (cellsArr, w0) →
  let inner := exec (host env)
                 (cancelNotebookCellHandles notebook
                    (FromArray (map Cell.handle cellsArr))) w0 in
  exec (host env) (cancelNotebookCells notebook cells) w
  = {| trace := materialization IterateCells cells cellsArr ++ trace inner;
       dropped := dropped inner ++ rejection (result inner);
       result := Ok tt;
       world := world inner |}.
Proof.
  intros Hmat inner. unfold cancelNotebookCells.
  rewrite exec_bind, exec_bind.
  assert (Harr : exec (host env) (arrayFrom IterateCells cells) w
                 = settled (materialization IterateCells cells cellsArr)
                     (Ok cellsArr) w0).
  { destruct cells as [items|src]; simpl in *.
    - by inversion Hmat.
    - by rewrite Hmat. }
  rewrite Harr, thenRun_settled. cbn [exec]. fold inner.
  unfold thenRun, after, settled; simpl. by rewrite !app_nil_r.
Qed.
End Cancel.

(** C7.  Cancelling, through either entry point and whatever the
    collaborators do, makes no trust request, no matching-kernel query, no
    source-action call and no command call (and touches no record).  Under
    [host]: the kernel asked to cancel is the selected-or-suggested one, once,
    with the handles given; with no kernel selected the call fulfils, makes no
    call but the log line and the read of the selected kernel, and leaves the
    state as it is. *)
Theorem cancellation_consults_selected_kernel_only {X} (env : Env X) notebook
    (handles : Iterable Z) (cells : Iterable Cell.t) (w : World X) :
  (∀ W (h : Handler W) (w' : W),
     Forall (λ ob, asksTrust ob = false ∧ discoversKernel ob = false)
       (trace (exec h (cancelNotebookCellHandles notebook handles) w'))
     ∧ Forall (λ ob, asksTrust ob = false ∧ discoversKernel ob = false)
         (trace (exec h (cancelNotebookCells notebook cells) w')))
  ∧ (∀ handlesArr w0,
       materializeHandles env handles w = (handlesArr, w0) →
       let o := exec (host env) (cancelNotebookCellHandles notebook handles) w in
       match getSelectedOrSuggestedKernel w0 notebook with
       | Some kernel =>
           cancelled (trace o)
           = [(kernel, Notebook.uri notebook, handlesArr)]
       | None =>
           o = settled
                 (materialization IterateHandles handles handlesArr
                  ++ [Observe (LogDebug
                         "NotebookExecutionService#cancelNotebookCellHandles"
                         handlesArr) (Ok tt);
                      Observe (GetSelectedOrSuggestedKernel notebook) (Ok None)])
                 (Ok tt) w0
       end)
  ∧ (∀ cellsArr w0,
       materializeCells env cells w = (cellsArr, w0) →
       let o := exec (host env) (cancelNotebookCells notebook cells) w in
       match getSelectedOrSuggestedKernel w0 notebook with
       | Some kernel =>
           cancelled (trace o)
           = [(kernel, Notebook.uri notebook, map Cell.handle cellsArr)]
       | None =>
           o = settled
                 (materialization IterateCells cells cellsArr
                  ++ [Observe (LogDebug
                         "NotebookExecutionService#cancelNotebookCellHandles"
                         (map Cell.handle cellsArr)) (Ok tt);
                      Observe (GetSelectedOrSuggestedKernel notebook) (Ok None)])
                 (Ok tt) w0
       end).
Proof.
  split; [|split].
  - intros W h w'. split.
    + eapply Forall_impl; [apply cancelNotebookCellHandles_calls|].
      by intros ob (? & ? & _).
    + eapply Forall_impl; [apply cancelNotebookCells_calls|].
      by intros ob (? & ? & _).
  - intros handlesArr w0 Hmat o. subst o.
    rewrite (exec_cancelNotebookCellHandles env _ _ _ _ _ Hmat).
    destruct (getSelectedOrSuggestedKernel w0 notebook) as [kernel|].
    + destruct (on_cancelNotebookCellExecution env kernel
                  (Notebook.uri notebook) handlesArr w0) as [r w'].
      cbn [trace after settled]. destruct handles; by simpl.
    + by rewrite after_settled, app_nil_r.
  - intros cellsArr w0 Hmat o. subst o.
    rewrite (exec_cancelNotebookCells env _ _ _ _ _ Hmat).
    rewrite (exec_cancelNotebookCellHandles env notebook
               (FromArray (map Cell.handle cellsArr)) w0
               (map Cell.handle cellsArr) w0 eq_refl).
    destruct (getSelectedOrSuggestedKernel w0 notebook) as [kernel|].
    + destruct (on_cancelNotebookCellExecution env kernel
                  (Notebook.uri notebook) (map Cell.handle cellsArr) w0)
        as [r w'].
      cbn [trace after settled]. destruct cells; by simpl.
    + by rewrite after_settled.
Qed.

Lemma cancellation_consults_selected_kernel_only_witness :
  materializeHandles Scenario.calm (FromArray [1%Z; 3%Z]) Scenario.blank
  = ([1%Z; 3%Z], Scenario.blank)
  ∧ materializeCells Scenario.calm (FromArray [Scenario.A; Scenario.C])
      Scenario.blank
    = ([Scenario.A; Scenario.C], Scenario.blank)
  ∧ world (exec (host Scenario.calm)
             (cancelNotebookCellHandles Scenario.nb (FromArray [1%Z; 3%Z]))
             Scenario.blank) = Scenario.blank
  ∧ exec (host Scenario.calm)
      (cancelNotebookCells Scenario.nb (FromArray [Scenario.A; Scenario.C]))
      Scenario.blank
    = settled
        [Observe (LogDebug "NotebookExecutionService#cancelNotebookCellHandles"
                    [1%Z; 3%Z]) (Ok tt);
         Observe (GetSelectedOrSuggestedKernel Scenario.nb) (Ok None)]
        (Ok tt) Scenario.blank.
Proof.
  split; [reflexivity|]. split; [reflexivity|].
  destruct (cancellation_consults_selected_kernel_only Scenario.calm
              Scenario.nb (FromArray [1%Z; 3%Z])
              (FromArray [Scenario.A; Scenario.C]) Scenario.blank)
    as (_ & Hhandles & Hcells).
  specialize (Hhandles [1%Z; 3%Z] Scenario.blank eq_refl).
  specialize (Hcells [Scenario.A; Scenario.C] Scenario.blank eq_refl).
  split.
  - exact (f_equal world Hhandles).
  - exact Hcells.
Defined.

(** A rejected cancel call rejects [cancelNotebookCellHandles], and the
    kernel is asked once. *)
Lemma cancelNotebookCellHandles_propagates {X} (env : Env X) notebook handles
    (w : World X) handlesArr w0 kernel err w' :
  materializeHandles env handles w = (handlesArr, w0) →
  getSelectedOrSuggestedKernel w0 notebook = Some kernel →
  on_cancelNotebookCellExecution env kernel (Notebook.uri notebook)
    handlesArr w0 = (Reject err, w') →
  let o := exec (host env) (cancelNotebookCellHandles notebook handles) w in
  result o = Reject err
  ∧ cancelled (trace o) = [(kernel, Notebook.uri notebook, handlesArr)].
Proof.
  intros Hmat Hsel Hcancel o. subst o.
  rewrite (exec_cancelNotebookCellHandles env _ _ _ _ _ Hmat), Hsel, Hcancel.
  cbn [trace result after settled]. split; [done|].
  destruct handles; by simpl.
Qed.

(** [cancelNotebookCells] never rejects under [host]: the rejection of the
    call it started is dropped. *)
Lemma cancelNotebookCells_fulfils {X} (env : Env X) notebook cells
    (w : World X) :
  result (exec (host env) (cancelNotebookCells notebook cells) w) = Ok tt.
Proof.
  destruct (materializeCells env cells w) as [cellsArr w0] eqn:Hmat.
  by rewrite (exec_cancelNotebookCells env _ _ _ _ _ Hmat).
Qed.

(** C8.  The py kernel is selected and its cancel operation rejects.
    [cancelNotebookCellHandles] rejects with the kernel's error, the kernel
    having been asked once; [cancelNotebookCells] asks the kernel once too,
    but fulfils: the rejection is the one of a promise nobody holds. *)
Theorem cancelNotebookCells_drops_rejection :
  let byHandles :=
    exec (host Scenario.dying)
      (cancelNotebookCellHandles Scenario.nb (FromArray [1%Z])) Scenario.ready in
  let byCells :=
    exec (host Scenario.dying)
      (cancelNotebookCells Scenario.nb (FromArray [Scenario.A])) Scenario.ready in
  result byHandles = Reject "kernel died"
  ∧ cancelled (trace byHandles)
    = [(Scenario.pyKernel, Notebook.uri Scenario.nb, [1%Z])]
  ∧ result byCells = Ok tt
  ∧ dropped byCells = ["kernel died"]
  ∧ cancelled (trace byCells)
    = [(Scenario.pyKernel, Notebook.uri Scenario.nb, [1%Z])].
Proof.
  cbv zeta.
  destruct (cancelNotebookCellHandles_propagates Scenario.dying Scenario.nb
              (FromArray [1%Z]) Scenario.ready [1%Z] Scenario.ready
              Scenario.pyKernel "kernel died" Scenario.ready
              eq_refl eq_refl eq_refl) as (Hres & Hasked).
  split; [exact Hres|]. split; [exact Hasked|].
  split; [apply cancelNotebookCells_fulfils|].
  split; by vm_compute.
Qed.

(** ** The scenarios of the specification, run *)

(** Cells [A] (code, py), [B] (markup) and [C] (code, js) with a kernel for
    py: the kernel is asked to execute [A] only, and only [A] gets a record. *)
Example scenario_one_eligible_cell :
  let o := exec (host Scenario.calm)
             (executeNotebookCells Scenario.nb
                (FromArray [Scenario.A; Scenario.B; Scenario.C]))
             Scenario.ready in
  dispatched (trace o)
  = [(Scenario.pyKernel, Notebook.uri Scenario.nb, [1%Z])]
  ∧ created (trace o) = [Exe.mk 0 (Notebook.uri Scenario.nb) 1]
  ∧ result o = Ok tt.
Proof. by vm_compute. Qed.

(** No kernel selected and one source action that selects the py kernel: the
    action is run, the picker is not, and [A] is executed. *)
Example scenario_source_action_selects :
  let o := exec (host Scenario.installing)
             (executeNotebookCells Scenario.nb
                (FromArray [Scenario.A; Scenario.B; Scenario.C]))
             Scenario.blank in
  filter resolvesKernel (trace o)
  = [Observe (GetSelectedOrSuggestedKernel Scenario.nb) (Ok None);
     Observe (GetMatchingKernel Scenario.nb) (Ok {| all := [] |});
     Observe GetSourceActions (Ok [Scenario.install]);
     Observe (RunAction Scenario.install) (Ok tt);
     Observe (GetSelectedOrSuggestedKernel Scenario.nb)
       (Ok (Some Scenario.pyKernel))]
  ∧ dispatched (trace o)
    = [(Scenario.pyKernel, Notebook.uri Scenario.nb, [1%Z])].
Proof. by vm_compute. Qed.

(** The source action selects nothing and the picker selects the polyglot
    kernel: both run, in this order, and [A] and [C] are executed. *)
Example scenario_picker_selects :
  let o := exec (host Scenario.picking)
             (executeNotebookCells Scenario.nb
                (FromArray [Scenario.A; Scenario.B; Scenario.C]))
             Scenario.blank in
  filter resolvesKernel (trace o)
  = [Observe (GetSelectedOrSuggestedKernel Scenario.nb) (Ok None);
     Observe (GetMatchingKernel Scenario.nb) (Ok {| all := [] |});
     Observe GetSourceActions (Ok [Scenario.install]);
     Observe (RunAction Scenario.install) (Ok tt);
     Observe (GetSelectedOrSuggestedKernel Scenario.nb) (Ok None);
     Observe (ExecuteCommand SELECT_KERNEL_ID) (Ok tt);
     Observe (GetSelectedOrSuggestedKernel Scenario.nb)
       (Ok (Some Scenario.polyglot))]
  ∧ dispatched (trace o)
    = [(Scenario.polyglot, Notebook.uri Scenario.nb, [1%Z; 3%Z])].
Proof. by vm_compute. Qed.

(** Nobody selects a kernel: the request ends after the picker, its promise
    fulfils, and nothing has changed. *)
Example scenario_no_kernel :
  let o := exec (host Scenario.calm)
             (executeNotebookCells Scenario.nb
                (FromArray [Scenario.A; Scenario.B; Scenario.C]))
             Scenario.blank in
  result o = Ok tt
  ∧ world o = Scenario.blank
  ∧ last (trace o)
    = Some (Observe (GetSelectedOrSuggestedKernel Scenario.nb) (Ok None))
  ∧ dispatched (trace o) = [] ∧ created (trace o) = [].
Proof. by vm_compute. Qed.

(** The kernel confirms [A] and not [C]: [C] is completed with an empty
    result, [A] is left Confirmed. *)
Example scenario_partial_confirmation :
  let o := exec (host Scenario.partial)
             (executeNotebookCells Scenario.nb
                (FromArray [Scenario.A; Scenario.C])) Scenario.readyAll in
  executions (world o)
  = [ {| se_controllerId := "polyglot";
         se_notebook := Notebook.uri Scenario.nb; se_cellHandle := 1;
         se_state := Confirmed; se_result := None |};
      {| se_controllerId := "polyglot";
         se_notebook := Notebook.uri Scenario.nb; se_cellHandle := 3;
         se_state := Completed; se_result := Some [] |} ].
Proof. by vm_compute. Qed.

(** A cell with a live record is not executed again. *)
Example scenario_cell_already_running :
  let busy := (createCellExecution "py-kernel" (Notebook.uri Scenario.nb) 1
                 Scenario.ready).2 in
  let o := exec (host Scenario.calm)
             (executeNotebookCells Scenario.nb (FromArray [Scenario.A])) busy in
  dispatched (trace o) = [] ∧ world o = busy.
Proof. by vm_compute. Qed.

(** * Further properties of the service *)

(** ** Programs in general *)

Lemma trace_exec_bind {W A B} (h : Handler W) (p : Prog A) (f : A -> Prog B) w :
  trace (exec h (bind p f) w)
  = trace (exec h p w)
    ++ match result (exec h p w) with
       | Ok x => trace (exec h (f x) (world (exec h p w)))
       | Reject _ => []
       end.
Proof.
  rewrite exec_bind. unfold thenRun.
  destruct (result (exec h p w)); simpl; [done|]. by rewrite app_nil_r.
Qed.

Lemma uses_exec {W R} (P : Obs -> Prop) (h : Handler W) (p : Prog R) w :
  Uses P p -> Forall P (trace (exec h p w)).
Proof.
  intros Hp. revert w.
  induction Hp as [R r|Y R e k He _ IH|R c k _ IHc _ IHk]; intros w; simpl.
  - constructor.
  - destruct (h Y e w) as [[y|err] w']; simpl.
    + constructor; [apply He|apply IH].
    + constructor; [apply He|constructor].
  - apply Forall_app. split; [apply IHc|apply IHk].
Qed.

Lemma uses_bind {A B} (P : Obs -> Prop) (p : Prog A) (f : A -> Prog B) :
  Uses P p -> (forall x, Uses P (f x)) -> Uses P (bind p f).
Proof.
  intros Hp Hf.
  induction Hp as [R r|Y R e k He _ IH|R c k Hc _ _ IHk]; simpl.
  - apply Hf.
  - constructor; [done|]. intros y. by apply IH.
  - constructor; [done|]. by apply IHk.
Qed.

Lemma uses_trigger {Y} (P : Obs -> Prop) (e : Event Y) :
  (forall r, P (Observe e r)) -> Uses P (trigger e).
Proof. intros He. constructor; [done|]. intros y. constructor. Qed.

Lemma uses_impl {R} (P Q : Obs -> Prop) (p : Prog R) :
  (forall ob, P ob -> Q ob) -> Uses P p -> Uses Q p.
Proof.
  intros HPQ Hp.
  induction Hp as [R r|Y R e k He _ IH|R c k _ IHc _ IHk];
    constructor; auto.
Qed.

Lemma uses_mapP {A B} (P : Obs -> Prop) (f : A -> Prog B) xs :
  (forall x, Uses P (f x)) -> Uses P (mapP f xs).
Proof.
  intros Hf. induction xs as [|x xs IH]; simpl; [constructor|].
  apply uses_bind; [done|]. intros y.
  apply uses_bind; [done|]. intros ys. constructor.
Qed.

Lemma uses_filterP {A} (P : Obs -> Prop) (f : A -> Prog bool) xs :
  (forall x, Uses P (f x)) -> Uses P (filterP f xs).
Proof.
  intros Hf. induction xs as [|x xs IH]; simpl; [constructor|].
  apply uses_bind; [done|]. intros y.
  apply uses_bind; [done|]. intros ys. constructor.
Qed.

Lemma uses_forEachP {A} (P : Obs -> Prop) (f : A -> Prog unit) xs :
  (forall x, Uses P (f x)) -> Uses P (forEachP f xs).
Proof.
  intros Hf. induction xs as [|x xs IH]; simpl; [constructor|].
  by apply uses_bind.
Qed.

Lemma uses_collectExecutable (P : Obs -> Prop) kernel cellsArr executeCells :
  (forall cu r, P (Observe (GetCellExecution cu) r)) ->
  Uses P (collectExecutable kernel cellsArr executeCells).
Proof.
  intros HP. revert executeCells.
  induction cellsArr as [|cell rest IH]; intros executeCells; simpl;
    [constructor|].
  constructor; [apply HP|]. intros cellExe.
  destruct (negb (bool_decide (Cell.cellKind cell = Code))
            || bool_decide (is_Some cellExe)); [apply IH|].
  destruct (negb (bool_decide
              (Cell.language cell ∈ Kernel.supportedLanguages kernel)));
    apply IH.
Qed.

Lemma sequential_bind {A B} (p : Prog A) (f : A -> Prog B) :
  Sequential p -> (forall x, Sequential (f x)) -> Sequential (bind p f).
Proof.
  intros Hp Hf. induction Hp as [R r|Y R e k _ IH]; simpl.
  - apply Hf.
  - constructor. intros y. by apply IH.
Qed.

Lemma sequential_trigger {Y} (e : Event Y) : Sequential (trigger e).
Proof. constructor. intros y. constructor. Qed.

Lemma sequential_mapP {A B} (f : A -> Prog B) xs :
  (forall x, Sequential (f x)) -> Sequential (mapP f xs).
Proof.
  intros Hf. induction xs as [|x xs IH]; simpl; [constructor|].
  apply sequential_bind; [done|]. intros y.
  apply sequential_bind; [done|]. intros ys. constructor.
Qed.

Lemma sequential_filterP {A} (f : A -> Prog bool) xs :
  (forall x, Sequential (f x)) -> Sequential (filterP f xs).
Proof.
  intros Hf. induction xs as [|x xs IH]; simpl; [constructor|].
  apply sequential_bind; [done|]. intros y.
  apply sequential_bind; [done|]. intros ys. constructor.
Qed.

Lemma sequential_forEachP {A} (f : A -> Prog unit) xs :
  (forall x, Sequential (f x)) -> Sequential (forEachP f xs).
Proof.
  intros Hf. induction xs as [|x xs IH]; simpl; [constructor|].
  by apply sequential_bind.
Qed.

Lemma sequential_collectExecutable kernel cellsArr executeCells :
  Sequential (collectExecutable kernel cellsArr executeCells).
Proof.
  revert executeCells.
  induction cellsArr as [|cell rest IH]; intros executeCells; simpl;
    [constructor|].
  constructor. intros cellExe.
  destruct (negb (bool_decide (Cell.cellKind cell = Code))
            || bool_decide (is_Some cellExe)); [apply IH|].
  destruct (negb (bool_decide
              (Cell.language cell ∈ Kernel.supportedLanguages kernel)));
    apply IH.
Qed.

(** A method that holds on to every promise makes no call after a call that
    failed, and fails as that call did. *)
Lemma sequential_exec {W R} (h : Handler W) (p : Prog R) w :
  Sequential p ->
  let o := exec h p w in
  dropped o = []
  ∧ match result o with
    | Ok _ => Forall (λ ob, answered ob = true) (trace o)
    | Reject err =>
        ∃ t Y (e : Event Y),
          trace o = t ++ [Observe e (Reject err)]
          ∧ Forall (λ ob, answered ob = true) t
    end.
Proof.
  intros Hp. revert w.
  induction Hp as [R r|Y R e k _ IH]; intros w; simpl.
  - split; [done|]. constructor.
  - destruct (h Y e w) as [[y|err] w']; simpl.
    + destruct (IH y w') as (Hd & Hres). split; [done|].
      destruct (result (exec h (k y) w')) as [x|err].
      * by constructor.
      * destruct Hres as (t & Y' & e' & -> & Ht).
        exists (Observe e (Ok y) :: t), Y', e'. split; [done|].
        by constructor.
    + split; [done|]. exists [], Y, e. split; [done|]. constructor.
Qed.

(** ** Reading a trace, continued *)

Lemma bound_app t1 t2 : bound (t1 ++ t2) = bound t1 ++ bound t2.
Proof.
  induction t1 as [|[Y e r] t1 IH]; [done|]. simpl.
  destruct e; simpl; rewrite ?IH; try done. by destruct r.
Qed.

Lemma requestedRecords_app t1 t2 :
  requestedRecords (t1 ++ t2) = requestedRecords t1 ++ requestedRecords t2.
Proof.
  induction t1 as [|[Y e r] t1 IH]; [done|]. simpl.
  destruct e; simpl; by rewrite ?IH.
Qed.

Lemma kernelsRead_app t1 t2 :
  kernelsRead (t1 ++ t2) = kernelsRead t1 ++ kernelsRead t2.
Proof.
  induction t1 as [|[Y e r] t1 IH]; [done|]. simpl.
  destruct e; simpl; by rewrite ?IH.
Qed.

Lemma bound_none t : Forall (λ ob, bindsKernel ob = false) t -> bound t = [].
Proof. induction 1 as [|[Y e r] t Hob _ IH]; [done|]. simpl. by destruct e. Qed.

Lemma requestedRecords_none t :
  Forall (λ ob, createsRecord ob = false) t -> requestedRecords t = [].
Proof. induction 1 as [|[Y e r] t Hob _ IH]; [done|]. simpl. by destruct e. Qed.

Lemma kernelsRead_none t :
  Forall (λ ob, resolvesKernel ob = false) t -> kernelsRead t = [].
Proof. induction 1 as [|[Y e r] t Hob _ IH]; [done|]. simpl. by destruct e. Qed.

(** ** The loops, whatever the collaborators do *)

Section AnyHandler.
Context {W : Type} (h : Handler W).

Lemma uses_resolveSourceActions notebook :
  Uses (λ ob, resolvesKernel ob = true ∧ picks ob = false)
    (resolveSourceActions notebook).
Proof.
  unfold resolveSourceActions. constructor; [done|]. intros info. simpl.
  destruct (length (all info) =? 0)%nat; [|constructor].
  constructor; [done|]. intros [|a [|a' rest]]; simpl; try constructor; try done.
  - intros []. by apply uses_trigger.
Qed.

Lemma uses_resolveKernel notebook :
  Uses (λ ob, resolvesKernel ob = true) (resolveKernel notebook).
Proof.
  unfold resolveKernel. apply uses_bind; [by apply uses_trigger|].
  intros kernel. apply uses_bind.
  - destruct kernel; [constructor|].
    eapply uses_impl; [|apply uses_resolveSourceActions]. by intros ob (? & _).
  - intros [k|]; [constructor|].
    apply uses_bind; [by apply uses_trigger|]. intros _. by apply uses_trigger.
Qed.

Lemma uses_reconcile exes :
  Uses (λ ob, readsRecordState ob || logs ob || completesRecord ob = true)
    (reconcile exes).
Proof.
  unfold reconcile. apply uses_bind.
  - apply uses_filterP. intros exe. unfold isUnconfirmed.
    apply uses_bind; [by apply uses_trigger|]. intros st. constructor.
  - intros unconfirmed. destruct (0 <? length unconfirmed)%nat; [|constructor].
    apply uses_bind; [by apply uses_trigger|]. intros _.
    apply uses_forEachP. intros exe. by apply uses_trigger.
Qed.

Lemma uses_dispatch notebook kernel executeCells :
  Uses (λ ob, materializes ob = false ∧ asksTrust ob = false
              ∧ resolvesKernel ob = false ∧ probesRecord ob = false)
    (dispatch notebook kernel executeCells).
Proof.
  unfold dispatch. destruct (0 <? length executeCells)%nat; [|constructor].
  apply uses_bind; [by apply uses_trigger|]. intros _.
  apply uses_bind.
  { apply uses_mapP. intros c. by apply uses_trigger. }
  intros exes. apply uses_bind; [by apply uses_trigger|]. intros _.
  eapply uses_impl; [|apply uses_reconcile].
  intros [Y e r] Hob. by destruct e.
Qed.

Lemma uses_trusted notebook cellsArr :
  Uses (λ ob, materializes ob = false ∧ asksTrust ob = false)
    (trusted notebook cellsArr).
Proof.
  unfold trusted. apply uses_bind.
  { eapply uses_impl; [|apply uses_resolveKernel].
    intros [Y e r] Hob. by destruct e. }
  intros [kernel|]; [|constructor].
  apply uses_bind; [by apply uses_collectExecutable|]. intros executeCells.
  eapply uses_impl; [|apply uses_dispatch]. by intros ob (? & ? & _).
Qed.

(** The loop of lines 55-65: what it adds to [executeCells] are cells of the
    array, in the order of the array, each a code cell in a language of the
    kernel for which the registry answered that there is no execution. *)
Lemma collectExecutable_picks kernel cellsArr executeCells w result' :
  result (exec h (collectExecutable kernel cellsArr executeCells) w)
  = Ok result' ->
  ∃ picked,
    result' = executeCells ++ picked
    ∧ picked `sublist_of` cellsArr
    ∧ ∀ cell, cell ∈ picked ->
        Cell.cellKind cell = Code
        ∧ Cell.language cell ∈ Kernel.supportedLanguages kernel
        ∧ Observe (GetCellExecution (Cell.uri cell)) (Ok None)
          ∈ trace (exec h (collectExecutable kernel cellsArr executeCells) w).
Proof.
  revert executeCells w.
  induction cellsArr as [|cell rest IH]; intros executeCells w;
    cbn [collectExecutable bind trigger exec].
  { intros Hres. inversion Hres. exists []. rewrite app_nil_r.
    split; [done|]. split; [constructor|]. intros c Hc.
    by apply elem_of_nil in Hc. }
  destruct (h _ (GetCellExecution (Cell.uri cell)) w) as [[cellExe|err] w'];
    cbn [result trace after]; [|done].
  assert (Hskip : ∀ acc,
    result (exec h (collectExecutable kernel rest acc) w') = Ok result' ->
    acc = executeCells ->
    ∃ picked,
      result' = executeCells ++ picked
      ∧ picked `sublist_of` cell :: rest
      ∧ ∀ c, c ∈ picked ->
          Cell.cellKind c = Code
          ∧ Cell.language c ∈ Kernel.supportedLanguages kernel
          ∧ Observe (GetCellExecution (Cell.uri c)) (Ok None)
            ∈ [Observe (GetCellExecution (Cell.uri cell)) (Ok cellExe)]
              ++ trace (exec h (collectExecutable kernel rest acc) w')).
  { intros acc Hres ->. destruct (IH _ _ Hres) as (picked & -> & Hsub & Hall).
    exists picked. split; [done|]. split; [by constructor|].
    intros c Hc. destruct (Hall c Hc) as (? & ? & ?).
    split; [done|]. split; [done|]. by right. }
  destruct (negb (bool_decide (Cell.cellKind cell = Code))
            || bool_decide (is_Some cellExe)) eqn:Hcond.
  { intros Hres. by apply Hskip. }
  destruct (negb (bool_decide
              (Cell.language cell ∈ Kernel.supportedLanguages kernel)))
    eqn:Hlang.
  { intros Hres. by apply Hskip. }
  apply orb_false_iff in Hcond. destruct Hcond as (Hk & Hx).
  apply negb_false_iff, bool_decide_eq_true_1 in Hk.
  apply negb_false_iff, bool_decide_eq_true_1 in Hlang.
  apply bool_decide_eq_false_1 in Hx.
  assert (cellExe = None) as ->.
  { destruct cellExe; [|done]. exfalso. apply Hx. eauto. }
  intros Hres. destruct (IH _ _ Hres) as (picked & -> & Hsub & Hall).
  exists (cell :: picked). rewrite <- app_assoc. split; [done|].
  split; [by constructor|].
  intros c Hc. apply elem_of_cons in Hc. destruct Hc as [->|Hc].
  - split; [done|]. split; [done|]. by left.
  - destruct (Hall c Hc) as (? & ? & ?).
    split; [done|]. split; [done|]. by right.
Qed.
End AnyHandler.

Section AnyHandlerBatch.
Context {W : Type} (h : Handler W).

Lemma mapP_create controllerId notebook (cells : list Cell.t) w :
  let o := exec h (mapP (fun c => trigger (CreateCellExecution controllerId
                                             notebook (Cell.handle c)))
                     cells) w in
  Forall (λ ob, createsRecord ob = true) (trace o)
  ∧ ∀ exes, result o = Ok exes ->
      created (trace o) = exes
      ∧ length exes = length cells
      ∧ requestedRecords (trace o)
        = map (λ c, (controllerId, notebook, Cell.handle c)) cells.
Proof.
  revert w. induction cells as [|c rest IH]; intros w.
  { simpl. split; [constructor|]. intros exes Hres. by inversion Hres. }
  cbn [mapP bind trigger exec].
  destruct (h _ (CreateCellExecution controllerId notebook (Cell.handle c)) w)
    as [[exe|err] w']; cbn [trace result after app].
  2:{ split; [by repeat constructor|]. by intros exes Hres. }
  rewrite exec_bind. destruct (IH w') as (Hall & Hok).
  unfold thenRun.
  destruct (result (exec h (mapP _ rest) w')) as [exes'|err] eqn:Hres';
    cbn [trace result after exec app].
  - rewrite app_nil_r. split; [by constructor|].
    intros exes Hres. inversion Hres; subst exes.
    destruct (Hok exes' eq_refl) as (Hc & Hlen & Hreq).
    cbn [created requestedRecords length map]. by rewrite Hc, Hlen, Hreq.
  - split; [by constructor|]. by intros exes Hres.
Qed.

Lemma filterP_isUnconfirmed exes w :
  let o := exec h (filterP isUnconfirmed exes) w in
  Forall (λ ob, readsRecordState ob = true) (trace o)
  ∧ ∀ unconfirmed, result o = Ok unconfirmed ->
      unconfirmed `sublist_of` exes
      ∧ ∀ exe, exe ∈ unconfirmed ->
          Observe (ReadState exe) (Ok Unconfirmed) ∈ trace o.
Proof.
  revert w. induction exes as [|exe rest IH]; intros w.
  { simpl. split; [constructor|]. intros us Hres. inversion Hres.
    split; [constructor|]. intros e He. by apply elem_of_nil in He. }
  cbn [filterP isUnconfirmed bind trigger exec].
  destruct (h _ (ReadState exe) w) as [[st|err] w'];
    cbn [trace result after app].
  2:{ split; [by repeat constructor|]. by intros us Hres. }
  rewrite exec_bind. destruct (IH w') as (Hall & Hok).
  unfold thenRun.
  destruct (result (exec h (filterP isUnconfirmed rest) w')) as [us'|err];
    cbn [trace result after exec app].
  - rewrite app_nil_r. split; [by constructor|].
    intros us Hres. inversion Hres; subst us.
    destruct (Hok us' eq_refl) as (Hsub & Hin).
    case_bool_decide as Hst.
    + subst st. split; [by constructor|].
      intros e He. apply elem_of_cons in He. destruct He as [->|He];
        [by left|right; by apply Hin].
    + split; [by constructor|]. intros e He. right. by apply Hin.
  - split; [by constructor|]. by intros us Hres.
Qed.

Lemma forEachP_complete exes w :
  let o := exec h (forEachP (fun exe => trigger (Complete exe [])) exes) w in
  Forall (λ ob, completesRecord ob = true) (trace o)
  ∧ ∀ exe data, (exe, data) ∈ completedCalls (trace o) ->
      data = [] ∧ exe ∈ exes.
Proof.
  revert w. induction exes as [|exe rest IH]; intros w.
  { simpl. split; [constructor|]. intros e d He. by apply elem_of_nil in He. }
  cbn [forEachP bind trigger exec].
  destruct (h _ (Complete exe []) w) as [[[]|err] w'];
    cbn [trace result after app completedCalls].
  - destruct (IH w') as (Hall & Hin). split; [by constructor|].
    intros e d He. apply elem_of_cons in He. destruct He as [He|He].
    + inversion He. split; [done|]. by left.
    + destruct (Hin e d He). split; [done|]. by right.
  - split; [by repeat constructor|].
    intros e d He. apply list_elem_of_singleton in He. inversion He.
    split; [done|]. by left.
Qed.

(** Lines 73-77: only records of [exes] whose state was read as Unconfirmed
    are completed, each with an empty result. *)
Lemma reconcile_shape exes w :
  let t := trace (exec h (reconcile exes) w) in
  Forall (λ ob, readsRecordState ob || logs ob || completesRecord ob = true) t
  ∧ ∀ exe data, (exe, data) ∈ completedCalls t ->
      data = [] ∧ exe ∈ exes ∧ Observe (ReadState exe) (Ok Unconfirmed) ∈ t.
Proof.
  intros t. split; [apply uses_exec, uses_reconcile|].
  subst t. unfold reconcile. rewrite trace_exec_bind.
  destruct (filterP_isUnconfirmed exes w) as (Hreads & Hok).
  intros exe data Hin. rewrite completedCalls_app in Hin.
  rewrite (completedCalls_none (trace (exec h (filterP isUnconfirmed exes) w)))
    in Hin.
  2:{ eapply Forall_impl; [exact Hreads|]. intros [Y e r] Hob. by destruct e. }
  cbn [app] in Hin.
  destruct (result (exec h (filterP isUnconfirmed exes) w))
    as [unconfirmed|err]; [|by apply elem_of_nil in Hin].
  destruct (Hok unconfirmed eq_refl) as (Hsub & Hread).
  destruct (0 <? length unconfirmed)%nat; [|by apply elem_of_nil in Hin].
  rewrite trace_exec_bind in Hin. rewrite completedCalls_app in Hin.
  rewrite exec_trigger in Hin.
  destruct (h _ (LogDebug
     "NotebookExecutionService#executeNotebookCells completing unconfirmed executions"
     (map Exe.cellHandle unconfirmed))
     (world (exec h (filterP isUnconfirmed exes) w))) as [[[]|err] w'];
    cbn [trace result world settled completedCalls app] in Hin;
    [|by apply elem_of_nil in Hin].
  destruct (forEachP_complete unconfirmed w') as (_ & Hdone).
  destruct (Hdone exe data Hin) as (-> & Hexe).
  split; [done|]. split.
  - eapply sublist_subseteq; [exact Hsub|done].
  - apply elem_of_app. left. by apply Hread.
Qed.

(** Lines 67-78.  Either no kernel is invoked, no record state is read and
    no record is completed; or the run is: the kernel is bound, one record is
    asked for per cell, with the id of the kernel, all are returned, and only
    then the kernel is invoked, once, with the handles of the cells; what
    follows only if that call returns reads states, logs and completes, and
    completes only records returned before, read as Unconfirmed after. *)
Lemma dispatch_shape notebook kernel executeCells w :
  let t := trace (exec h (dispatch notebook kernel executeCells) w) in
  Forall (λ ob, invokesKernel ob = false ∧ readsRecordState ob = false
                ∧ completesRecord ob = false) t
  ∨ (executeCells ≠ []
     ∧ ∃ t1 r t2,
         t = t1
             ++ Observe (ExecuteNotebookCellsRequest kernel
                           (Notebook.uri notebook)
                           (map Cell.handle executeCells)) r
             :: t2
         ∧ Forall (λ ob, bindsKernel ob || createsRecord ob = true) t1
         ∧ bound t1 = [(kernel, notebook)]
         ∧ requestedRecords t1
           = map (λ c, (Kernel.id kernel, Notebook.uri notebook, Cell.handle c))
               executeCells
         ∧ length (created t1) = length executeCells
         ∧ (r ≠ Ok tt -> t2 = [])
         ∧ Forall (λ ob, readsRecordState ob || logs ob || completesRecord ob
                         = true) t2
         ∧ ∀ exe data, (exe, data) ∈ completedCalls t2 ->
             data = [] ∧ exe ∈ created t1
             ∧ Observe (ReadState exe) (Ok Unconfirmed) ∈ t2).
Proof.
  intros t. subst t. unfold dispatch.
  destruct (0 <? length executeCells)%nat eqn:Hlen0; [|left; constructor].
  assert (executeCells ≠ []) as Hne by (intros ->; discriminate Hlen0).
  rewrite trace_exec_bind, exec_trigger.
  destruct (h _ (SelectKernelForNotebook kernel notebook) w) as [[[]|err] w1];
    cbn [trace result world settled].
  2:{ left. rewrite app_nil_r. by repeat constructor. }
  rewrite trace_exec_bind.
  destruct (mapP_create (Kernel.id kernel) (Notebook.uri notebook)
              executeCells w1) as (Hcreates & Hok).
  set (oc := exec h (mapP _ executeCells) w1) in *.
  destruct (result oc) as [exes|err] eqn:Hres.
  2:{ left. rewrite app_nil_r. constructor; [done|].
      eapply Forall_impl; [exact Hcreates|].
      intros [Y e r] Hob. by destruct e. }
  destruct (Hok exes eq_refl) as (Hcreated & Hlen & Hreq).
  rewrite trace_exec_bind, exec_trigger.
  destruct (h _ (ExecuteNotebookCellsRequest kernel (Notebook.uri notebook)
                   (map Cell.handle executeCells)) (world oc))
    as [r w3] eqn:Hexec.
  right. split; [done|].
  exists (Observe (SelectKernelForNotebook kernel notebook) (Ok tt) :: trace oc),
    r,
    (match r with
     | Ok _ => trace (exec h (reconcile exes) w3)
     | Reject _ => []
     end).
  split; [|split; [|split; [|split; [|split; [|split; [|split]]]]]].
  - destruct r as [[]|err]; by cbn [trace result world settled app].
  - constructor; [done|]. eapply Forall_impl; [exact Hcreates|].
    intros ob ->. apply orb_true_r.
  - cbn [bound answered]. rewrite bound_none; [done|].
    eapply Forall_impl; [exact Hcreates|]. intros [Y e r'] Hob. by destruct e.
  - by cbn [requestedRecords].
  - cbn [created]. by rewrite Hcreated.
  - destruct r as [[]|err]; [|done]. by intros [].
  - destruct r as [[]|err]; [|constructor]. apply reconcile_shape.
  - intros exe data Hin. destruct r as [[]|err];
      [|by apply elem_of_nil in Hin].
    destruct (reconcile_shape exes w3) as (_ & Hrec).
    destruct (Hrec exe data Hin) as (? & ? & ?).
    split; [done|]. split; [|done]. cbn [created]. by rewrite Hcreated.
Qed.
End AnyHandlerBatch.

(** ** The whole method, whatever the collaborators do *)

Ltac answer_all h :=
  repeat first
    [ progress cbn [exec bind trigger arrayFrom after settled trace dropped
                    result world app rejection negb kernelsRead last length
                    Nat.eqb]
    | match goal with
      | |- context [h ?Y ?e ?w'] => destruct (h Y e w') as [[?|?] ?] eqn:?
      | |- context [match ?o with Some _ => _ | None => _ end] =>
          is_var o; destruct o
      | |- context [if ?b then _ else _] => is_var b; destruct b
      | |- context [(length (all ?i) =? 0)%nat] =>
          destruct (length (all i) =? 0)%nat eqn:?
      | |- context [match ?l with [] => _ | _ :: _ => _ end] =>
          is_var l; destruct l
      end ].

Section AnyHandlerRun.
Context {W : Type} (h : Handler W).

(** The kernel a resolution ends with is the last answer of the registry. *)
Lemma resolveKernel_answer notebook w kernel :
  result (exec h (resolveKernel notebook) w) = Ok (Some kernel) ->
  last (kernelsRead (trace (exec h (resolveKernel notebook) w)))
  = Some (Ok (Some kernel)).
Proof.
  unfold resolveKernel, resolveSourceActions.
  answer_all h; intros Hres; by inversion Hres.
Qed.

Lemma resolveKernel_reuse notebook w kernel w' :
  h _ (GetSelectedOrSuggestedKernel notebook) w = (Ok (Some kernel), w') ->
  exec h (resolveKernel notebook) w
  = settled [Observe (GetSelectedOrSuggestedKernel notebook) (Ok (Some kernel))]
      (Ok (Some kernel)) w'.
Proof.
  intros Hsel. unfold resolveKernel. cbn [exec bind trigger].
  by rewrite Hsel.
Qed.

Lemma resolveKernel_first notebook w :
  ∃ more,
    trace (exec h (resolveKernel notebook) w)
    = Observe (GetSelectedOrSuggestedKernel notebook)
        (h _ (GetSelectedOrSuggestedKernel notebook) w).1
      :: more.
Proof.
  unfold resolveKernel. cbn [exec bind trigger].
  destruct (h _ (GetSelectedOrSuggestedKernel notebook) w) as [[k|err] w'];
    cbn [trace after app fst]; by eexists.
Qed.

(** The gate of lines 33-39: either the run ends there, with at most the
    enumeration, the log line and a trust request that did not answer true;
    or trust was granted and the rest of the run is lines 41-78. *)
Lemma executeNotebookCells_gate notebook cells w :
  let o := exec h (executeNotebookCells notebook cells) w in
  (∃ pre post,
     trace o = pre ++ post
     ∧ Forall (λ ob, materializes ob || logs ob = true) pre
     ∧ (length (filter (λ ob, materializes ob = true) pre) ≤ 1)%nat
     ∧ (post = []
        ∨ ∃ r, r ≠ Ok true
               ∧ post = [Observe (RequestWorkspaceTrust trustMessage) r]))
  ∨ (∃ cellsArr w1,
       trace o
       = entry cells cellsArr true ++ trace (exec h (trusted notebook cellsArr) w1)
       ∧ result o = result (exec h (trusted notebook cellsArr) w1)
       ∧ (∀ items, cells = FromArray items -> cellsArr = items)).
Proof.
  intros o. subst o. rewrite executeNotebookCells_phases.
  unfold executeNotebookCells_phased.
  destruct cells as [items|src]; cbn [arrayFrom bind trigger exec].
  - pose (line := LogDebug "NotebookExecutionService#executeNotebookCells"
                    (map Cell.handle items)).
    destruct (h _ (LogDebug "NotebookExecutionService#executeNotebookCells"
                     (map Cell.handle items)) w) as [[[]|err] w0];
      cbn [trace result after app].
    2:{ left. exists [Observe line (Reject err)], [].
        split; [done|]. split; [by repeat constructor|].
        split; [vm_compute; lia|by left]. }
    destruct (h _ (RequestWorkspaceTrust trustMessage) w0)
      as [[[|]|err] w1]; cbn [trace result after app negb exec].
    + right. exists items, w1. split; [done|]. split; [done|].
      intros items' Heq. by inversion Heq.
    + left. exists [Observe line (Ok tt)],
        [Observe (RequestWorkspaceTrust trustMessage) (Ok false)].
      split; [done|]. split; [by repeat constructor|].
      split; [vm_compute; lia|]. right. by exists (Ok false).
    + left. exists [Observe line (Ok tt)],
        [Observe (RequestWorkspaceTrust trustMessage) (Reject err)].
      split; [done|]. split; [by repeat constructor|].
      split; [vm_compute; lia|]. right. by exists (Reject err).
  - destruct (h _ (IterateCells src) w) as [[cellsArr|err] w00];
      cbn [trace result after app exec].
    2:{ left. exists [Observe (IterateCells src) (Reject err)], [].
        split; [done|]. split; [by repeat constructor|].
        split; [vm_compute; lia|by left]. }
    pose (line := LogDebug "NotebookExecutionService#executeNotebookCells"
                    (map Cell.handle cellsArr)).
    destruct (h _ (LogDebug "NotebookExecutionService#executeNotebookCells"
                     (map Cell.handle cellsArr)) w00) as [[[]|err] w0];
      cbn [trace result after app].
    2:{ left. exists [Observe (IterateCells src) (Ok cellsArr);
                      Observe line (Reject err)], [].
        split; [done|]. split; [by repeat constructor|].
        split; [vm_compute; lia|by left]. }
    destruct (h _ (RequestWorkspaceTrust trustMessage) w0)
      as [[[|]|err] w1]; cbn [trace result after app negb exec].
    + right. exists cellsArr, w1. split; [done|]. split; [done|].
      intros items' Heq. inversion Heq.
    + left. exists [Observe (IterateCells src) (Ok cellsArr);
                    Observe line (Ok tt)],
        [Observe (RequestWorkspaceTrust trustMessage) (Ok false)].
      split; [done|]. split; [by repeat constructor|].
      split; [vm_compute; lia|]. right. by exists (Ok false).
    + left. exists [Observe (IterateCells src) (Ok cellsArr);
                    Observe line (Ok tt)],
        [Observe (RequestWorkspaceTrust trustMessage) (Reject err)].
      split; [done|]. split; [by repeat constructor|].
      split; [vm_compute; lia|]. right. by exists (Reject err).
Qed.

(** Lines 41-78: the calls of the kernel resolution; then, with a kernel,
    the calls of the loop and, with the cells it kept, the dispatch. *)
Lemma trusted_shape notebook cellsArr w :
  ∃ steps rest,
    trace (exec h (trusted notebook cellsArr) w) = steps ++ rest
    ∧ Forall (λ ob, resolvesKernel ob = true) steps
    ∧ (rest = []
       ∨ ∃ kernel executeCells tp w',
           rest = tp ++ trace (exec h (dispatch notebook kernel executeCells) w')
           ∧ last (kernelsRead steps) = Some (Ok (Some kernel))
           ∧ Forall (λ ob, probesRecord ob = true) tp
           ∧ executeCells `sublist_of` cellsArr
           ∧ ∀ cell, cell ∈ executeCells ->
               Cell.cellKind cell = Code
               ∧ Cell.language cell ∈ Kernel.supportedLanguages kernel
               ∧ Observe (GetCellExecution (Cell.uri cell)) (Ok None) ∈ tp).
Proof.
  unfold trusted. rewrite trace_exec_bind.
  exists (trace (exec h (resolveKernel notebook) w)). eexists.
  split; [reflexivity|]. split; [apply uses_exec, uses_resolveKernel|].
  destruct (result (exec h (resolveKernel notebook) w)) as [[kernel|]|err]
    eqn:Hres; [|by left..].
  rewrite trace_exec_bind.
  set (oc := exec h (collectExecutable kernel cellsArr [])
               (world (exec h (resolveKernel notebook) w))).
  destruct (result oc) as [executeCells|err] eqn:Hpick.
  - destruct (collectExecutable_picks h _ _ _ _ _ Hpick)
      as (picked & -> & Hsub & Hall).
    right. exists kernel, picked, (trace oc), (world oc).
    split; [done|]. split; [by apply resolveKernel_answer|].
    split; [by apply uses_exec, uses_collectExecutable|]. by split.
  - right. exists kernel, [], (trace oc), (world oc).
    split; [done|]. split; [by apply resolveKernel_answer|].
    split; [by apply uses_exec, uses_collectExecutable|].
    split; [apply sublist_nil_l|]. intros c Hc. by apply elem_of_nil in Hc.
Qed.
End AnyHandlerRun.

Lemma prepares_entry cells cellsArr trust :
  Forall (λ ob, prepares ob = true) (entry cells cellsArr trust).
Proof. by apply Forall_entry. Qed.

Lemma kernelsRead_entry cells cellsArr trust :
  kernelsRead (entry cells cellsArr trust) = [].
Proof. apply kernelsRead_none. by apply Forall_entry. Qed.

(** Every run: either no kernel is invoked, no record state is read and no
    record is completed; or the run is a preparation [t0] (entry, kernel
    resolution, loop), the opening of the batch [t1], the execute call and
    what follows it [t2]. *)
Lemma run_shape {W} (h : Handler W) notebook cells w :
  let t := trace (exec h (executeNotebookCells notebook cells) w) in
  Forall (λ ob, invokesKernel ob = false ∧ readsRecordState ob = false
                ∧ completesRecord ob = false) t
  ∨ ∃ cellsArr kernel executeCells t0 t1 r t2,
      t = t0 ++ t1
          ++ Observe (ExecuteNotebookCellsRequest kernel (Notebook.uri notebook)
                        (map Cell.handle executeCells)) r
          :: t2
      ∧ executeCells ≠ []
      ∧ Forall (λ ob, prepares ob = true) t0
      ∧ last (kernelsRead t0) = Some (Ok (Some kernel))
      ∧ (∀ items, cells = FromArray items -> cellsArr = items)
      ∧ (∀ src, cells = FromSource src ->
           Observe (IterateCells src) (Ok cellsArr) ∈ t0)
      ∧ executeCells `sublist_of` cellsArr
      ∧ (∀ cell, cell ∈ executeCells ->
           Cell.cellKind cell = Code
           ∧ Cell.language cell ∈ Kernel.supportedLanguages kernel
           ∧ Observe (GetCellExecution (Cell.uri cell)) (Ok None) ∈ t0)
      ∧ Forall (λ ob, bindsKernel ob || createsRecord ob = true) t1
      ∧ bound t1 = [(kernel, notebook)]
      ∧ requestedRecords t1
        = map (λ c, (Kernel.id kernel, Notebook.uri notebook, Cell.handle c))
            executeCells
      ∧ length (created t1) = length executeCells
      ∧ (r ≠ Ok tt -> t2 = [])
      ∧ Forall (λ ob, readsRecordState ob || logs ob || completesRecord ob
                      = true) t2
      ∧ ∀ exe data, (exe, data) ∈ completedCalls t2 ->
          data = [] ∧ exe ∈ created t1
          ∧ Observe (ReadState exe) (Ok Unconfirmed) ∈ t2.
Proof.
  intros t. subst t.
  destruct (executeNotebookCells_gate h notebook cells w)
    as [(pre & post & -> & Hpre & _ & Hpost)
       |(cellsArr & w1 & -> & _ & Harr)].
  { left. apply Forall_app. split.
    - eapply Forall_impl; [exact Hpre|]. intros [Y e r] Hob. by destruct e.
    - destruct Hpost as [->|(r & _ & ->)]; by repeat constructor. }
  destruct (trusted_shape h notebook cellsArr w1)
    as (steps & rest & -> & Hsteps & Hrest).
  assert (Hquiet : Forall (λ ob, invokesKernel ob = false
                                 ∧ readsRecordState ob = false
                                 ∧ completesRecord ob = false)
                     (entry cells cellsArr true ++ steps)).
  { apply Forall_app. split; [by apply Forall_entry|].
    eapply Forall_impl; [exact Hsteps|]. intros [Y e r] Hob. by destruct e. }
  destruct Hrest as [->|(kernel & ec & tp & w' & -> & Hlast & Hprobes & Hsub
                         & Hcells)].
  { left. by rewrite app_nil_r. }
  assert (Hquiet' : Forall (λ ob, invokesKernel ob = false
                                  ∧ readsRecordState ob = false
                                  ∧ completesRecord ob = false) tp).
  { eapply Forall_impl; [exact Hprobes|]. intros [Y e r] Hob. by destruct e. }
  destruct (dispatch_shape h notebook kernel ec w')
    as [Hnone|(Hne & t1 & r & t2 & -> & Ht1 & Hbound & Hreq & Hlen & Hr & Ht2
               & Hdone)].
  { left. rewrite app_assoc. apply Forall_app. split; [done|].
    by apply Forall_app. }
  right. exists cellsArr, kernel, ec, (entry cells cellsArr true ++ steps ++ tp),
           t1, r, t2.
  split; [by rewrite <- !app_assoc|]. split; [done|].
  split.
  { apply Forall_app. split; [apply prepares_entry|]. apply Forall_app. split.
    - eapply Forall_impl; [exact Hsteps|]. intros [Y e r'] Hob. by destruct e.
    - eapply Forall_impl; [exact Hprobes|]. intros [Y e r'] Hob. by destruct e. }
  split.
  { rewrite !kernelsRead_app, kernelsRead_entry, (kernelsRead_none tp).
    - by rewrite app_nil_r.
    - eapply Forall_impl; [exact Hprobes|]. intros [Y e r'] Hob. by destruct e. }
  split; [done|]. split.
  { intros src ->. by left. }
  split; [done|]. split.
  { intros cell Hcell. destruct (Hcells cell Hcell) as (? & ? & ?).
    split; [done|]. split; [done|].
    apply elem_of_app. right. apply elem_of_app. by right. }
  done.
Qed.

(** ** The trust gate *)

(** X1.  Whatever the collaborators do, [executeNotebookCells] makes no call
    before the trust request but the enumeration of its argument and the log
    line, makes no call after it unless it answered true, asks for trust at
    most once and enumerates its argument at most once. *)
Theorem executeNotebookCells_asks_trust_first {W} (h : Handler W) notebook
    cells w :
  let t := trace (exec h (executeNotebookCells notebook cells) w) in
  ∃ pre post,
    t = pre ++ post
    ∧ Forall (λ ob, materializes ob || logs ob = true) pre
    ∧ (length (filter (λ ob, materializes ob = true) pre) ≤ 1)%nat
    ∧ (post = []
       ∨ ∃ r rest,
           post = Observe (RequestWorkspaceTrust trustMessage) r :: rest
           ∧ (r = Ok true ∨ rest = [])
           ∧ Forall (λ ob, materializes ob = false ∧ asksTrust ob = false)
               rest).
Proof.
  intros t. subst t.
  destruct (executeNotebookCells_gate h notebook cells w)
    as [(pre & post & -> & Hpre & Hcount & Hpost)
       |(cellsArr & w1 & -> & _ & _)].
  - exists pre, post. split; [done|]. split; [done|]. split; [done|].
    destruct Hpost as [->|(r & Hr & ->)]; [by left|].
    right. exists r, []. split; [done|]. split; [by right|]. constructor.
  - unfold entry.
    exists (materialization IterateCells cells cellsArr
            ++ [Observe (LogDebug "NotebookExecutionService#executeNotebookCells"
                           (map Cell.handle cellsArr)) (Ok tt)]),
      (Observe (RequestWorkspaceTrust trustMessage) (Ok true)
       :: trace (exec h (trusted notebook cellsArr) w1)).
    split; [by rewrite <- !app_assoc|]. split.
    { apply Forall_app. split; [|by repeat constructor].
      destruct cells; by repeat constructor. }
    split; [destruct cells; vm_compute; lia|].
    right. eexists _, _. split; [done|]. split; [by left|].
    apply uses_exec, uses_trusted.
Qed.

(** ** Failures *)

Ltac sequential :=
  repeat first
    [ apply sequential_trigger
    | apply sequential_collectExecutable
    | apply sequential_mapP
    | apply sequential_filterP
    | apply sequential_forEachP
    | apply sequential_bind
    | match goal with
      | |- Sequential (Ret _) => constructor
      | |- forall _, _ => intros ?
      | |- Sequential (match ?x with _ => _ end) => destruct x
      end ].

Lemma sequential_executeNotebookCells notebook cells :
  Sequential (executeNotebookCells notebook cells).
Proof.
  unfold executeNotebookCells, resolveSourceActions, arrayFrom, isUnconfirmed.
  sequential.
Qed.

Lemma sequential_cancelNotebookCellHandles notebook handles :
  Sequential (cancelNotebookCellHandles notebook handles).
Proof. unfold cancelNotebookCellHandles, arrayFrom. sequential. Qed.

(** X2.  [executeNotebookCells] and [cancelNotebookCellHandles] hold on to
    every promise and catch nothing: whatever the collaborators do, the calls
    before the last all returned, a call that fails is the last call made
    and the promise of the method rejects with its error, and no rejection
    is left on a promise nobody holds. *)
Theorem failures_end_the_request {W} (h : Handler W) notebook cells handles w :
  let settles {R} (o : Outcome W R) :=
    dropped o = []
    ∧ match result o with
      | Ok _ => Forall (λ ob, answered ob = true) (trace o)
      | Reject err =>
          ∃ t Y (e : Event Y),
            trace o = t ++ [Observe e (Reject err)]
            ∧ Forall (λ ob, answered ob = true) t
      end in
  settles (exec h (executeNotebookCells notebook cells) w)
  ∧ settles (exec h (cancelNotebookCellHandles notebook handles) w).
Proof.
  split.
  - apply (sequential_exec h), sequential_executeNotebookCells.
  - apply (sequential_exec h), sequential_cancelNotebookCellHandles.
Qed.

(** ** Reading the parts of a run *)

Lemma dispatched_parts t0 t1 t2 kernel notebook handles r :
  Forall (λ ob, prepares ob = true) t0 ->
  Forall (λ ob, bindsKernel ob || createsRecord ob = true) t1 ->
  Forall (λ ob, readsRecordState ob || logs ob || completesRecord ob = true) t2 ->
  dispatched
    (t0 ++ t1 ++ Observe (ExecuteNotebookCellsRequest kernel notebook handles) r
        :: t2)
  = [(kernel, notebook, handles)].
Proof.
  intros H0 H1 H2. rewrite !dispatched_app. cbn [dispatched].
  rewrite (dispatched_none t0), (dispatched_none t1), (dispatched_none t2);
    [done|..];
    (eapply Forall_impl; [eassumption|]); intros [Y e r'] Hob; by destruct e.
Qed.

Lemma completedCalls_parts t0 t1 t2 kernel notebook handles r :
  Forall (λ ob, prepares ob = true) t0 ->
  Forall (λ ob, bindsKernel ob || createsRecord ob = true) t1 ->
  completedCalls
    (t0 ++ t1 ++ Observe (ExecuteNotebookCellsRequest kernel notebook handles) r
        :: t2)
  = completedCalls t2.
Proof.
  intros H0 H1. rewrite !completedCalls_app. cbn [completedCalls].
  rewrite (completedCalls_none t0), (completedCalls_none t1);
    [done|..];
    (eapply Forall_impl; [eassumption|]); intros [Y e r'] Hob; by destruct e.
Qed.

Lemma kernelsRead_parts t0 t1 t2 kernel notebook handles r :
  Forall (λ ob, bindsKernel ob || createsRecord ob = true) t1 ->
  Forall (λ ob, readsRecordState ob || logs ob || completesRecord ob = true) t2 ->
  kernelsRead
    (t0 ++ t1 ++ Observe (ExecuteNotebookCellsRequest kernel notebook handles) r
        :: t2)
  = kernelsRead t0.
Proof.
  intros H1 H2. rewrite !kernelsRead_app. cbn [kernelsRead].
  rewrite (kernelsRead_none t1), (kernelsRead_none t2);
    [by rewrite app_nil_r|..];
    (eapply Forall_impl; [eassumption|]); intros [Y e r'] Hob; by destruct e.
Qed.

(** ** The kernel *)

(** X3.  When the first answer of the registry is a kernel, whatever the
    collaborators do next: the registry is not asked again, no candidate is
    looked for, no source action is asked for or run, the picker is not run,
    and a batch goes to that kernel and no other. *)
Theorem selected_kernel_is_reused {W} (h : Handler W) notebook cells w kernel :
  let t := trace (exec h (executeNotebookCells notebook cells) w) in
  head (kernelsRead t) = Some (Ok (Some kernel)) ->
  kernelsRead t = [Ok (Some kernel)]
  ∧ Forall (λ ob, discoversKernel ob = false) t
  ∧ ∀ kernel' notebook' handles,
      (kernel', notebook', handles) ∈ dispatched t -> kernel' = kernel.
Proof.
  intros t Hfirst.
  assert (Hread : kernelsRead t = [Ok (Some kernel)]
                  ∧ Forall (λ ob, discoversKernel ob = false) t).
  { subst t.
    destruct (executeNotebookCells_gate h notebook cells w)
      as [(pre & post & Ht & Hpre & _ & Hpost)
         |(cellsArr & w1 & Ht & _ & _)]; rewrite Ht in *; clear Ht.
    - exfalso. rewrite kernelsRead_app in Hfirst.
      rewrite (kernelsRead_none pre), (kernelsRead_none post) in Hfirst;
        [done|..].
      + destruct Hpost as [->|(r & _ & ->)]; by repeat constructor.
      + eapply Forall_impl; [exact Hpre|]. intros [Y e r] Hob. by destruct e.
    - rewrite kernelsRead_app, kernelsRead_entry in *. cbn [app] in *.
      unfold trusted in *. rewrite trace_exec_bind in *.
      destruct (resolveKernel_first h notebook w1) as (more & Hmore).
      rewrite Hmore in Hfirst. cbn [kernelsRead app head] in Hfirst.
      destruct (h _ (GetSelectedOrSuggestedKernel notebook) w1) as [r1 w2]
        eqn:Hsel.
      cbn [fst] in Hfirst. inversion Hfirst; subst r1. clear Hfirst Hmore more.
      rewrite (resolveKernel_reuse h _ _ _ _ Hsel).
      cbn [trace result world settled].
      assert (Hrest : Forall (λ ob, resolvesKernel ob = false)
                (trace (exec h
                   (executeCells <- collectExecutable kernel cellsArr [] ;;
                    dispatch notebook kernel executeCells) w2))).
      { apply uses_exec, uses_bind; [by apply uses_collectExecutable|].
        intros executeCells. eapply uses_impl; [|apply uses_dispatch].
        by intros ob (_ & _ & ? & _). }
      split.
      + cbn [app kernelsRead]. by rewrite (kernelsRead_none _ Hrest).
      + apply Forall_app. split; [by apply Forall_entry|].
        constructor; [done|].
        eapply Forall_impl; [exact Hrest|]. intros [Y e r] Hob. by destruct e. }
  destruct Hread as (Hread & Hquiet). split; [done|]. split; [done|].
  intros kernel' notebook' handles Hin. subst t.
  destruct (run_shape h notebook cells w)
    as [Hnone
       |(cellsArr & k & ec & t0 & t1 & r & t2 & Ht & _ & H0 & Hlast & _ & _ & _
         & _ & H1 & _ & _ & _ & _ & H2 & _)].
  - rewrite dispatched_none in Hin; [by apply elem_of_nil in Hin|].
    eapply Forall_impl; [exact Hnone|]. by intros ob (? & _).
  - rewrite Ht in Hin, Hread.
    rewrite (dispatched_parts _ _ _ _ _ _ _ H0 H1 H2) in Hin.
    rewrite (kernelsRead_parts _ _ _ _ _ _ _ H1 H2) in Hread.
    apply list_elem_of_singleton in Hin. inversion Hin; subst.
    rewrite Hread in Hlast. cbn [last] in Hlast. by inversion Hlast.
Qed.

Lemma selected_kernel_is_reused_witness :
  let t := trace (exec (host Scenario.calm)
                    (executeNotebookCells Scenario.nb
                       (FromArray [Scenario.A; Scenario.B; Scenario.C]))
                    Scenario.ready) in
  head (kernelsRead t) = Some (Ok (Some Scenario.pyKernel))
  ∧ kernelsRead t = [Ok (Some Scenario.pyKernel)]
  ∧ Forall (λ ob, discoversKernel ob = false) t.
Proof.
  cbv zeta.
  assert (Hfirst : head (kernelsRead (trace (exec (host Scenario.calm)
                    (executeNotebookCells Scenario.nb
                       (FromArray [Scenario.A; Scenario.B; Scenario.C]))
                    Scenario.ready)))
                   = Some (Ok (Some Scenario.pyKernel))).
  { by vm_compute. }
  split; [exact Hfirst|].
  destruct (selected_kernel_is_reused (host Scenario.calm) Scenario.nb
              (FromArray [Scenario.A; Scenario.B; Scenario.C]) Scenario.ready
              Scenario.pyKernel Hfirst) as (Hread & Hquiet & _).
  by split.
Defined.

(** X4.  [resolveSourceActions], whatever the collaborators do: it asks the
    registry and runs a source action, nothing else (never the picker); when
    the registry finds a candidate it returns no kernel without asking for
    the source actions; it returns a kernel only after finding no candidate,
    being offered exactly one source action and running it, the kernel being
    what the registry then answered. *)
Theorem resolveSourceActions_runs_the_only_action {W} (h : Handler W)
    notebook w :
  let o := exec h (resolveSourceActions notebook) w in
  Forall (λ ob, resolvesKernel ob = true ∧ picks ob = false) (trace o)
  ∧ (∀ info w',
       h _ (GetMatchingKernel notebook) w = (Ok info, w') ->
       all info ≠ [] ->
       o = settled [Observe (GetMatchingKernel notebook) (Ok info)] (Ok None) w')
  ∧ (∀ kernel,
       result o = Ok (Some kernel) ->
       ∃ info action,
         all info = []
         ∧ trace o
           = [Observe (GetMatchingKernel notebook) (Ok info);
              Observe GetSourceActions (Ok [action]);
              Observe (RunAction action) (Ok tt);
              Observe (GetSelectedOrSuggestedKernel notebook)
                (Ok (Some kernel))]).
Proof.
  intros o. split; [apply uses_exec, uses_resolveSourceActions|]. subst o.
  unfold resolveSourceActions. split.
  - intros info w' Hinfo Hall. cbn [exec bind trigger]. rewrite Hinfo.
    destruct (all info) as [|k ks]; [done|]. by cbn.
  - intros kernel. cbn [exec bind trigger].
    destruct (h _ (GetMatchingKernel notebook) w) as [[info|err] w1];
      cbn [result trace after app]; [|done].
    destruct (all info) as [|k ks] eqn:Hall; cbn [length Nat.eqb exec];
      [|done].
    destruct (h _ GetSourceActions w1) as [[[|a [|a' rest]]|err] w2];
      cbn [result trace after app exec]; try done.
    destruct (h _ (RunAction a) w2) as [[[]|err] w3];
      cbn [result trace after app exec]; [|done].
    rewrite exec_trigger.
    destruct (h _ (GetSelectedOrSuggestedKernel notebook) w3)
      as [[[k|]|err] w4]; cbn [result trace settled]; try done.
    intros Hres. inversion Hres; subst. by exists info, a.
Qed.

Lemma resolveSourceActions_runs_the_only_action_witness :
  let busy := {| selected := ∅;
                 matching := {[ Notebook.uri Scenario.nb := [Scenario.pyKernel] ]};
                 sourceActions := [Scenario.install];
                 executions := []; external := ∅ |} : World Scenario.Generators in
  host Scenario.installing _ (GetMatchingKernel Scenario.nb) busy
  = (Ok {| all := [Scenario.pyKernel] |}, busy)
  ∧ exec (host Scenario.installing) (resolveSourceActions Scenario.nb) busy
    = settled [Observe (GetMatchingKernel Scenario.nb)
                 (Ok {| all := [Scenario.pyKernel] |})] (Ok None) busy
  ∧ result (exec (host Scenario.installing)
              (resolveSourceActions Scenario.nb) Scenario.blank)
    = Ok (Some Scenario.pyKernel)
  ∧ length (trace (exec (host Scenario.installing)
                     (resolveSourceActions Scenario.nb) Scenario.blank))
    = 4%nat.
Proof.
  cbv zeta.
  set (busy := {| selected := ∅;
                  matching := {[ Notebook.uri Scenario.nb := [Scenario.pyKernel] ]};
                  sourceActions := [Scenario.install];
                  executions := []; external := ∅ |} : World Scenario.Generators).
  assert (Hq : host Scenario.installing _ (GetMatchingKernel Scenario.nb) busy
               = (Ok {| all := [Scenario.pyKernel] |}, busy)).
  { by vm_compute. }
  assert (Hk : result (exec (host Scenario.installing)
                         (resolveSourceActions Scenario.nb) Scenario.blank)
               = Ok (Some Scenario.pyKernel)).
  { by vm_compute. }
  split; [exact Hq|].
  destruct (resolveSourceActions_runs_the_only_action
              (host Scenario.installing) Scenario.nb busy) as (_ & Hcand & _).
  split; [by apply Hcand|].
  destruct (resolveSourceActions_runs_the_only_action
              (host Scenario.installing) Scenario.nb Scenario.blank)
    as (_ & _ & Hsome).
  split; [exact Hk|].
  destruct (Hsome _ Hk) as (info & action & _ & ->). reflexivity.
Defined.

(** ** The batch, whatever the collaborators do *)

(** X5.  Whatever the collaborators do, a kernel that is asked to execute is
    asked once in the run, for the notebook of the request, with a batch that
    is not empty; it is the kernel the registry answered last; before the
    call it was bound to the notebook (the only binding of the run) and one
    record was asked for per handle of the batch, in order, under the id of
    the kernel, each of these calls having returned; no kernel is invoked
    before, and after it no kernel is bound or invoked and no record asked
    for; when the call does not return, nothing follows. *)
Theorem kernel_is_invoked_once_on_an_open_batch {W} (h : Handler W) notebook
    cells w kernel notebook' handles :
  let t := trace (exec h (executeNotebookCells notebook cells) w) in
  (kernel, notebook', handles) ∈ dispatched t ->
  dispatched t = [(kernel, notebook', handles)]
  ∧ notebook' = Notebook.uri notebook
  ∧ handles ≠ []
  ∧ ∃ before r afterwards,
      t = before
          ++ Observe (ExecuteNotebookCellsRequest kernel notebook' handles) r
          :: afterwards
      ∧ last (kernelsRead before) = Some (Ok (Some kernel))
      ∧ bound before = [(kernel, notebook)]
      ∧ requestedRecords before
        = map (λ handle, (Kernel.id kernel, notebook', handle)) handles
      ∧ length (created before) = length handles
      ∧ Forall (λ ob, invokesKernel ob = false) before
      ∧ Forall (λ ob, invokesKernel ob = false ∧ bindsKernel ob = false
                      ∧ createsRecord ob = false) afterwards
      ∧ (r ≠ Ok tt -> afterwards = []).
Proof.
  intros t Hin. subst t.
  destruct (run_shape h notebook cells w)
    as [Hnone
       |(cellsArr & k & ec & t0 & t1 & r & t2 & Ht & Hne & H0 & Hlast & _ & _
         & _ & _ & H1 & Hbound & Hreq & Hlen & Hr & H2 & _)].
  { rewrite dispatched_none in Hin; [by apply elem_of_nil in Hin|].
    eapply Forall_impl; [exact Hnone|]. by intros ob (? & _). }
  rewrite Ht in *. clear Ht.
  rewrite (dispatched_parts _ _ _ _ _ _ _ H0 H1 H2) in *.
  apply list_elem_of_singleton in Hin. inversion Hin; subst. clear Hin.
  split; [done|]. split; [done|]. split.
  { destruct ec; [done|]. by cbn. }
  exists (t0 ++ t1), r, t2. split; [by rewrite <- app_assoc|].
  assert (H1' : Forall (λ ob, resolvesKernel ob = false ∧ invokesKernel ob = false)
                  t1).
  { eapply Forall_impl; [exact H1|]. intros [Y e r'] Hob. by destruct e. }
  split.
  { rewrite kernelsRead_app, (kernelsRead_none t1), app_nil_r; [done|].
    eapply Forall_impl; [exact H1'|]. by intros ob (? & _). }
  split.
  { rewrite bound_app, (bound_none t0); [done|].
    eapply Forall_impl; [exact H0|]. intros [Y e r'] Hob. by destruct e. }
  split.
  { rewrite requestedRecords_app, (requestedRecords_none t0).
    - rewrite Hreq. cbn [app]. by rewrite map_map.
    - eapply Forall_impl; [exact H0|]. intros [Y e r'] Hob. by destruct e. }
  split.
  { rewrite created_app, (created_none t0).
    - cbn [app]. by rewrite Hlen, length_map.
    - eapply Forall_impl; [exact H0|]. intros [Y e r'] Hob. by destruct e. }
  split.
  { apply Forall_app. split.
    - eapply Forall_impl; [exact H0|]. intros [Y e r'] Hob. by destruct e.
    - eapply Forall_impl; [exact H1'|]. by intros ob (_ & ?). }
  split; [|done].
  eapply Forall_impl; [exact H2|]. intros [Y e r'] Hob. by destruct e.
Qed.

Lemma kernel_is_invoked_once_on_an_open_batch_witness :
  let t := trace (exec (host Scenario.partial)
                    (executeNotebookCells Scenario.nb
                       (FromArray [Scenario.A; Scenario.B; Scenario.C]))
                    Scenario.readyAll) in
  (Scenario.polyglot, Notebook.uri Scenario.nb, [1%Z; 3%Z]) ∈ dispatched t
  ∧ dispatched t = [(Scenario.polyglot, Notebook.uri Scenario.nb, [1%Z; 3%Z])].
Proof.
  cbv zeta.
  assert (Hin : (Scenario.polyglot, Notebook.uri Scenario.nb, [1%Z; 3%Z])
                ∈ dispatched (trace (exec (host Scenario.partial)
                    (executeNotebookCells Scenario.nb
                       (FromArray [Scenario.A; Scenario.B; Scenario.C]))
                    Scenario.readyAll))).
  { vm_compute. constructor. }
  split; [exact Hin|].
  apply (kernel_is_invoked_once_on_an_open_batch (host Scenario.partial)
           Scenario.nb (FromArray [Scenario.A; Scenario.B; Scenario.C])
           Scenario.readyAll _ _ _ Hin).
Defined.

(** X6.  Whatever the registry and the kernels are, the handles a kernel is
    asked to execute are those of cells of the array made at entry (the
    array given, or what the caller's iterable yielded), in the order of
    that array; each is a code cell in a language of that kernel for which
    the registry had answered that there is no execution. *)
Theorem only_eligible_cells_are_dispatched {W} (h : Handler W) notebook cells
    w kernel notebook' handles :
  let t := trace (exec h (executeNotebookCells notebook cells) w) in
  (kernel, notebook', handles) ∈ dispatched t ->
  ∃ cellsArr executeCells,
    handles = map Cell.handle executeCells
    ∧ executeCells `sublist_of` cellsArr
    ∧ (∀ items, cells = FromArray items -> cellsArr = items)
    ∧ (∀ src, cells = FromSource src ->
         Observe (IterateCells src) (Ok cellsArr) ∈ t)
    ∧ ∀ cell, cell ∈ executeCells ->
        Cell.cellKind cell = Code
        ∧ Cell.language cell ∈ Kernel.supportedLanguages kernel
        ∧ Observe (GetCellExecution (Cell.uri cell)) (Ok None) ∈ t.
Proof.
  intros t Hin. subst t.
  destruct (run_shape h notebook cells w)
    as [Hnone
       |(cellsArr & k & ec & t0 & t1 & r & t2 & Ht & Hne & H0 & _ & Harr & Hsrc
         & Hsub & Hcells & H1 & _ & _ & _ & _ & H2 & _)].
  { rewrite dispatched_none in Hin; [by apply elem_of_nil in Hin|].
    eapply Forall_impl; [exact Hnone|]. by intros ob (? & _). }
  rewrite Ht in *. clear Ht.
  rewrite (dispatched_parts _ _ _ _ _ _ _ H0 H1 H2) in Hin.
  apply list_elem_of_singleton in Hin. inversion Hin; subst. clear Hin.
  exists cellsArr, ec. split; [done|]. split; [done|]. split; [done|].
  split.
  - intros src Hcells'. apply elem_of_app. left. by apply Hsrc.
  - intros cell Hcell. destruct (Hcells cell Hcell) as (? & ? & ?).
    split; [done|]. split; [done|]. apply elem_of_app. by left.
Qed.

Lemma only_eligible_cells_are_dispatched_witness :
  let t := trace (exec (host Scenario.calm)
                    (executeNotebookCells Scenario.nb (FromSource 0%nat))
                    Scenario.ready) in
  (Scenario.pyKernel, Notebook.uri Scenario.nb, [1%Z]) ∈ dispatched t
  ∧ ∃ cellsArr executeCells,
      [1%Z] = map Cell.handle executeCells
      ∧ executeCells `sublist_of` cellsArr
      ∧ Observe (IterateCells 0%nat) (Ok cellsArr) ∈ t.
Proof.
  cbv zeta.
  assert (Hin : (Scenario.pyKernel, Notebook.uri Scenario.nb, [1%Z])
                ∈ dispatched (trace (exec (host Scenario.calm)
                    (executeNotebookCells Scenario.nb (FromSource 0%nat))
                    Scenario.ready))).
  { vm_compute. constructor. }
  split; [exact Hin|].
  destruct (only_eligible_cells_are_dispatched (host Scenario.calm)
              Scenario.nb (FromSource 0%nat) Scenario.ready _ _ _ Hin)
    as (cellsArr & ec & Hh & Hsub & _ & Hsrc & _).
  exists cellsArr, ec. split; [exact Hh|]. split; [exact Hsub|].
  by apply (Hsrc 0%nat).
Defined.

(** X7.  Whatever the collaborators do, [executeNotebookCells] completes a
    record only with an empty result, only after the kernel's execute call
    returned, only if the record was returned by a [createCellExecution] call
    of this run before that call, and only if its state was read as
    Unconfirmed after it. *)
Theorem only_own_unconfirmed_records_are_completed {W} (h : Handler W)
    notebook cells w exe data :
  let t := trace (exec h (executeNotebookCells notebook cells) w) in
  (exe, data) ∈ completedCalls t ->
  data = []
  ∧ ∃ before kernel handles afterwards,
      t = before
          ++ Observe (ExecuteNotebookCellsRequest kernel (Notebook.uri notebook)
                        handles) (Ok tt)
          :: afterwards
      ∧ exe ∈ created before
      ∧ Observe (ReadState exe) (Ok Unconfirmed) ∈ afterwards
      ∧ Forall (λ ob, completesRecord ob = false) before.
Proof.
  intros t Hin. subst t.
  destruct (run_shape h notebook cells w)
    as [Hnone
       |(cellsArr & k & ec & t0 & t1 & r & t2 & Ht & Hne & H0 & _ & _ & _
         & _ & _ & H1 & _ & _ & _ & Hr & H2 & Hdone)].
  { rewrite completedCalls_none in Hin; [by apply elem_of_nil in Hin|].
    eapply Forall_impl; [exact Hnone|]. by intros ob (_ & _ & ?). }
  rewrite Ht in *. clear Ht.
  rewrite (completedCalls_parts _ _ _ _ _ _ _ H0 H1) in Hin.
  destruct (Hdone exe data Hin) as (-> & Hcreated & Hread).
  split; [done|].
  assert (r = Ok tt) as ->.
  { destruct r as [[]|err]; [done|].
    rewrite Hr in Hin by done. by apply elem_of_nil in Hin. }
  exists (t0 ++ t1), k, (map Cell.handle ec), t2.
  split; [by rewrite <- app_assoc|]. split.
  { rewrite created_app. apply elem_of_app. by right. }
  split; [done|].
  apply Forall_app. split.
  - eapply Forall_impl; [exact H0|]. intros [Y e r'] Hob. by destruct e.
  - eapply Forall_impl; [exact H1|]. intros [Y e r'] Hob. by destruct e.
Qed.

Lemma only_own_unconfirmed_records_are_completed_witness :
  let t := trace (exec (host Scenario.partial)
                    (executeNotebookCells Scenario.nb
                       (FromArray [Scenario.A; Scenario.C]))
                    Scenario.readyAll) in
  let exeC := Exe.mk 1 (Notebook.uri Scenario.nb) 3 in
  (exeC, []) ∈ completedCalls t
  ∧ ∃ before kernel handles afterwards,
      t = before
          ++ Observe (ExecuteNotebookCellsRequest kernel
                        (Notebook.uri Scenario.nb) handles) (Ok tt)
          :: afterwards
      ∧ exeC ∈ created before.
Proof.
  cbv zeta.
  assert (Hin : (Exe.mk 1 (Notebook.uri Scenario.nb) 3, [])
                ∈ completedCalls (trace (exec (host Scenario.partial)
                    (executeNotebookCells Scenario.nb
                       (FromArray [Scenario.A; Scenario.C]))
                    Scenario.readyAll))).
  { vm_compute. constructor. }
  split; [exact Hin|].
  destruct (only_own_unconfirmed_records_are_completed (host Scenario.partial)
              Scenario.nb (FromArray [Scenario.A; Scenario.C])
              Scenario.readyAll _ _ Hin)
    as (_ & before & kernel & handles & afterwards & Ht & Hc & _).
  by exists before, kernel, handles, afterwards.
Defined.

(** ** Cancelling, whatever the collaborators do *)

(** X8.  [cancelNotebookCells] is [cancelNotebookCellHandles] on the handles
    of the cells, with its promise dropped: the same calls and the same
    state, but the promise fulfils whatever the inner one does, a rejection
    of the inner one being left on a promise nobody holds.  The only failure
    that reaches the caller is that of the enumeration of the cells. *)
Theorem cancelNotebookCells_drops_the_inner_promise {W} (h : Handler W)
    notebook cells w :
  let outer := exec h (cancelNotebookCells notebook cells) w in
  (∀ items,
     cells = FromArray items ->
     let inner := exec h (cancelNotebookCellHandles notebook
                            (FromArray (map Cell.handle items))) w in
     trace outer = trace inner ∧ world outer = world inner
     ∧ result outer = Ok tt ∧ dropped outer = rejection (result inner))
  ∧ (∀ src cellsArr w',
       cells = FromSource src ->
       h _ (IterateCells src) w = (Ok cellsArr, w') ->
       let inner := exec h (cancelNotebookCellHandles notebook
                              (FromArray (map Cell.handle cellsArr))) w' in
       trace outer = Observe (IterateCells src) (Ok cellsArr) :: trace inner
       ∧ world outer = world inner
       ∧ result outer = Ok tt ∧ dropped outer = rejection (result inner))
  ∧ (∀ err,
       result outer = Reject err ->
       ∃ src, cells = FromSource src
              ∧ trace outer = [Observe (IterateCells src) (Reject err)]).
Proof.
  intros outer. subst outer. unfold cancelNotebookCells.
  split; [|split].
  - intros items Hcells. subst cells. cbn [arrayFrom bind exec].
    destruct (sequential_exec h
                (cancelNotebookCellHandles notebook
                   (FromArray (map Cell.handle items))) w
                (sequential_cancelNotebookCellHandles _ _)) as (Hd & _).
    cbn [trace world result dropped after].
    rewrite Hd, !app_nil_r. by cbn.
  - intros src cellsArr w' Hcells Hit. subst cells.
    cbn [arrayFrom trigger bind exec].
    rewrite Hit.
    destruct (sequential_exec h
                (cancelNotebookCellHandles notebook
                   (FromArray (map Cell.handle cellsArr))) w'
                (sequential_cancelNotebookCellHandles _ _)) as (Hd & _).
    cbn [trace world result dropped after app].
    rewrite Hd, !app_nil_r. by cbn.
  - intros err. destruct cells as [items|src]; cbn [arrayFrom trigger bind exec].
    + by cbn.
    + destruct (h _ (IterateCells src) w) as [[cellsArr|err'] w'];
        cbn [trace result after]; [done|].
      intros Hres. inversion Hres; subst. by exists src.
Qed.

Lemma cancelNotebookCells_drops_the_inner_promise_witness :
  let outer := exec (host Scenario.dying)
                 (cancelNotebookCells Scenario.nb (FromSource 0%nat))
                 Scenario.ready in
  host Scenario.dying _ (IterateCells 0%nat) Scenario.ready
  = (Ok [Scenario.A; Scenario.B; Scenario.C],
     (Scenario.drain 0%nat Scenario.ready).2)
  ∧ result outer = Ok tt
  ∧ dropped outer = ["kernel died"]
  ∧ cancelled (trace outer)
    = [(Scenario.pyKernel, Notebook.uri Scenario.nb, [1%Z; 2%Z; 3%Z])].
Proof.
  cbv zeta.
  assert (Hit : host Scenario.dying _ (IterateCells 0%nat) Scenario.ready
                = (Ok [Scenario.A; Scenario.B; Scenario.C],
                   (Scenario.drain 0%nat Scenario.ready).2)).
  { reflexivity. }
  split; [exact Hit|].
  destruct (cancelNotebookCells_drops_the_inner_promise (host Scenario.dying)
              Scenario.nb (FromSource 0%nat) Scenario.ready)
    as (_ & Hsrc & _).
  destruct (Hsrc 0%nat _ _ eq_refl Hit) as (Ht & _ & Hres & Hd).
  split; [exact Hres|]. split; [by rewrite Hd|]. by rewrite Ht.
Defined.

(** X9.  Whatever the collaborators do, [cancelNotebookCellHandles] asks at
    most one kernel to cancel, and when it does: it asked the registry once
    and the kernel is what the registry answered, the notebook is the one
    given, and the handles are the array made from the argument, all of it
    and in its order (no handle is left out for the kind or state of its
    cell). *)
Theorem cancelNotebookCellHandles_forwards_everything {W} (h : Handler W)
    notebook handles w kernel notebook' cellsArr :
  let t := trace (exec h (cancelNotebookCellHandles notebook handles) w) in
  (kernel, notebook', cellsArr) ∈ cancelled t ->
  cancelled t = [(kernel, notebook', cellsArr)]
  ∧ notebook' = Notebook.uri notebook
  ∧ kernelsRead t = [Ok (Some kernel)]
  ∧ (∀ items, handles = FromArray items -> cellsArr = items)
  ∧ (∀ src, handles = FromSource src ->
       Observe (IterateHandles src) (Ok cellsArr) ∈ t).
Proof.
  intros t. subst t. unfold cancelNotebookCellHandles.
  destruct handles as [items|src]; answer_all h;
    cbn [cancelled kernelsRead]; intros Hin;
    try (by apply elem_of_nil in Hin);
    apply list_elem_of_singleton in Hin; inversion Hin; subst;
    (split; [done|]); (split; [done|]); (split; [done|]);
    (split; [by intros ? [=]|]); intros ? [=]; subst; by left.
Qed.

Lemma cancelNotebookCellHandles_forwards_everything_witness :
  let t := trace (exec (host Scenario.calm)
                    (cancelNotebookCellHandles Scenario.nb
                       (FromArray [2%Z; 7%Z; 2%Z])) Scenario.ready) in
  (Scenario.pyKernel, Notebook.uri Scenario.nb, [2%Z; 7%Z; 2%Z]) ∈ cancelled t
  ∧ cancelled t
    = [(Scenario.pyKernel, Notebook.uri Scenario.nb, [2%Z; 7%Z; 2%Z])]
  ∧ kernelsRead t = [Ok (Some Scenario.pyKernel)].
Proof.
  cbv zeta.
  assert (Hin : (Scenario.pyKernel, Notebook.uri Scenario.nb, [2%Z; 7%Z; 2%Z])
                ∈ cancelled (trace (exec (host Scenario.calm)
                    (cancelNotebookCellHandles Scenario.nb
                       (FromArray [2%Z; 7%Z; 2%Z])) Scenario.ready))).
  { vm_compute. constructor. }
  split; [exact Hin|].
  destruct (cancelNotebookCellHandles_forwards_everything (host Scenario.calm)
              Scenario.nb (FromArray [2%Z; 7%Z; 2%Z]) Scenario.ready _ _ _ Hin)
    as (Hc & _ & Hk & _).
  by split.
Defined.

(** ** An empty request *)

(** X10.  A request for no cell is not a no-op.  Whatever the collaborators
    do, it makes no call on a record and binds or invokes no kernel, but it
    logs, asks for trust and, once trusted, resolves a kernel.  Under [host]:
    once trusted, it is the entry followed by the whole kernel resolution of
    lines 41-49 (with the source action and the picker that this may run),
    after which it returns in the state the resolution left. *)
Theorem empty_request_still_resolves_a_kernel {X} (env : Env X) notebook cells
    (w : World X) :
  (∀ W (h : Handler W) (w' : W),
     Forall (λ ob, logs ob || asksTrust ob || resolvesKernel ob = true)
       (trace (exec h (executeNotebookCells notebook (FromArray [])) w')))
  ∧ (∀ w0 w1,
       materializeCells env cells w = ([], w0) ->
       on_requestWorkspaceTrust env trustMessage w0 = (true, w1) ->
       let resolution := exec (host env) (resolveKernel notebook) w1 in
       exec (host env) (executeNotebookCells notebook cells) w
       = settled (entry cells [] true ++ trace resolution) (Ok tt)
           (world resolution)).
Proof.
  split.
  - intros W h w'.
    assert (Htrusted : ∀ w1,
      trace (exec h (trusted notebook []) w1)
      = trace (exec h (resolveKernel notebook) w1)).
    { intros w1. unfold trusted. rewrite trace_exec_bind.
      destruct (result (exec h (resolveKernel notebook) w1)) as [[k|]|err];
        cbn; by rewrite app_nil_r. }
    rewrite executeNotebookCells_phases. unfold executeNotebookCells_phased.
    cbn [arrayFrom bind trigger exec map].
    destruct (h _ (LogDebug "NotebookExecutionService#executeNotebookCells" [])
                w') as [[[]|err] w0];
      cbn [trace after app]; [|by repeat constructor].
    constructor; [done|].
    destruct (h _ (RequestWorkspaceTrust trustMessage) w0) as [[[|]|err] w1];
      cbn [trace after app negb exec]; try by repeat constructor.
    constructor; [done|].
    change (Forall (λ ob, logs ob || asksTrust ob || resolvesKernel ob = true)
              (trace (exec h (trusted notebook []) w1))).
    rewrite Htrusted.
    eapply Forall_impl; [apply uses_exec, uses_resolveKernel|].
    intros ob ->. apply orb_true_r.
  - intros w0 w1 Hmat Htrust resolution. subst resolution.
    rewrite (exec_executeNotebookCells env _ _ _ _ _ _ _ Hmat Htrust).
    destruct (exec_resolveKernel_settled env notebook w1)
      as (steps & kernel & w2 & -> & _).
    rewrite thenRun_settled. cbn [trace world settled].
    destruct kernel as [k|].
    + cbn [filter probes map]. rewrite exec_dispatch_nil.
      rewrite !after_settled. by rewrite !app_nil_r.
    + rewrite !after_settled. by rewrite !app_nil_r.
Qed.

Lemma empty_request_still_resolves_a_kernel_witness :
  let o := exec (host Scenario.picking)
             (executeNotebookCells Scenario.nb (FromArray [])) Scenario.blank in
  materializeCells Scenario.picking (FromArray []) Scenario.blank
  = ([], Scenario.blank)
  ∧ on_requestWorkspaceTrust Scenario.picking trustMessage Scenario.blank
    = (true, Scenario.blank)
  ∧ getSelectedOrSuggestedKernel Scenario.blank Scenario.nb = None
  ∧ getSelectedOrSuggestedKernel (world o) Scenario.nb = Some Scenario.polyglot
  ∧ length (filter (λ ob, picks ob = true) (trace o)) = 1%nat.
Proof.
  cbv zeta. split; [reflexivity|]. split; [reflexivity|].
  split; [by vm_compute|].
  destruct (empty_request_still_resolves_a_kernel Scenario.picking Scenario.nb
              (FromArray []) Scenario.blank) as (_ & Hrun).
  rewrite (Hrun Scenario.blank Scenario.blank eq_refl eq_refl).
  split; by vm_compute.
Defined.

(** ** Two paths that do not meet *)

Ltac uses :=
  repeat first
    [ apply uses_trigger; done
    | apply uses_collectExecutable; done
    | apply uses_mapP
    | apply uses_filterP
    | apply uses_forEachP
    | apply uses_bind
    | match goal with
      | |- Uses _ (Ret _) => constructor
      | |- Uses _ (Detach _ _) => constructor
      | |- forall _, _ => intros ?
      | |- Uses _ (match ?x with _ => _ end) => destruct x
      end ].

(** X11.  Whatever the collaborators do: executing never asks a kernel to
    cancel; cancelling, through either entry point, never asks a kernel to
    execute, never looks a record up, creates, reads or completes one, and
    never binds a kernel. *)
Theorem executing_and_cancelling_do_not_meet {W} (h : Handler W) notebook
    cells handles w :
  let silent ob :=
    executes ob = false ∧ probesRecord ob = false ∧ createsRecord ob = false
    ∧ readsRecordState ob = false ∧ completesRecord ob = false
    ∧ bindsKernel ob = false in
  Forall (λ ob, cancels ob = false)
    (trace (exec h (executeNotebookCells notebook cells) w))
  ∧ Forall silent (trace (exec h (cancelNotebookCellHandles notebook handles) w))
  ∧ Forall silent (trace (exec h (cancelNotebookCells notebook cells) w)).
Proof.
  cbv zeta.
  assert (Hhandles : ∀ handles',
    Uses (λ ob, executes ob = false ∧ probesRecord ob = false
                ∧ createsRecord ob = false ∧ readsRecordState ob = false
                ∧ completesRecord ob = false ∧ bindsKernel ob = false)
      (cancelNotebookCellHandles notebook handles')).
  { intros handles'. unfold cancelNotebookCellHandles, arrayFrom. uses. }
  split; [|split].
  - apply uses_exec.
    unfold executeNotebookCells, resolveSourceActions, arrayFrom, isUnconfirmed.
    uses.
  - apply uses_exec, Hhandles.
  - apply uses_exec. unfold cancelNotebookCells. apply uses_bind.
    + destruct cells; cbn [arrayFrom]; uses.
    + intros cellsArr. constructor; [apply Hhandles|constructor].
Qed.
